(** * LemmaEducation: the realtime tutor session, the token route and the math parser

    A shallow embedding of three parts of the repository:

    - [hooks/useRealtimeTutor.ts]: the session hook, its event dispatch,
      the three send operations and [disconnect];
    - [app/api/realtime/token/route.ts]: the [POST] handler that mints an
      ephemeral token;
    - [lib/mathParser.ts]: [convertToLaTeX] and [stripLatexDelimiters].

    JavaScript strings are modelled as [string]; a character stands for a
    UTF-16 code unit below 256.  Values typed by the TypeScript source as
    optional ([delta?: string]) are [option]s.  State is passed
    explicitly: an operation of the hook is a function from the hook's
    store to the store it leaves.  The asynchronous [connect] is outside
    the model; the hook is taken as [connect] and the browser leave
    it. *)

(** Further parts are embedded after these three: [containsMathNotation],
    the math editor and the math block shape with the board page's use of
    them, runs of the session hook, the [catch] block and the token step of
    [connect], the text field, the file picker and the tutor page, and the
    waitlist route.  What the code calls but does not define (the KaTeX
    renderer, the upstream service, the database, the file reader) is a
    parameter of the definitions that use it. *)

From Stdlib Require Import String Ascii List Bool Arith Lia.
Import ListNotations.

Set Warnings "-register-all".

Local Open Scope string_scope.
Local Open Scope list_scope.

(** ** JavaScript string primitives *)

Module JsString.

Definition code (c : ascii) : nat := nat_of_ascii c.

(** [String.prototype.startsWith]. *)
Definition startsWith (s p : string) : bool := String.prefix p s.

(** Reversal, used to express the operations that look at the end. *)
Fixpoint rev (s : string) : string :=
  match s with
  | EmptyString => EmptyString
  | String c t => (rev t ++ String c EmptyString)%string
  end.

(** [String.prototype.endsWith]. *)
Definition endsWith (s p : string) : bool := String.prefix (rev p) (rev s).

(** White space and line terminators removed by [trim], restricted to
    code units below 256: TAB, LF, VT, FF, CR, SP and NBSP. *)
Definition isWhiteSpace (c : ascii) : bool :=
  let n := code c in
  ((9 <=? n)%nat && (n <=? 13)%nat) || (n =? 32)%nat || (n =? 160)%nat.

Fixpoint trimStart (s : string) : string :=
  match s with
  | EmptyString => EmptyString
  | String c t => if isWhiteSpace c then trimStart t else s
  end.

Definition trimEnd (s : string) : string := rev (trimStart (rev s)).

(** [String.prototype.trim]. *)
Definition trim (s : string) : string := trimEnd (trimStart s).

Fixpoint drop (n : nat) (s : string) : string :=
  match n, s with
  | O, _ => s
  | S _, EmptyString => EmptyString
  | S k, String _ t => drop k t
  end.

(** [s.slice(a, -b)] for literal non-negative [a] and [b]: the code
    units from index [a] up to, not including, index [length s - b];
    empty when the two bounds cross. *)
Definition slice (a b : nat) (s : string) : string :=
  substring a (String.length s - b - a) s.

(** [s.replace(pattern, replacement)] with a string pattern: only the
    first occurrence is replaced. *)
Fixpoint replace (pattern replacement s : string) : string :=
  if String.prefix pattern s
  then (replacement ++ drop (String.length pattern) s)%string
  else match s with
       | EmptyString => EmptyString
       | String c t => String c (replace pattern replacement t)
       end.

(** The last character, when there is one. *)
Fixpoint lastChar (s : string) : option ascii :=
  match s with
  | EmptyString => None
  | String c EmptyString => Some c
  | String _ t => lastChar t
  end.

Definition headChar (s : string) : option ascii :=
  match s with
  | EmptyString => None
  | String c _ => Some c
  end.

(** The character at an end of a string, if any, is not white space. *)
Definition notWhite (x : option ascii) : Prop :=
  forall c, x = Some c -> isWhiteSpace c = false.

End JsString.

(** ** JSON values and [JSON.stringify] *)

Module Json.

Inductive JSON : Type :=
| JString (s : string)
| JArray (items : list JSON)
| JObject (members : list (string * JSON)).

Definition quoteMark : ascii := "034"%char.
Definition backslash : ascii := "092"%char.

Definition hexDigit (n : nat) : ascii :=
  nth n ["0"; "1"; "2"; "3"; "4"; "5"; "6"; "7";
         "8"; "9"; "a"; "b"; "c"; "d"; "e"; "f"]%char "0"%char.

(** The escape of one code unit inside a JSON string literal. *)
Definition escape (c : ascii) : string :=
  let n := JsString.code c in
  if (n =? 34)%nat then String backslash (String quoteMark EmptyString)
  else if (n =? 92)%nat then String backslash (String backslash EmptyString)
  else if (n =? 8)%nat then String backslash "b"
  else if (n =? 9)%nat then String backslash "t"
  else if (n =? 10)%nat then String backslash "n"
  else if (n =? 12)%nat then String backslash "f"
  else if (n =? 13)%nat then String backslash "r"
  else if (n <? 32)%nat then
    (String backslash "u00" ++
     String (hexDigit (n / 16)) (String (hexDigit (n mod 16)) EmptyString))%string
  else String c EmptyString.

Fixpoint escapeAll (s : string) : string :=
  match s with
  | EmptyString => EmptyString
  | String c t => (escape c ++ escapeAll t)%string
  end.

Definition quote (s : string) : string :=
  (String quoteMark (escapeAll s) ++ String quoteMark EmptyString)%string.

Definition commaSep (parts : list string) : string := String.concat "," parts.

(** [JSON.stringify] without indentation; members keep the order of the
    object literal. *)
Fixpoint stringify (v : JSON) : string :=
  match v with
  | JString s => quote s
  | JArray items => ("[" ++ commaSep (map stringify items) ++ "]")%string
  | JObject members =>
      ("{" ++ commaSep (map (fun m => (quote (fst m) ++ ":" ++ stringify (snd m))%string)
                            members) ++ "}")%string
  end.

End Json.

(** ** The session hook [useRealtimeTutor] *)

Module RealtimeTutor.
Import Json.

(** [TutorState] of [components/TutorAvatar.tsx]. *)
Inductive TutorState : Type := idle | listening | thinking | speaking.

(** [RTCDataChannel.readyState]. *)
Inductive RTCDataChannelState : Type := connecting | open | closing | closed.

Record RTCDataChannel : Type := mkChannel {
  label : string;
  readyState : RTCDataChannelState
}.

(** A peer connection, known by its identity only. *)
Record RTCPeerConnection : Type := mkPeer {
  peerId : nat
}.

(** The hidden audio element; [srcObject] is the attached stream, if
    any, by identity. *)
Record HTMLAudioElement : Type := mkAudio {
  autoplay : bool;
  srcObject : option nat
}.

(** Calls that leave the hook: frames handed to the channel, the two
    [close] calls and the caller's [onError] callback. *)
Inductive Effect : Type :=
| ChannelSend (frame : string)
| ChannelClose
| PeerClose
| OnError (message : string).

(** The store of one hook instance: the three [useState] cells, the
    three refs, whether the optional [onError] prop was supplied, and the
    trace of outward calls made so far (oldest first). *)
Record Hook : Type := mkHook {
  state : TutorState;
  isConnected : bool;
  transcript : string;
  pcRef : option RTCPeerConnection;
  dcRef : option RTCDataChannel;
  audioRef : option HTMLAudioElement;
  onError : bool;
  trace : list Effect
}.

Definition setState (v : TutorState) (h : Hook) : Hook :=
  mkHook v (isConnected h) (transcript h) (pcRef h) (dcRef h) (audioRef h)
         (onError h) (trace h).

Definition setIsConnected (v : bool) (h : Hook) : Hook :=
  mkHook (state h) v (transcript h) (pcRef h) (dcRef h) (audioRef h)
         (onError h) (trace h).

(** [setTranscript] with an updater function, as React applies it. *)
Definition setTranscript (f : string -> string) (h : Hook) : Hook :=
  mkHook (state h) (isConnected h) (f (transcript h)) (pcRef h) (dcRef h)
         (audioRef h) (onError h) (trace h).

Definition setPcRef (v : option RTCPeerConnection) (h : Hook) : Hook :=
  mkHook (state h) (isConnected h) (transcript h) v (dcRef h) (audioRef h)
         (onError h) (trace h).

Definition setDcRef (v : option RTCDataChannel) (h : Hook) : Hook :=
  mkHook (state h) (isConnected h) (transcript h) (pcRef h) v (audioRef h)
         (onError h) (trace h).

Definition setAudioRef (v : option HTMLAudioElement) (h : Hook) : Hook :=
  mkHook (state h) (isConnected h) (transcript h) (pcRef h) (dcRef h) v
         (onError h) (trace h).

Definition emit (e : Effect) (h : Hook) : Hook :=
  mkHook (state h) (isConnected h) (transcript h) (pcRef h) (dcRef h)
         (audioRef h) (onError h) (trace h ++ [e]).

(** The hook as [useState] and [useRef] initialise it. *)
Definition initial (withOnError : bool) : Hook :=
  mkHook idle false "" None None None withOnError [].

(** A connected hook, as it stands once the channel has opened and the
    remote audio track has been attached. *)
Definition liveHook : Hook :=
  mkHook listening true "" (Some (mkPeer 0))
         (Some (mkChannel "oai-events" open)) (Some (mkAudio true (Some 0)))
         true [].

(** [disconnect]. *)
Definition disconnect (h : Hook) : Hook :=
  let h1 := match dcRef h with
            | Some _ => setDcRef None (emit ChannelClose h)
            | None => h
            end in
  let h2 := match pcRef h1 with
            | Some _ => setPcRef None (emit PeerClose h1)
            | None => h1
            end in
  let h3 := match audioRef h2 with
            | Some a => setAudioRef (Some (mkAudio (autoplay a) None)) h2
            | None => h2
            end in
  setState idle (setIsConnected false h3).

(** The channel's [open] and [close] listeners installed by [connect]. *)
Definition onChannelOpen (h : Hook) : Hook :=
  setState listening (setIsConnected true h).


(** A parsed server event: its [type] and the two payload fields the
    handler reads, [delta] and [error.message]. *)
Record ErrorPayload : Type := mkErrorPayload { message : option string }.

Record ServerEvent : Type := mkEvent {
  type : string;
  delta : option string;
  error : option ErrorPayload
}.

(** [x ?? d]. *)
Definition orElse (x : option string) (d : string) : string :=
  match x with Some v => v | None => d end.

(** [event.error?.message]. *)
Definition errorMessage (ev : ServerEvent) : option string :=
  match error ev with Some e => message e | None => None end.

(** [onError?.(m)]. *)
Definition callOnError (m : string) (h : Hook) : Hook :=
  if onError h then emit (OnError m) h else h.

(** [handleServerEvent]: the [switch] over [event.type]. *)
Definition handleServerEvent (ev : ServerEvent) (h : Hook) : Hook :=
  let t := type ev in
  if (t =? "session.created")%string || (t =? "session.updated")%string then
    setState listening h
  else if (t =? "input_audio_buffer.speech_started")%string then
    setState listening h
  else if (t =? "response.created")%string then
    setTranscript (fun _ => "") (setState thinking h)
  else if (t =? "response.output_audio_transcript.delta")%string then
    setTranscript (fun prev => (prev ++ orElse (delta ev) "")%string) h
  else if (t =? "response.output_audio.delta")%string then
    setState speaking h
  else if (t =? "response.done")%string
          || (t =? "response.output_audio.done")%string then
    setState listening h
  else if (t =? "response.cancelled")%string then
    setState listening h
  else if (t =? "error")%string then
    setState idle (callOnError (orElse (errorMessage ev) "An error occurred") h)
  else h.

(** The two frames of the wire protocol. *)
Definition itemCreate (content : list JSON) : JSON :=
  JObject [("type", JString "conversation.item.create");
           ("item", JObject [("type", JString "message");
                             ("role", JString "user");
                             ("content", JArray content)])].

Definition responseCreate : JSON :=
  JObject [("type", JString "response.create")].

Definition inputText (text : string) : JSON :=
  JObject [("type", JString "input_text"); ("text", JString text)].

Definition inputImage (base64Data mimeType : string) : JSON :=
  let format := JsString.replace "image/" "" mimeType in
  JObject [("type", JString "input_image");
           ("image_url",
            JString ("data:image/" ++ format ++ ";base64," ++ base64Data)%string)].

(** [dc.send(JSON.stringify(v))]. *)
Definition send (v : JSON) (h : Hook) : Hook :=
  emit (ChannelSend (stringify v)) h.

(** The guard shared by the three send operations:
    [if (!dc || dc.readyState !== 'open') return]. *)
Definition channelOpen (h : Hook) : bool :=
  match dcRef h with
  | Some dc => match readyState dc with open => true | _ => false end
  | None => false
  end.

(** The body the three send operations have in common; they differ in
    the [content] array of the message only. *)
Definition sendContent (content : list JSON) (h : Hook) : Hook :=
  if channelOpen h
  then setState thinking (send responseCreate (send (itemCreate content) h))
  else h.

(** [sendText]. *)
Definition sendText (text : string) (h : Hook) : Hook :=
  sendContent [inputText text] h.

(** [sendImage]. *)
Definition sendImage (base64Data mimeType : string) (h : Hook) : Hook :=
  sendContent [inputImage base64Data mimeType] h.

(** [sendTextWithImage]. *)
Definition sendTextWithImage (text base64Data mimeType : string) (h : Hook) : Hook :=
  sendContent [inputText text; inputImage base64Data mimeType] h.

End RealtimeTutor.

(** ** The math parser [lib/mathParser.ts] *)

Module MathParser.
Import JsString.

Definition caret : ascii := "^"%char.
Definition underscore : ascii := "_"%char.

(** The class [\d]. *)
Definition isDigit (c : ascii) : bool :=
  let n := code c in (48 <=? n)%nat && (n <=? 57)%nat.

Definition isLetter (c : ascii) : bool :=
  let n := code c in
  ((65 <=? n)%nat && (n <=? 90)%nat) || ((97 <=? n)%nat && (n <=? 122)%nat).

(** The class [\w]: letters, digits and the underscore. *)
Definition isWordChar (c : ascii) : bool :=
  isLetter c || isDigit c || (code c =? 95)%nat.

(** The longest prefix whose characters satisfy [p], and what follows:
    a greedy [p+] with nothing after it to force backtracking. *)
Fixpoint span (p : ascii -> bool) (s : string) : string * string :=
  match s with
  | EmptyString => (EmptyString, EmptyString)
  | String c t =>
      if p c then let (a, b) := span p t in (String c a, b)
      else (EmptyString, s)
  end.

Definition nonEmpty (s : string) : bool :=
  match s with EmptyString => false | _ => true end.

(** The second group [(\d+|\w+)] at the start of [s]: the digit
    alternative is tried first, and being last in the pattern its first
    success is final. *)
Definition group2 (s : string) : option (string * string) :=
  let (d, r) := span isDigit s in
  if nonEmpty d then Some (d, r)
  else let (w, r') := span isWordChar s in
       if nonEmpty w then Some (w, r') else None.

(** [(\w+) op (\d+|\w+)] anchored at the start of [s], where [op] is the
    literal between the groups.  The greedy [\w+] tries the longest base
    first (the recursive call) and gives characters back one at a time.
    The result is [(base, exponent, rest)]. *)
Fixpoint matchAt (op : ascii) (s : string) : option (string * string * string) :=
  match s with
  | EmptyString => None
  | String c t =>
      if isWordChar c then
        match matchAt op t with
        | Some (b, e, r) => Some (String c b, e, r)
        | None =>
            match t with
            | String o t' =>
                if Ascii.eqb o op then
                  match group2 t' with
                  | Some (e, r) => Some (String c EmptyString, e, r)
                  | None => None
                  end
                else None
            | EmptyString => None
            end
        end
      else None
  end.

(** The replacement callback: both branches of the source return
    [`${base}^{${exponent}}`] (with [_] for subscripts). *)
Definition braces (op : ascii) (base exponent : string) : string :=
  (base ++ String op ("{" ++ exponent ++ "}"))%string.

(** [s.replace(/(\w+) op (\d+|\w+)/g, callback)]: scan from the left;
    at a match emit the replacement and resume after the match,
    otherwise copy one character.  [fuel] bounds the number of steps. *)
Fixpoint replaceFrom (fuel : nat) (op : ascii) (s : string) : string :=
  match fuel with
  | O => s
  | S f =>
      match matchAt op s with
      | Some (b, e, r) => (braces op b e ++ replaceFrom f op r)%string
      | None =>
          match s with
          | EmptyString => EmptyString
          | String c t => String c (replaceFrom f op t)
          end
      end
  end.

Definition replaceAll (op : ascii) (s : string) : string :=
  replaceFrom (String.length s) op s.

(** Removal of the last [n] characters. *)
Definition dropEnd (n : nat) (s : string) : string := rev (drop n (rev s)).

(** [s.replace(/^O|C$/g, '')] for literal delimiters [O] and [C]: an
    opening delimiter at the very start is deleted, and a closing
    delimiter at the very end of what follows is deleted. *)
Definition removeEnds (opening closing s : string) : string :=
  let s1 := if startsWith s opening then drop (String.length opening) s else s in
  if endsWith s1 closing then dropEnd (String.length closing) s1 else s1.

Definition hasLaTeXDelimiters (trimmed : string) : bool :=
  startsWith trimmed "$" || startsWith trimmed "\(" || startsWith trimmed "\[".

(** The two substitutions applied in sequence. *)
Definition substitute (processed : string) : string :=
  replaceAll underscore (replaceAll caret processed).

(** [convertToLaTeX]. *)
Definition convertToLaTeX (input : string) : string :=
  if negb (nonEmpty (trim input)) then ""
  else
    let trimmed := trim input in
    let processed :=
      if hasLaTeXDelimiters trimmed
      then removeEnds "\[" "\]" (removeEnds "\(" "\)" (removeEnds "$" "$" trimmed))
      else trimmed in
    ("$" ++ substitute processed ++ "$")%string.

(** [stripLatexDelimiters]. *)
Definition stripLatexDelimiters (latex : string) : string :=
  let trimmed := trim latex in
  if startsWith trimmed "$" && endsWith trimmed "$" then trim (slice 1 1 trimmed)
  else if startsWith trimmed "\(" && endsWith trimmed "\)" then trim (slice 2 2 trimmed)
  else if startsWith trimmed "\[" && endsWith trimmed "\]" then trim (slice 2 2 trimmed)
  else trimmed.

(** *** Shorthand inputs

    The inputs the round trip is stated for: alphanumeric words and single
    patterns [base^exponent] or [base_subscript], separated by non-empty
    runs of characters that are neither word characters nor carets. *)

Inductive Term : Type :=
| Word (w : string)
| Sup (base exponent : string)
| Sub (base subscript : string).

(** A first term, then separators each followed by a term. *)
Definition Input : Type := (Term * list (string * Term))%type.

(** A term as the user types it. *)
Definition written (t : Term) : string :=
  match t with
  | Word w => w
  | Sup b e => (b ++ String caret e)%string
  | Sub b e => (b ++ String underscore e)%string
  end.

(** A term with its exponent or subscript in braces. *)
Definition braced (t : Term) : string :=
  match t with
  | Word w => w
  | Sup b e => braces caret b e
  | Sub b e => braces underscore b e
  end.

Fixpoint joinWith (f : Term -> string) (rest : list (string * Term)) : string :=
  match rest with
  | [] => EmptyString
  | (sep, t) :: more => (sep ++ f t ++ joinWith f more)%string
  end.

Definition render (f : Term -> string) (i : Input) : string :=
  (f (fst i) ++ joinWith f (snd i))%string.

Definition shorthand (i : Input) : string := render written i.

Definition bracedForm (i : Input) : string := render braced i.

Fixpoint allChars (p : ascii -> bool) (s : string) : bool :=
  match s with
  | EmptyString => true
  | String c t => p c && allChars p t
  end.

Definition isAlnum (c : ascii) : bool := isLetter c || isDigit c.

(** A non-empty run of letters and digits. *)
Definition alnumRun (s : string) : bool := nonEmpty s && allChars isAlnum s.

Definition isSeparatorChar (c : ascii) : bool :=
  negb (isWordChar c) && negb (Ascii.eqb c caret).

Definition isSeparator (sep : string) : bool :=
  nonEmpty sep && allChars isSeparatorChar sep.

Definition wellFormedWith (term : Term -> bool) (i : Input) : bool :=
  term (fst i) && forallb (fun st => isSeparator (fst st) && term (snd st)) (snd i).

(** The reading of the specification: base, exponent and subscript are
    any non-empty alphanumeric runs. *)
Definition alnumTerm (t : Term) : bool :=
  match t with
  | Word w => alnumRun w
  | Sup b e | Sub b e => alnumRun b && alnumRun e
  end.

Definition alnumWellFormed : Input -> bool := wellFormedWith alnumTerm.

Definition startsWithDigit (s : string) : bool :=
  match s with
  | String c _ => isDigit c
  | EmptyString => false
  end.

(** An exponent or subscript that [(\d+|\w+)] takes whole: digits only,
    or an alphanumeric run that does not begin with a digit. *)
Definition wholeIndex (e : string) : bool :=
  alnumRun e && (allChars isDigit e || negb (startsWithDigit e)).

Definition plainTerm (t : Term) : bool :=
  match t with
  | Word w => alnumRun w
  | Sup b e | Sub b e => alnumRun b && wholeIndex e
  end.

Definition wellFormed : Input -> bool := wellFormedWith plainTerm.

(** A term once the superscript substitution has run: only exponents
    are in braces. *)
Definition afterCaret (t : Term) : string :=
  match t with
  | Sup b e => braces caret b e
  | _ => written t
  end.

(** A character of a word that is not the operator [op]. *)
Definition runChar (op : ascii) (c : ascii) : bool :=
  isWordChar c && negb (Ascii.eqb c op).

(** What may follow a word without extending it or starting the operator:
    the end of the string, or a character that is neither a word character
    nor [op]. *)
Definition quiet (op : ascii) (rest : string) : bool :=
  match rest with
  | EmptyString => true
  | String c _ => negb (isWordChar c) && negb (Ascii.eqb c op)
  end.

(** A string that begins with a letter or a digit and does not end in
    white space. *)
Definition solid (s : string) : Prop :=
  (exists c, headChar s = Some c /\ isAlnum c = true) /\ notWhite (lastChar s).

(** Whether [s] is wrapped in the delimiter pair. *)
Definition wrappedIn (opening closing s : string) : bool :=
  startsWith s opening && endsWith s closing.

Definition hasDelimiterPair (s : string) : bool :=
  wrappedIn "$" "$" s || wrappedIn "\(" "\)" s || wrappedIn "\[" "\]" s.

(** [s] is the opening delimiter, a body and the closing delimiter. *)
Definition enclosed (opening closing s : string) : Prop :=
  exists body, s = (opening ++ body ++ closing)%string.

(** [s] is a body inside one of the three recognised pairs. *)
Definition delimited (s : string) : Prop :=
  enclosed "$" "$" s \/ enclosed "\(" "\)" s \/ enclosed "\[" "\]" s.

End MathParser.


(** ** The token route [app/api/realtime/token/route.ts] *)

Module TokenRoute.
Import Json.

(** [process.env], as far as the handler reads it. *)
Record Env : Type := mkEnv { OPENAI_API_KEY : option string }.

Record Request : Type := mkRequest {
  url : string;
  method : string;
  authorization : string;
  contentType : string;
  requestBody : string
}.

(** The upstream reply: its status and the body text that reading the
    body delivers, [None] when the read rejects. *)
Record UpstreamResponse : Type := mkUpstream {
  upstreamStatus : nat;
  upstreamText : option string
}.

(** [response.ok]: a status in the range 200 to 299. *)
Definition ok (r : UpstreamResponse) : bool :=
  (200 <=? upstreamStatus r)%nat && (upstreamStatus r <=? 299)%nat.

(** The body of a successful exchange, as the handler types it:
    [{ value?: string }]. *)
Record ClientSecret : Type := mkSecret { value : option string }.

(** A reply of the handler. *)
Record Response : Type := mkResponse {
  status : nat;
  body : JSON
}.

(** The statuses that go without a body. *)
Definition nullBodyStatus (s : nat) : bool :=
  (s =? 101)%nat || (s =? 103)%nat || (s =? 204)%nat || (s =? 205)%nat
  || (s =? 304)%nat.

(** [NextResponse.json(body, { status })].  The [Response] constructor
    behind it throws, here [None], on a status outside 200 to 599 and,
    the body being there, on a status that goes without one. *)
Definition NextResponse_json (body : JSON) (status : nat) : option Response :=
  if (200 <=? status)%nat && (status <=? 599)%nat && negb (nullBodyStatus status)
  then Some (mkResponse status body)
  else None.

Definition errorBody (msg : string) : JSON := JObject [("error", JString msg)].

Definition errorBodyWithDetails (msg details : string) : JSON :=
  JObject [("error", JString msg); ("details", JString details)].

Definition valueBody (v : string) : JSON := JObject [("value", JString v)].

(** JavaScript truthiness of an optional string. *)
Definition truthy (x : option string) : bool :=
  match x with
  | Some EmptyString | None => false
  | Some _ => true
  end.

Section Handler.

(** The remote endpoint: [None] when the [fetch] promise rejects. *)
Variable fetch : Request -> option UpstreamResponse.

(** [response.json()] on the body text: [None] when it rejects. *)
Variable json : string -> option ClientSecret.

(** The constant [SOCRATIC_TUTOR_INSTRUCTIONS]. *)
Variable SOCRATIC_TUTOR_INSTRUCTIONS : string.

Definition sessionConfig : JSON :=
  JObject [("type", JString "realtime");
           ("model", JString "gpt-realtime");
           ("instructions", JString SOCRATIC_TUTOR_INSTRUCTIONS);
           ("output_modalities", JArray [JString "audio"]);
           ("audio", JObject [("output", JObject [("voice", JString "marin")])])].

Definition clientSecretsRequest (apiKey : string) : Request :=
  mkRequest "https://api.openai.com/v1/realtime/client_secrets"
            "POST"
            ("Bearer " ++ apiKey)%string
            "application/json"
            (stringify (JObject [("session", sessionConfig)])).

(** The [catch] block; its status, 500, is one the constructor
    accepts. *)
Definition caught : Response := mkResponse 500 (errorBody "Failed to create token").

(** A reply built inside the [try] block: what throws there ends in the
    [catch] block. *)
Definition orCaught (built : option Response) : Response :=
  match built with
  | Some r => r
  | None => caught
  end.

(** [POST].  The two [console.error] calls are not part of the model.
    The first reply is built outside the [try] block, with a status the
    constructor accepts. *)
Definition POST (env : Env) : Response :=
  if negb (truthy (OPENAI_API_KEY env)) then
    mkResponse 500 (errorBody "OPENAI_API_KEY is not configured")
  else
    let apiKey := match OPENAI_API_KEY env with Some k => k | None => "" end in
    match fetch (clientSecretsRequest apiKey) with
    | None => caught
    | Some response =>
        if negb (ok response) then
          match upstreamText response with
          | None => caught
          | Some err =>
              orCaught (NextResponse_json
                          (errorBodyWithDetails "Failed to create token" err)
                          (upstreamStatus response))
          end
        else
          match upstreamText response with
          | None => caught
          | Some text =>
              match json text with
              | None => caught
              | Some data =>
                  if negb (truthy (value data)) then
                    orCaught (NextResponse_json (errorBody "No token in response") 500)
                  else
                    orCaught (NextResponse_json
                                (valueBody (match value data with
                                            | Some v => v
                                            | None => ""
                                            end))
                                200)
              end
          end
    end.

End Handler.

(** Two stand-ins for the outside world: an upstream that always replies
    with the given status and body text, and a body that always parses to
    the given [value]. *)
Definition replies (upstreamStatus : nat) (upstreamText : string)
  : Request -> option UpstreamResponse :=
  fun _ => Some (mkUpstream upstreamStatus (Some upstreamText)).

Definition parsesTo (v : option string) : string -> option ClientSecret :=
  fun _ => Some (mkSecret v).

(** An upstream whose reply has the given status and a body that cannot
    be read. *)
Definition repliesUnreadable (upstreamStatus : nat)
  : Request -> option UpstreamResponse :=
  fun _ => Some (mkUpstream upstreamStatus None).

End TokenRoute.

(** ** More of [lib/mathParser.ts] *)

Module Notation.
Import JsString MathParser.

Fixpoint anyChar (p : ascii -> bool) (s : string) : bool :=
  match s with
  | EmptyString => false
  | String c t => p c || anyChar p t
  end.

(** The class [[\^_]]. *)
Definition isOperator (c : ascii) : bool :=
  Ascii.eqb c caret || Ascii.eqb c underscore.

(** [containsMathNotation]: [/[\^_]/.test(input)]. *)
Definition containsMathNotation (input : string) : bool :=
  anyChar isOperator input.

(** An input that [trim] empties. *)
Definition blank (s : string) : bool := allChars isWhiteSpace s.

Definition isBrace (c : ascii) : bool :=
  Ascii.eqb c "{" || Ascii.eqb c "}".

(** The string without its curly braces. *)
Fixpoint eraseBraces (s : string) : string :=
  match s with
  | EmptyString => EmptyString
  | String c t => if isBrace c then eraseBraces t else String c (eraseBraces t)
  end.

(** [bracesInserted s t]: [t] is [s] with curly braces inserted.  Every
    character of [s] is kept, in order, and every character added is a
    curly brace. *)
Inductive bracesInserted : string -> string -> Prop :=
| inserted_nil : bracesInserted "" ""
| inserted_keep (c : ascii) (s t : string) :
    bracesInserted s t -> bracesInserted (String c s) (String c t)
| inserted_brace (c : ascii) (s t : string) :
    isBrace c = true -> bracesInserted s t -> bracesInserted s (String c t).

(** A string that begins with a letter or a digit and ends with a letter,
    a digit or a closing brace. *)
Definition tidy (s : string) : Prop :=
  (exists c, headChar s = Some c /\ isAlnum c = true)
  /\ (exists c, lastChar s = Some c /\ (isAlnum c = true \/ c = "}"%char)).

End Notation.

(** ** The math editor [components/MathEditor.tsx] and the math block
    shape [components/MathBlockShape.tsx] *)

Module Katex.

(** What [katex.renderToString] does with a source: it returns markup or
    throws, an [Error] with its message or some other value. *)
Inductive Rendering : Type :=
| Html (html : string)
| Throws (message : option string).

End Katex.

Module MathEditor.
Import JsString MathParser Katex.

(** The three [useState] cells of the editor. *)
Record State : Type := mkState {
  input : string;
  displayMode : bool;
  submitError : option string
}.

(** Calls of the two callback props. *)
Inductive Call : Type :=
| OnSave (latex : string) (displayMode : bool)
| OnCancel.

(** The editor as it mounts: the input is
    [initialLatex.replace(/^\$|\$$/g, '')]; both props default. *)
Definition mount (initialLatex : option string) (initialDisplayMode : option bool)
  : State :=
  mkState (removeEnds "$" "$" (match initialLatex with Some l => l | None => "" end))
          (match initialDisplayMode with Some d => d | None => false end)
          None.

Definition setInput (v : string) (st : State) : State :=
  mkState v (displayMode st) (submitError st).

Definition setDisplayMode (d : bool) (st : State) : State :=
  mkState (input st) d (submitError st).

(** [const latex = convertToLaTeX(input)]. *)
Definition latex (st : State) : string := convertToLaTeX (input st).

(** [handleSave]. *)
Definition handleSave (st : State) : State * list Call :=
  if negb (nonEmpty (trim (input st))) then
    (mkState (input st) (displayMode st) (Some "Math expression cannot be empty"), [])
  else
    (mkState (input st) (displayMode st) None, [OnSave (latex st) (displayMode st)]).

(** [handleKeyDown]; the last component tells whether [preventDefault]
    was called. *)
Definition handleKeyDown (key : string) (metaKey ctrlKey : bool) (st : State)
  : State * list Call * bool :=
  if (key =? "Enter")%string && (metaKey || ctrlKey) then
    (handleSave st, true)
  else if (key =? "Escape")%string then
    (st, [OnCancel], true)
  else (st, [], false).

Definition invalidMarkup : string :=
  ("<span style=" ++ String Json.quoteMark "color: red;"
   ++ String Json.quoteMark ">Invalid LaTeX</span>")%string.

Section Preview.

Variable renderToString : string -> bool -> Rendering.

(** The preview computed during render: [(previewHTML, previewError)]. *)
Definition preview (st : State) : string * option string :=
  let rawLatex := stripLatexDelimiters (latex st) in
  if nonEmpty rawLatex then
    match renderToString rawLatex (displayMode st) with
    | Html html => (html, None)
    | Throws (Some message) => (invalidMarkup, Some message)
    | Throws None => (invalidMarkup, Some "Invalid LaTeX")
    end
  else ("", None).

End Preview.

End MathEditor.

Module MathBlockShape.
Import JsString MathParser Katex.

(** The props of a math block; [w] and [h] may be missing. *)
Record Props : Type := mkProps {
  latex : string;
  displayMode : bool;
  w : option nat;
  h : option nat
}.

(** [getDefaultProps]. *)
Definition getDefaultProps : Props := mkProps "" false (Some 200) (Some 50).

(** What [component] returns: nothing, the placeholder, or the container
    holding the rendered markup with its [justifyContent]. *)
Inductive View : Type :=
| NoView
| Placeholder (width height : nat)
| MathView (html : string) (justifyContent : string) (width height : nat).

Definition errorMarkup : string :=
  ("<span style=" ++ String Json.quoteMark "color: red;"
   ++ String Json.quoteMark ">Error rendering math</span>")%string.

Section Component.

Variable renderToString : string -> bool -> Rendering.

(** [component]; the argument is [shape?.props]. *)
Definition component (props : option Props) : View :=
  match props with
  | None => NoView
  | Some p =>
      let width := match w p with Some n => n | None => 200 end in
      let height := match h p with Some n => n | None => 50 end in
      if negb (nonEmpty (trim (latex p))) then Placeholder width height
      else
        let renderedHTML :=
          match renderToString (stripLatexDelimiters (latex p)) (displayMode p) with
          | Html html => html
          | Throws _ => errorMarkup
          end in
        MathView renderedHTML
                 (if displayMode p then "center" else "flex-start")
                 width height
  end.

End Component.

(** The board page [app/board/page.tsx], as far as one math block goes
    and with the canvas editor at hand: double-click opens the math editor
    on the block's props, and the math editor's [onSave] updates [latex]
    and [displayMode] of the block, leaving its size. *)
Definition openEditor (p : Props) : MathEditor.State :=
  MathEditor.mount (Some (latex p)) (Some (displayMode p)).

Definition applyCall (p : Props) (c : MathEditor.Call) : Props :=
  match c with
  | MathEditor.OnSave l d => mkProps l d (w p) (h p)
  | MathEditor.OnCancel => p
  end.

Definition applyCalls (p : Props) (calls : list MathEditor.Call) : Props :=
  fold_left applyCall calls p.

End MathBlockShape.

(** ** Runs of the session hook *)

Module Session.
Import Json RealtimeTutor.

(** The [case] labels of [handleServerEvent]. *)
Definition knownTypes : list string :=
  ["session.created"; "session.updated"; "input_audio_buffer.speech_started";
   "response.created"; "response.output_audio_transcript.delta";
   "response.output_audio.delta"; "response.done"; "response.output_audio.done";
   "response.cancelled"; "error"].

(** Server events handled one after the other, in order of arrival. *)
Definition receiveAll (events : list ServerEvent) (h : Hook) : Hook :=
  fold_left (fun acc ev => handleServerEvent ev acc) events h.

(** Messages sent one after the other. *)
Definition sendAll (contents : list (list JSON)) (h : Hook) : Hook :=
  fold_left (fun acc content => sendContent content acc) contents h.

(** What can happen to a hook between two calls of [connect]. *)
Inductive Operation : Type :=
| Receive (ev : ServerEvent)
| SendText (text : string)
| SendImage (base64Data mimeType : string)
| SendTextWithImage (text base64Data mimeType : string)
| ChannelOpens
| Disconnect.

Definition perform (op : Operation) (h : Hook) : Hook :=
  match op with
  | Receive ev => handleServerEvent ev h
  | SendText text => sendText text h
  | SendImage b m => sendImage b m h
  | SendTextWithImage t b m => sendTextWithImage t b m h
  | ChannelOpens => onChannelOpen h
  | Disconnect => disconnect h
  end.

Definition performAll (ops : list Operation) (h : Hook) : Hook :=
  fold_left (fun acc op => perform op acc) ops h.

(** The calls that reach the channel or the peer connection. *)
Definition onWire (e : Effect) : bool :=
  match e with
  | OnError _ => false
  | _ => true
  end.

Definition isDelta (ev : ServerEvent) : bool :=
  (type ev =? "response.output_audio_transcript.delta")%string.

Definition isResponseCreated (ev : ServerEvent) : bool :=
  (type ev =? "response.created")%string.

(** The text of the transcript fragments among the events, in order. *)
Fixpoint fragments (events : list ServerEvent) : string :=
  match events with
  | [] => EmptyString
  | ev :: rest =>
      if isDelta ev then (orElse (delta ev) "" ++ fragments rest)%string
      else fragments rest
  end.

(** A hook that holds neither a channel nor a peer connection. *)
Definition released (h : Hook) : Prop := dcRef h = None /\ pcRef h = None.

(** The two frames one message puts on the channel. *)
Definition framesOf (content : list JSON) : list Effect :=
  [ChannelSend (stringify (itemCreate content));
   ChannelSend (stringify responseCreate)].

Definition isError (ev : ServerEvent) : bool := (type ev =? "error")%string.

(** The events with which the server ends a response. *)
Definition endsResponse (ev : ServerEvent) : bool :=
  (type ev =? "response.done")%string
  || (type ev =? "response.output_audio.done")%string
  || (type ev =? "response.cancelled")%string.

End Session.

(** ** The text field [components/TextInput.tsx] *)

Module TextInput.
Import JsString MathParser.

(** [handleSubmit]: the texts handed to [onSend] and the value of the
    field afterwards. *)
Definition handleSubmit (disabled : bool) (value : string) : list string * string :=
  let trimmed := trim value in
  if nonEmpty trimmed && negb disabled then ([trimmed], "")
  else ([], value).

End TextInput.

(** ** The file picker [components/FileUpload.tsx] *)

Module FileUpload.
Import JsString MathParser.

Definition ACCEPTED_IMAGE_TYPES : list string :=
  ["image/png"; "image/jpeg"; "image/webp"].

Definition ACCEPTED_PDF_TYPE : string := "application/pdf".

Definition comma : ascii := ","%char.

(** The part of [s] before its first comma. *)
Fixpoint untilComma (s : string) : string :=
  match s with
  | EmptyString => EmptyString
  | String c t => if Ascii.eqb c comma then EmptyString else String c (untilComma t)
  end.

(** The part of [s] after its first comma, if it has one. *)
Fixpoint afterComma (s : string) : option string :=
  match s with
  | EmptyString => None
  | String c t => if Ascii.eqb c comma then Some t else afterComma t
  end.

(** [s.split(',')[1]]: [undefined] without a comma. *)
Definition secondField (s : string) : option string :=
  option_map untilComma (afterComma s).

(** [ACCEPTED_IMAGE_TYPES.includes(t)]. *)
Definition isAcceptedImage (t : string) : bool :=
  existsb (String.eqb t) ACCEPTED_IMAGE_TYPES.

(** Calls of the two callback props. *)
Inductive Call : Type :=
| OnUpload (base64 mimeType : string)
| OnError (message : string).

(** How the conversion of a PDF goes: a step of the PDF library rejects
    (with an [Error] and its message, or with another value), the canvas
    gives no 2D context, or the page is drawn and the canvas exports the
    given data URL. *)
Inductive PdfRun : Type :=
| Rejects (message : option string)
| NoContext
| Drawn (dataUrl : string).

(** [convertPdfFirstPageToImage]: the pair it resolves to, or what it
    throws. *)
Definition convertPdfFirstPageToImage (run : PdfRun)
  : (string * string) + option string :=
  match run with
  | Rejects thrown => inr thrown
  | NoContext => inr (Some "Could not get canvas context")
  | Drawn dataUrl =>
      match secondField dataUrl with
      | Some (String c t) => inl (String c t, "image/png")
      | _ => inr (Some "Could not get base64")
      end
  end.

(** [handleFile] on a file of the given type.  [readerResult] is what the
    [FileReader] loads ([None] when [onload] never fires), [pdf] how the
    PDF conversion goes, [onError] whether the optional prop is there.
    The result is the calls made and [isConverting] at the end. *)
Definition handleFile (fileType : string) (readerResult : option string)
           (pdf : PdfRun) (onError : bool) (isConverting : bool)
  : list Call * bool :=
  if isAcceptedImage fileType then
    match readerResult with
    | Some result =>
        match secondField result with
        | Some (String c t) => ([OnUpload (String c t) fileType], isConverting)
        | _ => ([], isConverting)
        end
    | None => ([], isConverting)
    end
  else if (fileType =? ACCEPTED_PDF_TYPE)%string then
    match convertPdfFirstPageToImage pdf with
    | inl (base64, mimeType) => ([OnUpload base64 mimeType], false)
    | inr thrown =>
        (if onError
         then [OnError (match thrown with
                        | Some message => message
                        | None => "Failed to convert PDF"
                        end)]
         else [],
         false)
    end
  else ([], isConverting).

(** The data URL of a payload of the given media type. *)
Definition dataUrl (mimeType base64 : string) : string :=
  ("data:" ++ mimeType ++ ";base64," ++ base64)%string.

Definition commaFree (s : string) : bool :=
  allChars (fun c => negb (Ascii.eqb c comma)) s.

End FileUpload.

(** ** The tutor page [app/tutor/page.tsx] *)

Module TutorPage.
Import Json RealtimeTutor.

(** The two [useState] cells of the page and the hook it uses. *)
Record Page : Type := mkPage {
  error : option string;
  uploadedImage : option (string * string);
  tutor : Hook
}.

(** [handleUpload]. *)
Definition handleUpload (base64 mimeType : string) (p : Page) : Page :=
  mkPage (error p) (Some (base64, mimeType)) (tutor p).

(** [handleSendImageOnly]. *)
Definition handleSendImageOnly (p : Page) : Page :=
  match uploadedImage p with
  | Some (base64, mimeType) =>
      mkPage (error p) None (sendImage base64 mimeType (tutor p))
  | None => p
  end.

(** [handleTextSend]. *)
Definition handleTextSend (text : string) (p : Page) : Page :=
  match uploadedImage p with
  | Some (base64, mimeType) =>
      mkPage (error p) None (sendTextWithImage text base64 mimeType (tutor p))
  | None => mkPage (error p) (uploadedImage p) (sendText text (tutor p))
  end.

(** [clearUploadedImage]. *)
Definition clearUploadedImage (p : Page) : Page :=
  mkPage (error p) None (tutor p).

(** The [disabled] prop the page gives its inputs:
    [state === 'thinking']. *)
Definition inputsDisabled (p : Page) : bool :=
  match state (tutor p) with
  | thinking => true
  | _ => false
  end.

(** The form of [TextInput] submitted with [value] in its field, wired as
    the page wires it ([onSend = handleTextSend]): the page and the field
    afterwards. *)
Definition submitText (value : string) (p : Page) : Page * string :=
  let (sent, value') := TextInput.handleSubmit (inputsDisabled p) value in
  (fold_left (fun acc text => handleTextSend text acc) sent p, value').

(** A call of [FileUpload] as the page handles it
    ([onUpload = handleUpload], [onError = setError]). *)
Definition onFileCall (c : FileUpload.Call) (p : Page) : Page :=
  match c with
  | FileUpload.OnUpload base64 mimeType => handleUpload base64 mimeType p
  | FileUpload.OnError message => mkPage (Some message) (uploadedImage p) (tutor p)
  end.

(** The [src] of the preview image:
    [`data:${mimeType};base64,${base64}`]. *)
Definition previewSrc (p : Page) : option string :=
  match uploadedImage p with
  | Some (base64, mimeType) => Some (FileUpload.dataUrl mimeType base64)
  | None => None
  end.

End TutorPage.

(** ** Pieces of [connect] in [hooks/useRealtimeTutor.ts] *)

Module Connect.
Import Json RealtimeTutor.

(** A thrown value: an [Error] with its message, or anything else. *)
Inductive Thrown : Type :=
| ErrorOf (message : string)
| Other.

(** The [catch] block of [connect], entered with the thrown value. *)
Definition connectCatch (err : Thrown) (h : Hook) : Hook :=
  let message := match err with
                 | ErrorOf m => m
                 | Other => "Connection failed"
                 end in
  disconnect (setState idle (callOnError message h)).

(** Property access on a parsed body: [undefined] on what is not an
    object or lacks the key. *)
Fixpoint lookup (key : string) (members : list (string * JSON)) : option JSON :=
  match members with
  | [] => None
  | (k, v) :: rest => if (k =? key)%string then Some v else lookup key rest
  end.

Definition field (key : string) (v : JSON) : option JSON :=
  match v with
  | JObject members => lookup key members
  | _ => None
  end.

(** Truthiness of a value of the JSON type: only the empty string is
    falsy. *)
Definition truthy (v : JSON) : bool :=
  match v with
  | JString EmptyString => false
  | _ => true
  end.

(** [String(v)]: a string is itself, an array joins its elements with
    commas, an object is ["[object Object]"]. *)
Fixpoint toString (v : JSON) : string :=
  match v with
  | JString s => s
  | JArray items => String.concat "," (map toString items)
  | JObject _ => "[object Object]"
  end.

(** What [tokenRes.json()] settles to. *)
Inductive Parsed : Type :=
| Parses (v : JSON)
| Fails (err : Thrown).

(** The token step of [connect], from the reply of [/api/realtime/token]
    to the ephemeral key or the value thrown. *)
Definition tokenStep (ok : bool) (parsed : Parsed) : string + Thrown :=
  if negb ok then
    let err := match parsed with Parses v => v | Fails _ => JObject [] end in
    inr (ErrorOf (match field "error" err with
                  | Some e => if truthy e then toString e else "Failed to get token"
                  | None => "Failed to get token"
                  end))
  else
    match parsed with
    | Fails err => inr err
    | Parses v =>
        match field "value" v with
        | Some key => if truthy key then inl (toString key)
                      else inr (ErrorOf "No token received")
        | None => inr (ErrorOf "No token received")
        end
    end.

(** The reply of the token route as the browser receives it: [ok] from
    the status, and the body as it was built. *)
Definition replyOk (r : TokenRoute.Response) : bool :=
  (200 <=? TokenRoute.status r)%nat && (TokenRoute.status r <=? 299)%nat.

Definition tokenStepOn (r : TokenRoute.Response) : string + Thrown :=
  tokenStep (replyOk r) (Parses (TokenRoute.body r)).

End Connect.

(** ** The waitlist route [app/api/waitlist/route.ts] *)

Module Waitlist.
Import JsString MathParser.

(** The pieces of an anchored pattern: a literal character, or a
    character class repeated one or more times. *)
Inductive Atom : Type :=
| Lit (c : ascii)
| Many (p : ascii -> bool).

(** [class+] followed by whatever [k] accepts: one character of the
    class, then either more of the same (tried first) or the rest. *)
Fixpoint plus (p : ascii -> bool) (k : string -> bool) (s : string) : bool :=
  match s with
  | EmptyString => false
  | String d t => p d && (plus p k t || k t)
  end.

(** [/^atoms$/.test(s)]. *)
Fixpoint test (atoms : list Atom) (s : string) : bool :=
  match atoms with
  | [] => negb (nonEmpty s)
  | Lit c :: rest =>
      match s with
      | String d t => Ascii.eqb d c && test rest t
      | EmptyString => false
      end
  | Many p :: rest => plus p (test rest) s
  end.

(** The class [[^\s@]]. *)
Definition emailChar (c : ascii) : bool :=
  negb (isWhiteSpace c) && negb (Ascii.eqb c "@").

(** [/^[^\s@]+@[^\s@]+\.[^\s@]+$/]. *)
Definition emailRegex : list Atom :=
  [Many emailChar; Lit "@"; Many emailChar; Lit "."; Many emailChar].

(** [toLowerCase] on one code unit below 256: the letters A to Z and the
    capital letters of Latin-1. *)
Definition lowerChar (c : ascii) : ascii :=
  let n := code c in
  if ((65 <=? n)%nat && (n <=? 90)%nat)
     || ((192 <=? n)%nat && (n <=? 222)%nat && negb (n =? 215)%nat)
  then ascii_of_nat (n + 32)
  else c.

Fixpoint toLowerCase (s : string) : string :=
  match s with
  | EmptyString => EmptyString
  | String c t => String (lowerChar c) (toLowerCase t)
  end.

(** What [request.json()] settles to: a rejection, [null] (which cannot
    be destructured), or a value whose [email] is a string or is not. *)
Inductive RequestBody : Type :=
| Unparsable
| Nullish
| Parsed (email : option string).

(** How the database answers the [INSERT] of an address: the client
    cannot be created, the row is inserted, or the query is rejected with
    an error that may carry a [code]. *)
Inductive Database : Type :=
| InitFails
| Inserted
| Rejected (code : option string).

(** The body of a reply: [{ ok: true, message }] or
    [{ ok: false, error }]. *)
Inductive Body : Type :=
| Success (message : string)
| Failure (error : string).

Record Reply : Type := mkReply {
  status : nat;
  body : Body
}.

Definition ok (r : Reply) : bool :=
  match body r with
  | Success _ => true
  | Failure _ => false
  end.

(** The address as it is validated and stored:
    [email.trim().toLowerCase()]. *)
Definition normalize (email : string) : string := toLowerCase (trim email).

Section Handler.

(** [process.env.NEON_DATABASE_URL], read when the module loads. *)
Variable connectionString : option string.

Variable database : string -> Database.

(** The outer [catch]. *)
Definition unexpected : Reply :=
  mkReply 500 (Failure "An unexpected error occurred. Please try again later.").

(** [POST]: the reply, and the address handed to the [INSERT] statement
    when one was issued.  The [console.error] calls are not part of the
    model. *)
Definition POST (request : RequestBody) : Reply * option string :=
  match connectionString with
  | None | Some EmptyString =>
      (mkReply 500 (Failure "Server configuration error. Please try again later."),
       None)
  | Some _ =>
      match request with
      | Unparsable => (mkReply 400 (Failure "Invalid request format."), None)
      | Nullish => (unexpected, None)
      | Parsed None => (mkReply 400 (Failure "Email is required."), None)
      | Parsed (Some email) =>
          if negb (nonEmpty (trim email)) then
            (mkReply 400 (Failure "Email is required."), None)
          else
            let trimmed := normalize email in
            if negb (test emailRegex trimmed) then
              (mkReply 400 (Failure "Please enter a valid email address."), None)
            else if (255 <? String.length trimmed)%nat then
              (mkReply 400 (Failure "Email address is too long."), None)
            else
              match database trimmed with
              | InitFails =>
                  (mkReply 500
                     (Failure "Database connection error. Please try again later."),
                   None)
              | Inserted =>
                  (mkReply 200
                     (Success "You're on the waitlist. We'll be in touch soon."),
                   Some trimmed)
              | Rejected (Some code) =>
                  if (code =? "23505")%string then
                    (mkReply 200
                       (Success "You're already on the waitlist! We'll be in touch soon."),
                     Some trimmed)
                  else if (code =? "23514")%string then
                    (mkReply 400 (Failure "Invalid email format."), Some trimmed)
                  else if (code =? "ECONNREFUSED")%string
                          || (code =? "ETIMEDOUT")%string then
                    (mkReply 503
                       (Failure "Unable to connect to database. Please try again later."),
                     Some trimmed)
                  else (unexpected, Some trimmed)
              | Rejected None => (unexpected, Some trimmed)
              end
      end
  end.

End Handler.

End Waitlist.

(** * Properties *)

(** ** The session hook *)

Section SessionFacts.
Import Json RealtimeTutor.

(** The switch of [handleServerEvent] reads nothing but the event and
    never touches the refs or the connected flag. *)
Lemma handleServerEvent_frame (ev : ServerEvent) (h : Hook) :
  pcRef (handleServerEvent ev h) = pcRef h
  /\ dcRef (handleServerEvent ev h) = dcRef h
  /\ audioRef (handleServerEvent ev h) = audioRef h
  /\ isConnected (handleServerEvent ev h) = isConnected h
  /\ onError (handleServerEvent ev h) = onError h.
Proof.
  unfold handleServerEvent, callOnError.
  repeat match goal with
         | |- context [if ?b then _ else _] => destruct b eqn:?
         end; cbn; repeat split; solve [reflexivity | assumption].
Qed.

Lemma sendContent_frame (content : list JSON) (h : Hook) :
  pcRef (sendContent content h) = pcRef h
  /\ dcRef (sendContent content h) = dcRef h
  /\ audioRef (sendContent content h) = audioRef h
  /\ isConnected (sendContent content h) = isConnected h
  /\ transcript (sendContent content h) = transcript h.
Proof.
  unfold sendContent. destruct (channelOpen h); cbn; repeat split; reflexivity.
Qed.

Lemma sendContent_open (content : list JSON) (h : Hook) :
  channelOpen h = true ->
  sendContent content h =
  mkHook thinking (isConnected h) (transcript h) (pcRef h) (dcRef h)
         (audioRef h) (onError h)
         (trace h ++ [ChannelSend (stringify (itemCreate content));
                      ChannelSend (stringify responseCreate)]).
Proof.
  intros Hopen. unfold sendContent. rewrite Hopen.
  unfold send, emit, setState; cbn. rewrite <- app_assoc. reflexivity.
Qed.

Lemma sendContent_closed (content : list JSON) (h : Hook) :
  channelOpen h = false -> sendContent content h = h.
Proof.
  intros Hc. unfold sendContent. rewrite Hc. reflexivity.
Qed.

Lemma channelOpen_false_iff (h : Hook) :
  channelOpen h = false <->
  dcRef h = None \/ exists dc, dcRef h = Some dc /\ readyState dc <> open.
Proof.
  unfold channelOpen. split.
  - destruct (dcRef h) as [dc|]; [|auto].
    intros H. right. exists dc. split; [reflexivity|].
    destruct (readyState dc); congruence.
  - intros [-> | [dc [-> Hne]]]; [reflexivity|].
    destruct (readyState dc); congruence.
Qed.

(** C1.  With the channel open, each of [sendText], [sendImage] and
    [sendTextWithImage] hands exactly two frames to the channel and
    leaves the state at [thinking]; the result depends on nothing the
    server sends, and every other cell of the hook is unchanged.  The
    first frame is the [conversation.item.create] object whose item is a
    [message] of role [user] with the caller's content: an [input_text]
    part holding the text, an [input_image] part holding the data URL, or
    both in that order.  The second frame is the object
    [{ type: 'response.create' }].  The last two parts give the text put
    on the wire for a text message and for the second frame. *)
Theorem send_open_two_frames_then_thinking (h : Hook) :
  channelOpen h = true ->
  let message content :=
    JObject [("type", JString "conversation.item.create");
             ("item", JObject [("type", JString "message");
                               ("role", JString "user");
                               ("content", JArray content)])] in
  let textPart text :=
    JObject [("type", JString "input_text"); ("text", JString text)] in
  let imagePart base64Data mimeType :=
    JObject [("type", JString "input_image");
             ("image_url",
              JString ("data:image/" ++ JsString.replace "image/" "" mimeType
                       ++ ";base64," ++ base64Data)%string)] in
  let createResponse := JObject [("type", JString "response.create")] in
  let after content :=
    mkHook thinking (isConnected h) (transcript h) (pcRef h) (dcRef h)
           (audioRef h) (onError h)
           (trace h ++ [ChannelSend (stringify (message content));
                        ChannelSend (stringify createResponse)]) in
  let q := String "034"%char "" in
  (forall text, sendText text h = after [textPart text])
  /\ (forall base64Data mimeType,
         sendImage base64Data mimeType h = after [imagePart base64Data mimeType])
  /\ (forall text base64Data mimeType,
         sendTextWithImage text base64Data mimeType h =
         after [textPart text; imagePart base64Data mimeType])
  /\ (forall text,
         stringify (message [textPart text]) =
         ("{" ++ q ++ "type" ++ q ++ ":" ++ q ++ "conversation.item.create" ++ q
          ++ "," ++ q ++ "item" ++ q ++ ":{" ++ q ++ "type" ++ q ++ ":" ++ q
          ++ "message" ++ q ++ "," ++ q ++ "role" ++ q ++ ":" ++ q ++ "user" ++ q
          ++ "," ++ q ++ "content" ++ q ++ ":[{" ++ q ++ "type" ++ q ++ ":" ++ q
          ++ "input_text" ++ q ++ "," ++ q ++ "text" ++ q ++ ":" ++ q
          ++ escapeAll text ++ q ++ "}]}}")%string)
  /\ stringify createResponse =
     ("{" ++ q ++ "type" ++ q ++ ":" ++ q ++ "response.create" ++ q ++ "}")%string.
Proof.
  intros Hopen message textPart imagePart createResponse after q.
  assert (Hassoc : forall a b c : string, ((a ++ b) ++ c = a ++ b ++ c)%string).
  { induction a as [|x a IH]; intros b c; cbn; [reflexivity | now rewrite IH]. }
  split; [|split; [|split; [|split]]].
  - intros text. unfold sendText. now apply sendContent_open.
  - intros base64Data mimeType. unfold sendImage. now apply sendContent_open.
  - intros text base64Data mimeType. unfold sendTextWithImage.
    now apply sendContent_open.
  - intros text. unfold message, textPart, q.
    cbn [stringify map fst snd commaSep String.concat]. unfold quote.
    repeat (rewrite !Hassoc; cbn [append]). reflexivity.
  - reflexivity.
Qed.

Lemma send_open_two_frames_then_thinking_witness :
  channelOpen liveHook = true
  /\ state (sendText "2+2" liveHook) = thinking
  /\ trace (sendText "2+2" liveHook) =
     [ChannelSend
        (stringify
           (JObject [("type", JString "conversation.item.create");
                     ("item", JObject [("type", JString "message");
                                       ("role", JString "user");
                                       ("content",
                                        JArray [JObject [("type", JString "input_text");
                                                         ("text", JString "2+2")]])])]));
      ChannelSend (stringify (JObject [("type", JString "response.create")]))].
Proof.
  pose proof (send_open_two_frames_then_thinking liveHook eq_refl) as [Ht _].
  split; [reflexivity|]. rewrite (Ht "2+2"). split; reflexivity.
Defined.

(** C2.  An [error] event, whatever the state it arrives in, leaves the
    state at [idle]; when the caller supplied [onError], the callback is
    called exactly once, with [error.message] when the event has one and
    with ["An error occurred"] otherwise. *)
Theorem error_event_idle_and_reported_once (ev : ServerEvent) (h : Hook) :
  type ev = "error" ->
  onError h = true ->
  state (handleServerEvent ev h) = idle
  /\ trace (handleServerEvent ev h) =
     trace h ++ [OnError (match errorMessage ev with
                          | Some m => m
                          | None => "An error occurred"
                          end)].
Proof.
  intros Hty Hcb. unfold handleServerEvent, callOnError.
  rewrite Hty, Hcb. cbn. split; reflexivity.
Qed.

Lemma error_event_idle_and_reported_once_witness :
  state (handleServerEvent
           (mkEvent "error" None (Some (mkErrorPayload (Some "quota exceeded"))))
           (setState speaking liveHook)) = idle
  /\ trace (handleServerEvent
              (mkEvent "error" None (Some (mkErrorPayload (Some "quota exceeded"))))
              (setState speaking liveHook)) = [OnError "quota exceeded"]
  /\ trace (handleServerEvent (mkEvent "error" None None) liveHook) =
     [OnError "An error occurred"].
Proof.
  pose proof (error_event_idle_and_reported_once
                (mkEvent "error" None (Some (mkErrorPayload (Some "quota exceeded"))))
                (setState speaking liveHook) eq_refl eq_refl) as [Hs Ht].
  pose proof (error_event_idle_and_reported_once
                (mkEvent "error" None None) liveHook eq_refl eq_refl) as [_ Ht'].
  split; [exact Hs|]. split; [exact Ht | exact Ht'].
Defined.

(** Without the optional [onError] prop the same event only sets the
    state. *)
Lemma error_event_without_callback (ev : ServerEvent) (h : Hook) :
  type ev = "error" -> onError h = false ->
  handleServerEvent ev h = setState idle h.
Proof.
  intros Hty Hcb. unfold handleServerEvent, callOnError.
  rewrite Hty, Hcb. reflexivity.
Qed.

(** C3.  A [response.created] event empties the transcript, whatever it
    held, and sets the state to [thinking]; nothing else changes. *)
Theorem response_created_resets_transcript (ev : ServerEvent) (h : Hook) :
  type ev = "response.created" ->
  handleServerEvent ev h =
  mkHook thinking (isConnected h) "" (pcRef h) (dcRef h) (audioRef h)
         (onError h) (trace h).
Proof.
  intros Hty. unfold handleServerEvent. rewrite Hty. reflexivity.
Qed.

Lemma response_created_resets_transcript_witness :
  transcript (handleServerEvent (mkEvent "response.created" None None)
                (setTranscript (fun _ => "The answer is 4") liveHook)) = ""
  /\ state (handleServerEvent (mkEvent "response.created" None None)
              (setTranscript (fun _ => "The answer is 4") liveHook)) = thinking.
Proof.
  rewrite (response_created_resets_transcript
             (mkEvent "response.created" None None)
             (setTranscript (fun _ => "The answer is 4") liveHook) eq_refl).
  split; reflexivity.
Defined.

(** C4.  With no channel in [dcRef], or one whose [readyState] is not
    [open], each of the three send operations returns the hook as it
    was: no frame is sent, the state is kept and [onError] is not
    called. *)
Theorem send_without_open_channel_is_noop (h : Hook) :
  (dcRef h = None \/ exists dc, dcRef h = Some dc /\ readyState dc <> open) ->
  (forall text, sendText text h = h)
  /\ (forall base64Data mimeType, sendImage base64Data mimeType h = h)
  /\ (forall text base64Data mimeType,
         sendTextWithImage text base64Data mimeType h = h).
Proof.
  intros Hc. apply channelOpen_false_iff in Hc.
  unfold sendText, sendImage, sendTextWithImage.
  repeat split; intros; apply sendContent_closed; exact Hc.
Qed.

Lemma send_without_open_channel_is_noop_witness :
  sendText "2+2" (initial true) = initial true
  /\ sendImage "AAAA" "image/png" (setDcRef (Some (mkChannel "oai-events" connecting)) liveHook)
     = setDcRef (Some (mkChannel "oai-events" connecting)) liveHook.
Proof.
  assert (Hinit : dcRef (initial true) = None
                  \/ exists dc, dcRef (initial true) = Some dc /\ readyState dc <> open)
    by (left; reflexivity).
  assert (Hpending :
            dcRef (setDcRef (Some (mkChannel "oai-events" connecting)) liveHook) = None
            \/ exists dc,
                dcRef (setDcRef (Some (mkChannel "oai-events" connecting)) liveHook) = Some dc
                /\ readyState dc <> open).
  { right. exists (mkChannel "oai-events" connecting).
    split; [reflexivity | discriminate]. }
  destruct (send_without_open_channel_is_noop _ Hinit) as [Ht _].
  destruct (send_without_open_channel_is_noop _ Hpending) as [_ [Hi _]].
  split; [exact (Ht "2+2") | exact (Hi "AAAA" "image/png")].
Defined.

Lemma disconnect_releases (h : Hook) :
  dcRef (disconnect h) = None /\ pcRef (disconnect h) = None
  /\ isConnected (disconnect h) = false /\ state (disconnect h) = idle.
Proof.
  destruct h as [st con tr [pc|] [dc|] [au|] cb tc];
    cbn; repeat split; reflexivity.
Qed.

(** Once both handles are released, [disconnect] changes nothing: it
    issues no [close], and the audio sink it detaches again is already
    detached. *)
Lemma disconnect_when_released (h : Hook) :
  dcRef h = None -> pcRef h = None ->
  isConnected h = false -> state h = idle ->
  (forall a, audioRef h = Some a -> srcObject a = None) ->
  disconnect h = h.
Proof.
  intros Hdc Hpc Hcon Hst Haudio. unfold disconnect.
  rewrite Hdc, Hpc. destruct h as [st con tr pc dc au cb tc]; cbn in *.
  subst. destruct au as [[ap so]|]; cbn; [|reflexivity].
  specialize (Haudio _ eq_refl). cbn in Haudio. subst so. reflexivity.
Qed.

Lemma disconnect_detaches (h : Hook) (a : HTMLAudioElement) :
  audioRef (disconnect h) = Some a -> srcObject a = None.
Proof.
  destruct h as [st con tr [pc|] [dc|] [au|] cb tc];
    cbn; intros H; inversion H; reflexivity.
Qed.

(** C5.  [disconnect] is idempotent: called again on the hook it has just
    left, it returns that hook unchanged.  In particular the trace gains
    no second [close] call (both refs are already [null]), and the state
    stays [idle]. *)
Theorem disconnect_idempotent (h : Hook) :
  disconnect (disconnect h) = disconnect h
  /\ trace (disconnect (disconnect h)) = trace (disconnect h)
  /\ dcRef (disconnect h) = None
  /\ pcRef (disconnect h) = None
  /\ state (disconnect (disconnect h)) = idle.
Proof.
  destruct (disconnect_releases h) as [Hdc [Hpc [Hcon Hst]]].
  assert (Hidem : disconnect (disconnect h) = disconnect h).
  { apply disconnect_when_released; auto.
    intros a Ha. exact (disconnect_detaches h a Ha). }
  rewrite Hidem. repeat split; auto.
Qed.

(** C6.  A [response.output_audio_transcript.delta] event appends its
    [delta] to the end of the transcript (nothing when the field is
    missing) and leaves every other cell, the state included, as it was.
    Starting from an empty transcript, the fragments ["The"],
    [" answer"], [" is 4"] in this order give ["The answer is 4"]. *)
Theorem transcript_delta_appends :
  (forall ev h,
      type ev = "response.output_audio_transcript.delta" ->
      handleServerEvent ev h =
      mkHook (state h) (isConnected h)
             (transcript h ++ match delta ev with Some d => d | None => "" end)%string
             (pcRef h) (dcRef h) (audioRef h) (onError h) (trace h))
  /\ (forall h,
         transcript h = "" ->
         let fragment d :=
           mkEvent "response.output_audio_transcript.delta" (Some d) None in
         transcript (handleServerEvent (fragment " is 4")
                       (handleServerEvent (fragment " answer")
                          (handleServerEvent (fragment "The") h)))
         = "The answer is 4").
Proof.
  assert (Hstep : forall ev h,
             type ev = "response.output_audio_transcript.delta" ->
             handleServerEvent ev h =
             mkHook (state h) (isConnected h)
                    (transcript h ++ match delta ev with Some d => d | None => "" end)%string
                    (pcRef h) (dcRef h) (audioRef h) (onError h) (trace h)).
  { intros ev h Hty. unfold handleServerEvent. rewrite Hty. reflexivity. }
  split; [exact Hstep|].
  intros h Hempty fragment.
  rewrite !Hstep by reflexivity. cbn. rewrite Hempty. reflexivity.
Qed.

Lemma transcript_delta_appends_witness :
  transcript (handleServerEvent
                (mkEvent "response.output_audio_transcript.delta" (Some " is 4") None)
                (setTranscript (fun _ => "The answer") liveHook))
  = "The answer is 4"
  /\ state (handleServerEvent
              (mkEvent "response.output_audio_transcript.delta" (Some " is 4") None)
              (setTranscript (fun _ => "The answer") liveHook))
     = listening
  /\ transcript (handleServerEvent
                   (mkEvent "response.output_audio_transcript.delta" (Some " is 4") None)
                   (handleServerEvent
                      (mkEvent "response.output_audio_transcript.delta" (Some " answer") None)
                      (handleServerEvent
                         (mkEvent "response.output_audio_transcript.delta" (Some "The") None)
                         liveHook)))
     = "The answer is 4".
Proof.
  destruct transcript_delta_appends as [Hstep Hrun].
  split; [|split].
  - rewrite Hstep by reflexivity. reflexivity.
  - rewrite Hstep by reflexivity. reflexivity.
  - exact (Hrun liveHook eq_refl).
Defined.



End SessionFacts.

(** ** The token route *)

Section ReplyFacts.
Import Json TokenRoute.

(** What the constructor accepts. *)
Lemma NextResponse_json_some (b : JSON) (s : nat) (r : Response) :
  NextResponse_json b s = Some r ->
  r = mkResponse s b /\ 200 <= s <= 599 /\ s <> 204 /\ s <> 205 /\ s <> 304.
Proof.
  unfold NextResponse_json, nullBodyStatus.
  destruct (Nat.leb_spec 200 s); cbn [andb]; [|discriminate].
  destruct (Nat.leb_spec s 599); cbn [andb]; [|discriminate].
  destruct (Nat.eqb_spec s 101); [lia|].
  destruct (Nat.eqb_spec s 103); [lia|].
  destruct (Nat.eqb_spec s 204); [discriminate|].
  destruct (Nat.eqb_spec s 205); [discriminate|].
  destruct (Nat.eqb_spec s 304); [discriminate|].
  cbn. intros Hbuilt. injection Hbuilt as <-. repeat split; assumption.
Qed.

Lemma NextResponse_json_accepts (b : JSON) (s : nat) :
  200 <= s <= 599 -> s <> 204 -> s <> 205 -> s <> 304 ->
  NextResponse_json b s = Some (mkResponse s b).
Proof.
  intros [Hlo Hhi] H204 H205 H304. unfold NextResponse_json, nullBodyStatus.
  apply Nat.leb_le in Hlo, Hhi. rewrite Hlo, Hhi.
  destruct (Nat.eqb_spec s 101); [apply Nat.leb_le in Hlo; lia|].
  destruct (Nat.eqb_spec s 103); [apply Nat.leb_le in Hlo; lia|].
  destruct (Nat.eqb_spec s 204); [contradiction|].
  destruct (Nat.eqb_spec s 205); [contradiction|].
  destruct (Nat.eqb_spec s 304); [contradiction|].
  reflexivity.
Qed.

Lemma NextResponse_json_refuses (b : JSON) (s : nat) :
  s < 200 \/ 599 < s \/ s = 304 -> NextResponse_json b s = None.
Proof.
  intros H. destruct (NextResponse_json b s) as [r|] eqn:Hr; [|reflexivity].
  apply NextResponse_json_some in Hr. lia.
Qed.

Lemma ok_iff (r : UpstreamResponse) :
  ok r = true <-> 200 <= upstreamStatus r <= 299.
Proof.
  unfold ok. rewrite andb_true_iff, !Nat.leb_le. tauto.
Qed.

Lemma not_ok_iff (r : UpstreamResponse) :
  ok r = false <-> ~ (200 <= upstreamStatus r <= 299).
Proof.
  rewrite <- ok_iff. destruct (ok r); split; congruence.
Qed.

End ReplyFacts.

Section TokenRouteFacts.
Import Json TokenRoute.

Variable fetch : Request -> option UpstreamResponse.
Variable json : string -> option ClientSecret.
Variable instructions : string.

Lemma truthy_some (x : option string) :
  truthy x = true -> exists v, x = Some v /\ v <> "".
Proof.
  destruct x as [[|c t]|]; cbn; try discriminate.
  intros _. exists (String c t). split; [reflexivity | discriminate].
Qed.

Lemma truthy_nonempty (v : string) : v <> "" -> truthy (Some v) = true.
Proof.
  destruct v; [congruence | reflexivity].
Qed.

(** The handler once the key is configured and the upstream replied. *)
Lemma POST_replied (env : Env) (key : string) (r : UpstreamResponse) :
  OPENAI_API_KEY env = Some key -> key <> "" ->
  fetch (clientSecretsRequest instructions key) = Some r ->
  POST fetch json instructions env =
  if negb (ok r) then
    match upstreamText r with
    | None => caught
    | Some err =>
        orCaught (NextResponse_json (errorBodyWithDetails "Failed to create token" err)
                                    (upstreamStatus r))
    end
  else
    match upstreamText r with
    | None => caught
    | Some text =>
        match json text with
        | None => caught
        | Some data =>
            if negb (truthy (value data)) then
              mkResponse 500 (errorBody "No token in response")
            else
              mkResponse 200
                         (valueBody (match value data with Some v => v | None => "" end))
        end
    end.
Proof.
  intros Henv Hne Hf. unfold POST.
  rewrite Henv, (truthy_nonempty key Hne). cbn [negb]. rewrite Hf. reflexivity.
Qed.

(** C9, as the specification words it, fails.  An upstream reply with
    status 304 is not ok, yet the reply of the handler carries neither
    that status nor the upstream body: a reply with a body cannot have
    status 304, building it throws, and the [catch] block answers 500
    with the error alone. *)
Lemma POST_upstream_status_refused :
  ok (mkUpstream 304 (Some "Not Modified")) = false
  /\ POST (replies 304 "Not Modified") (parsesTo None) "Be Socratic."
          (mkEnv (Some "sk-live"))
     = mkResponse 500 (JObject [("error", JString "Failed to create token")])
  /\ POST (replies 304 "Not Modified") (parsesTo None) "Be Socratic."
          (mkEnv (Some "sk-live"))
     <> mkResponse 304 (JObject [("error", JString "Failed to create token");
                                 ("details", JString "Not Modified")]).
Proof.
  split; [reflexivity|]. split; [reflexivity|]. vm_compute. discriminate.
Qed.

(** C9 (amended).  [POST] takes no argument from its caller (only the
    environment).  With the key configured, an upstream reply in the 2xx
    range and a body holding a non-empty [value], it answers
    [{ value }] with status 200.  It answers
    [{ error: 'OPENAI_API_KEY is not configured' }] with status 500 when
    the key is absent or empty.  When the upstream reply is not ok it
    answers [{ error: 'Failed to create token', details }] carrying the
    upstream status and the upstream body text, provided that status is
    from 300 to 599 and not 304 and the body can be read; for every other
    reply that is not ok, and when the exchange itself fails, it answers
    [{ error: 'Failed to create token' }] with status 500.  It answers
    [{ error: 'No token in response' }] with status 500 when the reply is
    ok but its body has no [value]. *)
Theorem POST_contract :
  (forall env key r text v,
      OPENAI_API_KEY env = Some key -> key <> "" ->
      fetch (clientSecretsRequest instructions key) = Some r ->
      200 <= upstreamStatus r <= 299 ->
      upstreamText r = Some text ->
      json text = Some (mkSecret (Some v)) -> v <> "" ->
      POST fetch json instructions env
      = mkResponse 200 (JObject [("value", JString v)]))
  /\ (forall env,
         OPENAI_API_KEY env = None \/ OPENAI_API_KEY env = Some "" ->
         POST fetch json instructions env
         = mkResponse 500 (JObject [("error", JString "OPENAI_API_KEY is not configured")]))
  /\ (forall env key r err,
         OPENAI_API_KEY env = Some key -> key <> "" ->
         fetch (clientSecretsRequest instructions key) = Some r ->
         300 <= upstreamStatus r <= 599 -> upstreamStatus r <> 304 ->
         upstreamText r = Some err ->
         POST fetch json instructions env
         = mkResponse (upstreamStatus r)
                      (JObject [("error", JString "Failed to create token");
                                ("details", JString err)]))
  /\ (forall env key r,
         OPENAI_API_KEY env = Some key -> key <> "" ->
         fetch (clientSecretsRequest instructions key) = Some r ->
         ~ (200 <= upstreamStatus r <= 299) ->
         upstreamStatus r < 300 \/ 599 < upstreamStatus r \/ upstreamStatus r = 304
         \/ upstreamText r = None ->
         POST fetch json instructions env
         = mkResponse 500 (JObject [("error", JString "Failed to create token")]))
  /\ (forall env key,
         OPENAI_API_KEY env = Some key -> key <> "" ->
         fetch (clientSecretsRequest instructions key) = None ->
         POST fetch json instructions env
         = mkResponse 500 (JObject [("error", JString "Failed to create token")]))
  /\ (forall env key r text,
         OPENAI_API_KEY env = Some key -> key <> "" ->
         fetch (clientSecretsRequest instructions key) = Some r ->
         200 <= upstreamStatus r <= 299 ->
         upstreamText r = Some text ->
         json text = Some (mkSecret None) \/ json text = Some (mkSecret (Some "")) ->
         POST fetch json instructions env
         = mkResponse 500 (JObject [("error", JString "No token in response")])).
Proof.
  split; [|split; [|split; [|split; [|split]]]].
  - intros env key r text v Henv Hne Hf Hok Ht Hj Hv. apply ok_iff in Hok.
    rewrite (POST_replied env key r Henv Hne Hf), Hok, Ht, Hj. cbn [negb value].
    rewrite (truthy_nonempty v Hv). reflexivity.
  - intros env [Henv | Henv]; unfold POST; rewrite Henv; reflexivity.
  - intros env key r err Henv Hne Hf Hrange H304 Ht.
    assert (Hok : ok r = false) by (apply not_ok_iff; lia).
    rewrite (POST_replied env key r Henv Hne Hf), Hok, Ht. cbn [negb].
    rewrite NextResponse_json_accepts by lia. reflexivity.
  - intros env key r Henv Hne Hf Hnot Hwhy. apply not_ok_iff in Hnot.
    rewrite (POST_replied env key r Henv Hne Hf), Hnot. cbn [negb].
    destruct (upstreamText r) as [err|]; [|reflexivity].
    rewrite NextResponse_json_refuses; [reflexivity|].
    apply not_ok_iff in Hnot.
    destruct Hwhy as [H | [H | [H | H]]]; [lia | lia | lia | discriminate].
  - intros env key Henv Hne Hf. unfold POST.
    rewrite Henv, (truthy_nonempty key Hne). cbn [negb]. rewrite Hf. reflexivity.
  - intros env key r text Henv Hne Hf Hok Ht Hj. apply ok_iff in Hok.
    rewrite (POST_replied env key r Henv Hne Hf), Hok, Ht.
    destruct Hj as [-> | ->]; reflexivity.
Qed.

End TokenRouteFacts.

Lemma POST_contract_witness :
  TokenRoute.POST (TokenRoute.replies 200 "ok") (TokenRoute.parsesTo (Some "ek_123"))
                  "Be Socratic." (TokenRoute.mkEnv (Some "sk-live"))
  = TokenRoute.mkResponse 200 (Json.JObject [("value", Json.JString "ek_123")])
  /\ TokenRoute.POST (TokenRoute.replies 200 "ok") (TokenRoute.parsesTo None)
                     "Be Socratic." (TokenRoute.mkEnv None)
     = TokenRoute.mkResponse 500
         (Json.JObject [("error", Json.JString "OPENAI_API_KEY is not configured")])
  /\ TokenRoute.POST (TokenRoute.replies 401 "bad key") (TokenRoute.parsesTo None)
                     "Be Socratic." (TokenRoute.mkEnv (Some "sk-live"))
     = TokenRoute.mkResponse 401
         (Json.JObject [("error", Json.JString "Failed to create token");
                        ("details", Json.JString "bad key")])
  /\ TokenRoute.POST (TokenRoute.repliesUnreadable 502) (TokenRoute.parsesTo None)
                     "Be Socratic." (TokenRoute.mkEnv (Some "sk-live"))
     = TokenRoute.mkResponse 500
         (Json.JObject [("error", Json.JString "Failed to create token")])
  /\ TokenRoute.POST (TokenRoute.replies 200 "{}") (TokenRoute.parsesTo None)
                     "Be Socratic." (TokenRoute.mkEnv (Some "sk-live"))
     = TokenRoute.mkResponse 500
         (Json.JObject [("error", Json.JString "No token in response")]).
Proof.
  split; [|split; [|split; [|split]]].
  - destruct (POST_contract (TokenRoute.replies 200 "ok")
                            (TokenRoute.parsesTo (Some "ek_123")) "Be Socratic.")
      as [H _].
    apply (H (TokenRoute.mkEnv (Some "sk-live")) "sk-live"
             (TokenRoute.mkUpstream 200 (Some "ok")) "ok" "ek_123");
      try reflexivity; try discriminate. cbn. lia.
  - destruct (POST_contract (TokenRoute.replies 200 "ok")
                            (TokenRoute.parsesTo None) "Be Socratic.")
      as [_ [H _]].
    apply H. left. reflexivity.
  - destruct (POST_contract (TokenRoute.replies 401 "bad key")
                            (TokenRoute.parsesTo None) "Be Socratic.")
      as [_ [_ [H _]]].
    apply (H (TokenRoute.mkEnv (Some "sk-live")) "sk-live"
             (TokenRoute.mkUpstream 401 (Some "bad key")) "bad key");
      try reflexivity; try discriminate. cbn. lia.
  - destruct (POST_contract (TokenRoute.repliesUnreadable 502)
                            (TokenRoute.parsesTo None) "Be Socratic.")
      as [_ [_ [_ [H _]]]].
    apply (H (TokenRoute.mkEnv (Some "sk-live")) "sk-live"
             (TokenRoute.mkUpstream 502 None));
      try reflexivity; try discriminate.
    + cbn. lia.
    + right. right. right. reflexivity.
  - destruct (POST_contract (TokenRoute.replies 200 "{}")
                            (TokenRoute.parsesTo None) "Be Socratic.")
      as [_ [_ [_ [_ [_ H]]]]].
    apply (H (TokenRoute.mkEnv (Some "sk-live")) "sk-live"
             (TokenRoute.mkUpstream 200 (Some "{}")) "{}");
      try reflexivity; try discriminate.
    + cbn. lia.
    + left. reflexivity.
Defined.


(** ** Strings *)

Section StringFacts.
Import JsString.

Lemma append_nil_r (s : string) : (s ++ "")%string = s.
Proof.
  induction s as [|c s IH]; cbn; [reflexivity | now rewrite IH].
Qed.

Lemma append_assoc (a b c : string) :
  ((a ++ b) ++ c)%string = (a ++ (b ++ c))%string.
Proof.
  induction a as [|x a IH]; cbn; [reflexivity | now rewrite IH].
Qed.

Lemma length_append (a b : string) :
  String.length (a ++ b) = String.length a + String.length b.
Proof.
  induction a as [|x a IH]; cbn; [reflexivity | now rewrite IH].
Qed.

Lemma rev_append (a b : string) : rev (a ++ b) = (rev b ++ rev a)%string.
Proof.
  induction a as [|x a IH]; cbn.
  - now rewrite append_nil_r.
  - now rewrite IH, append_assoc.
Qed.

Lemma rev_involutive (s : string) : rev (rev s) = s.
Proof.
  induction s as [|c s IH]; cbn; [reflexivity|].
  rewrite rev_append, IH. reflexivity.
Qed.

Lemma length_rev (s : string) : String.length (rev s) = String.length s.
Proof.
  induction s as [|c s IH]; cbn; [reflexivity|].
  rewrite length_append, IH. cbn. lia.
Qed.

Lemma prefix_append (p s : string) : String.prefix p (p ++ s) = true.
Proof.
  induction p as [|c p IH]; cbn.
  - now destruct s.
  - destruct (ascii_dec c c) as [_|Hne]; [exact IH | congruence].
Qed.

Lemma startsWith_append (p s : string) : startsWith (p ++ s) p = true.
Proof.
  apply prefix_append.
Qed.

Lemma endsWith_append (s p : string) : endsWith (s ++ p) p = true.
Proof.
  unfold endsWith. rewrite rev_append. apply prefix_append.
Qed.

Lemma substring_skip (a s : string) (n : nat) :
  substring (String.length a) n (a ++ s) = substring 0 n s.
Proof.
  induction a as [|x a IH]; cbn; [reflexivity | exact IH].
Qed.

Lemma substring_take (s t : string) :
  substring 0 (String.length s) (s ++ t) = s.
Proof.
  induction s as [|c s IH]; cbn.
  - now destruct t.
  - now rewrite IH.
Qed.

(** [slice] removes an opening and a closing piece of the stated
    lengths. *)
Lemma slice_between (a body b : string) :
  slice (String.length a) (String.length b) (a ++ body ++ b) = body.
Proof.
  unfold slice. rewrite !length_append.
  replace (String.length a + (String.length body + String.length b)
           - String.length b - String.length a) with (String.length body) by lia.
  rewrite substring_skip. apply substring_take.
Qed.

Lemma lastChar_append (a b : string) :
  b <> "" -> lastChar (a ++ b) = lastChar b.
Proof.
  intros Hb. induction a as [|x a IH]; cbn; [reflexivity|].
  destruct (a ++ b)%string eqn:Hab; [|exact IH].
  destruct a; cbn in Hab; [congruence | discriminate].
Qed.

Lemma headChar_append (a b : string) :
  a <> "" -> headChar (a ++ b) = headChar a.
Proof.
  destruct a; [congruence | reflexivity].
Qed.

Lemma headChar_rev (s : string) : headChar (rev s) = lastChar s.
Proof.
  induction s as [|c s IH]; cbn; [reflexivity|].
  destruct s as [|d s]; [reflexivity|].
  rewrite headChar_append; [exact IH|].
  cbn. destruct (rev s); discriminate.
Qed.

Lemma trimStart_fixed (s : string) : notWhite (headChar s) -> trimStart s = s.
Proof.
  destruct s as [|c s]; cbn; [reflexivity|].
  intros H. now rewrite (H c eq_refl).
Qed.

Lemma trimEnd_fixed (s : string) : notWhite (lastChar s) -> trimEnd s = s.
Proof.
  intros H. unfold trimEnd. rewrite trimStart_fixed.
  - apply rev_involutive.
  - now rewrite headChar_rev.
Qed.

Lemma trim_fixed (s : string) :
  notWhite (headChar s) -> notWhite (lastChar s) -> trim s = s.
Proof.
  intros Hh Hl. unfold trim. rewrite (trimStart_fixed s Hh). now apply trimEnd_fixed.
Qed.

End StringFacts.

(** ** The math parser *)

Section DelimiterFacts.
Import JsString MathParser.

Lemma stripLatexDelimiters_bare (s : string) :
  hasDelimiterPair (trim s) = false -> stripLatexDelimiters s = trim s.
Proof.
  unfold hasDelimiterPair, wrappedIn, stripLatexDelimiters.
  intros H. apply orb_false_iff in H as [H H3]. apply orb_false_iff in H as [H1 H2].
  now rewrite H1, H2, H3.
Qed.

Lemma stripLatexDelimiters_dollar (s body : string) :
  trim s = ("$" ++ body ++ "$")%string -> stripLatexDelimiters s = trim body.
Proof.
  intros H. unfold stripLatexDelimiters. rewrite H.
  rewrite (startsWith_append "$" (body ++ "$")).
  rewrite <- append_assoc, endsWith_append, append_assoc. cbn [andb].
  now rewrite (slice_between "$" body "$"
                 : slice 1 1 ("$" ++ body ++ "$") = body).
Qed.

Lemma stripLatexDelimiters_paren (s body : string) :
  trim s = ("\(" ++ body ++ "\)")%string -> stripLatexDelimiters s = trim body.
Proof.
  intros H. unfold stripLatexDelimiters. rewrite H.
  replace (startsWith ("\(" ++ body ++ "\)") "$") with false by reflexivity.
  rewrite (startsWith_append "\(" (body ++ "\)")).
  rewrite <- append_assoc, endsWith_append, append_assoc. cbn [andb].
  now rewrite (slice_between "\(" body "\)"
                 : slice 2 2 ("\(" ++ body ++ "\)") = body).
Qed.

Lemma stripLatexDelimiters_bracket (s body : string) :
  trim s = ("\[" ++ body ++ "\]")%string -> stripLatexDelimiters s = trim body.
Proof.
  intros H. unfold stripLatexDelimiters. rewrite H.
  replace (startsWith ("\[" ++ body ++ "\]") "$") with false by reflexivity.
  replace (startsWith ("\[" ++ body ++ "\]") "\(") with false by reflexivity.
  rewrite (startsWith_append "\[" (body ++ "\]")).
  rewrite <- append_assoc, endsWith_append, append_assoc. cbn [andb].
  now rewrite (slice_between "\[" body "\]"
                 : slice 2 2 ("\[" ++ body ++ "\]") = body).
Qed.

End DelimiterFacts.

Section PatternFacts.
Import JsString MathParser.

Lemma span_split (p : ascii -> bool) (s a b : string) :
  span p s = (a, b) -> s = (a ++ b)%string.
Proof.
  revert a b. induction s as [|c s IH]; cbn; intros a b H.
  - inversion H. reflexivity.
  - destruct (p c).
    + destruct (span p s) as [a' b'] eqn:Hs. inversion H; subst.
      cbn. now rewrite (IH a' b).
    + inversion H. reflexivity.
Qed.

Lemma span_run (p : ascii -> bool) (e rest : string) :
  allChars p e = true ->
  (forall c, headChar rest = Some c -> p c = false) ->
  span p (e ++ rest) = (e, rest).
Proof.
  intros He Hrest. induction e as [|c e IH]; cbn in *.
  - destruct rest as [|d rest]; cbn; [reflexivity|].
    now rewrite (Hrest d eq_refl).
  - apply andb_true_iff in He as [Hc He]. rewrite Hc, (IH He). reflexivity.
Qed.

Lemma span_stuck (p : ascii -> bool) (s : string) :
  (forall c, headChar s = Some c -> p c = false) -> span p s = (EmptyString, s).
Proof.
  destruct s as [|c s]; cbn; [reflexivity|].
  intros H. now rewrite (H c eq_refl).
Qed.

Lemma nonEmpty_length (s : string) : nonEmpty s = true -> 0 < String.length s.
Proof.
  destruct s; cbn; [discriminate | lia].
Qed.

Lemma group2_consumes (s e r : string) :
  group2 s = Some (e, r) -> String.length r < String.length s.
Proof.
  unfold group2.
  destruct (span isDigit s) as [d rd] eqn:Hd.
  destruct (nonEmpty d) eqn:Hnd.
  - intros H. inversion H; subst.
    rewrite (span_split _ _ _ _ Hd), length_append.
    apply nonEmpty_length in Hnd. lia.
  - destruct (span isWordChar s) as [w rw] eqn:Hw.
    destruct (nonEmpty w) eqn:Hnw; [|discriminate].
    intros H. inversion H; subst.
    rewrite (span_split _ _ _ _ Hw), length_append.
    apply nonEmpty_length in Hnw. lia.
Qed.

Lemma matchAt_consumes (op : ascii) (s b e r : string) :
  matchAt op s = Some (b, e, r) -> String.length r < String.length s.
Proof.
  revert b. induction s as [|c s IH]; cbn; intros b; [discriminate|].
  destruct (isWordChar c); [|discriminate].
  destruct (matchAt op s) as [[[b' e'] r']|].
  - intros H. inversion H; subst. specialize (IH b' eq_refl). lia.
  - destruct s as [|o t]; [discriminate|].
    destruct (Ascii.eqb o op); [|discriminate].
    destruct (group2 t) as [[e' r']|] eqn:Hg; [|discriminate].
    intros H. inversion H; subst.
    apply group2_consumes in Hg. cbn. lia.
Qed.

(** The scan does not depend on the fuel once there is one unit per
    character. *)
Lemma replaceFrom_fuel (op : ascii) (f1 : nat) :
  forall (f2 : nat) (s : string),
    String.length s <= f1 -> String.length s <= f2 ->
    replaceFrom f1 op s = replaceFrom f2 op s.
Proof.
  induction f1 as [|f1 IH]; intros f2 s H1 H2.
  - destruct s; cbn in H1; [|lia]. destruct f2; reflexivity.
  - destruct f2 as [|f2].
    + destruct s; cbn in H2; [|lia]. reflexivity.
    + cbn. destruct (matchAt op s) as [[[b e] r]|] eqn:Hm.
      * apply matchAt_consumes in Hm. f_equal. apply IH; lia.
      * destruct s as [|c t]; [reflexivity|].
        cbn in H1, H2. f_equal. apply IH; lia.
Qed.

Lemma replaceAll_empty (op : ascii) : replaceAll op "" = "".
Proof.
  reflexivity.
Qed.

Lemma replaceAll_match (op : ascii) (s b e r : string) :
  matchAt op s = Some (b, e, r) ->
  replaceAll op s = (braces op b e ++ replaceAll op r)%string.
Proof.
  intros Hm. unfold replaceAll.
  pose proof (matchAt_consumes _ _ _ _ _ Hm) as Hlt.
  destruct (String.length s) as [|n] eqn:Hlen; [lia|].
  cbn [replaceFrom]. rewrite Hm. f_equal. apply replaceFrom_fuel; lia.
Qed.

Lemma replaceAll_step (op : ascii) (c : ascii) (t : string) :
  matchAt op (String c t) = None ->
  replaceAll op (String c t) = String c (replaceAll op t).
Proof.
  intros Hm. unfold replaceAll. cbn [String.length replaceFrom]. rewrite Hm. reflexivity.
Qed.

Lemma quiet_head (op : ascii) (rest : string) (c : ascii) :
  quiet op rest = true -> headChar rest = Some c ->
  isWordChar c = false /\ Ascii.eqb c op = false.
Proof.
  destruct rest as [|d rest]; cbn; [discriminate|].
  intros H Hc. inversion Hc; subst.
  apply andb_true_iff in H as [H1 H2].
  now rewrite negb_true_iff in H1, H2.
Qed.

(** No match starts inside a word that holds no operator and is followed
    by neither a word character nor the operator. *)
Lemma matchAt_run (op : ascii) (w rest : string) :
  allChars (runChar op) w = true -> quiet op rest = true ->
  matchAt op (w ++ rest) = None.
Proof.
  intros Hw Hq. induction w as [|c w IH]; cbn in *.
  - destruct rest as [|d rest]; [reflexivity|].
    destruct (quiet_head op _ d Hq eq_refl) as [Hd _]. cbn. now rewrite Hd.
  - apply andb_true_iff in Hw as [Hc Hw]. rewrite (IH Hw).
    destruct (isWordChar c); [|reflexivity].
    destruct w as [|d w]; cbn.
    + destruct rest as [|d rest]; [reflexivity|].
      destruct (quiet_head op _ d Hq eq_refl) as [_ Hd]. now rewrite Hd.
    + cbn in Hw. apply andb_true_iff in Hw as [Hd _].
      unfold runChar in Hd. apply andb_true_iff in Hd as [_ Hd].
      rewrite negb_true_iff in Hd. now rewrite Hd.
Qed.

Lemma replaceAll_run (op : ascii) (w rest : string) :
  allChars (runChar op) w = true -> quiet op rest = true ->
  replaceAll op (w ++ rest) = (w ++ replaceAll op rest)%string.
Proof.
  intros Hw Hq. induction w as [|c w IH]; [reflexivity|].
  pose proof (matchAt_run op (String c w) rest Hw Hq) as Hnone.
  cbn [append] in *. rewrite (replaceAll_step _ _ _ Hnone).
  cbn in Hw. apply andb_true_iff in Hw as [_ Hw]. now rewrite (IH Hw).
Qed.

Lemma replaceAll_other (op : ascii) (c : ascii) (rest : string) :
  isWordChar c = false ->
  replaceAll op (String c rest) = String c (replaceAll op rest).
Proof.
  intros Hc. apply replaceAll_step. cbn. now rewrite Hc.
Qed.

Lemma replaceAll_separator (op : ascii) (sep rest : string) :
  allChars isSeparatorChar sep = true ->
  replaceAll op (sep ++ rest) = (sep ++ replaceAll op rest)%string.
Proof.
  intros Hs. induction sep as [|c sep IH]; [reflexivity|].
  cbn in Hs. apply andb_true_iff in Hs as [Hc Hs].
  unfold isSeparatorChar in Hc. apply andb_true_iff in Hc as [Hc _].
  rewrite negb_true_iff in Hc.
  cbn [append]. rewrite (replaceAll_other op _ _ Hc). now rewrite (IH Hs).
Qed.

Lemma matchAt_cons (op c : ascii) (t : string) :
  matchAt op (String c t) =
  if isWordChar c then
    match matchAt op t with
    | Some (b, e, r) => Some (String c b, e, r)
    | None =>
        match t with
        | String o t' =>
            if Ascii.eqb o op then
              match group2 t' with
              | Some (e, r) => Some (String c EmptyString, e, r)
              | None => None
              end
            else None
        | EmptyString => None
        end
    end
  else None.
Proof.
  reflexivity.
Qed.

(** The match at the start of [base op exponent]: the whole base, and the
    exponent that [group2] takes. *)
Lemma matchAt_pattern (op : ascii) (b e rest : string) :
  nonEmpty b = true -> allChars (runChar op) b = true ->
  nonEmpty e = true -> allChars (runChar op) e = true ->
  quiet op rest = true ->
  group2 (e ++ rest) = Some (e, rest) ->
  matchAt op (b ++ String op (e ++ rest)) = Some (b, e, rest).
Proof.
  intros Hnb Hb Hne He Hq Hg.
  assert (Hop : matchAt op (String op (e ++ rest)) = None).
  { cbn. destruct (isWordChar op); [|reflexivity].
    rewrite (matchAt_run op e rest He Hq).
    destruct e as [|d e]; [discriminate|]. cbn.
    cbn in He. apply andb_true_iff in He as [Hd _].
    unfold runChar in Hd. apply andb_true_iff in Hd as [_ Hd].
    rewrite negb_true_iff in Hd. now rewrite Hd. }
  induction b as [|c b IH]; [discriminate|].
  cbn in Hb. apply andb_true_iff in Hb as [Hc Hb].
  unfold runChar in Hc. apply andb_true_iff in Hc as [Hc _].
  destruct b as [|d b].
  - change (String c "" ++ String op (e ++ rest))%string
      with (String c (String op (e ++ rest))).
    rewrite matchAt_cons, Hc, Hop, Ascii.eqb_refl, Hg. reflexivity.
  - specialize (IH eq_refl Hb).
    change (String c (String d b) ++ String op (e ++ rest))%string
      with (String c (String d b ++ String op (e ++ rest)))%string.
    rewrite matchAt_cons, Hc, IH. reflexivity.
Qed.

End PatternFacts.

Section CharacterFacts.
Import JsString MathParser.

Ltac by_cases_on c :=
  destruct c as [[] [] [] [] [] [] [] []]; vm_compute;
  try discriminate; repeat split; reflexivity.

Lemma alnum_runChar_caret (c : ascii) : isAlnum c = true -> runChar caret c = true.
Proof. by_cases_on c. Qed.

Lemma alnum_runChar_underscore (c : ascii) :
  isAlnum c = true -> runChar underscore c = true.
Proof. by_cases_on c. Qed.

Lemma alnum_wordChar (c : ascii) : isAlnum c = true -> isWordChar c = true.
Proof. by_cases_on c. Qed.

Lemma alnum_notWhite (c : ascii) : isAlnum c = true -> isWhiteSpace c = false.
Proof. by_cases_on c. Qed.

Lemma digit_wordChar (c : ascii) : isWordChar c = false -> isDigit c = false.
Proof. by_cases_on c. Qed.

Lemma other_not_underscore (c : ascii) :
  isWordChar c = false -> Ascii.eqb c underscore = false.
Proof. by_cases_on c. Qed.

Lemma alnum_not_delimiter (c : ascii) (t : string) :
  isAlnum c = true -> hasLaTeXDelimiters (String c t) = false.
Proof. by_cases_on c. Qed.

Lemma allChars_weaken (p q : ascii -> bool) (s : string) :
  (forall c, p c = true -> q c = true) ->
  allChars p s = true -> allChars q s = true.
Proof.
  intros Hpq. induction s as [|c s IH]; cbn; [reflexivity|].
  intros H. apply andb_true_iff in H as [Hc Hs].
  now rewrite (Hpq c Hc), (IH Hs).
Qed.

Lemma allChars_append (p : ascii -> bool) (a b : string) :
  allChars p (a ++ b) = allChars p a && allChars p b.
Proof.
  induction a as [|x a IH]; cbn; [reflexivity|].
  now rewrite IH, andb_assoc.
Qed.

End CharacterFacts.

Section RoundTripFacts.
Import JsString MathParser.

Lemma alnumRun_parts (s : string) :
  alnumRun s = true -> nonEmpty s = true /\ allChars isAlnum s = true.
Proof.
  unfold alnumRun. intros H. now apply andb_true_iff in H.
Qed.

Lemma alnumRun_runChar (op : ascii) (s : string) :
  op = caret \/ op = underscore ->
  alnumRun s = true -> allChars (runChar op) s = true.
Proof.
  intros Hop H. apply alnumRun_parts in H as [_ H].
  revert H. apply allChars_weaken. intros c Hc.
  destruct Hop as [-> | ->];
    [now apply alnum_runChar_caret | now apply alnum_runChar_underscore].
Qed.

(** [group2] takes a whole index, whatever non-word character follows. *)
Lemma group2_whole (op : ascii) (e rest : string) :
  wholeIndex e = true -> quiet op rest = true ->
  group2 (e ++ rest) = Some (e, rest).
Proof.
  unfold wholeIndex. intros He Hq.
  apply andb_true_iff in He as [Hrun Hkind].
  apply alnumRun_parts in Hrun as [Hne Halnum].
  assert (Hstop : forall c, headChar rest = Some c -> isWordChar c = false).
  { intros c Hc. now destruct (quiet_head op rest c Hq Hc). }
  unfold group2. apply orb_true_iff in Hkind as [Hdigits | Hletter].
  - rewrite (span_run isDigit e rest Hdigits).
    + now rewrite Hne.
    + intros c Hc. apply digit_wordChar. now apply Hstop.
  - rewrite (span_stuck isDigit (e ++ rest)).
    + cbn [nonEmpty].
      rewrite (span_run isWordChar e rest).
      * now rewrite Hne.
      * revert Halnum. apply allChars_weaken. exact alnum_wordChar.
      * exact Hstop.
    + destruct e as [|d e]; [discriminate|]. cbn in *.
      intros c Hc. inversion Hc; subst. now rewrite negb_true_iff in Hletter.
Qed.

Lemma replaceAll_pattern (op : ascii) (b e rest : string) :
  op = caret \/ op = underscore ->
  alnumRun b = true -> wholeIndex e = true -> quiet op rest = true ->
  replaceAll op ((b ++ String op e) ++ rest) =
  (braces op b e ++ replaceAll op rest)%string.
Proof.
  intros Hop Hb He Hq.
  rewrite append_assoc. cbn [append].
  apply replaceAll_match. apply matchAt_pattern; try assumption.
  - now apply alnumRun_parts in Hb.
  - now apply alnumRun_runChar.
  - unfold wholeIndex in He. apply andb_true_iff in He as [He _].
    now apply alnumRun_parts in He.
  - unfold wholeIndex in He. apply andb_true_iff in He as [He _].
    now apply alnumRun_runChar.
  - now apply group2_whole with (op := op).
Qed.

(** The superscript substitution, one term at a time. *)
Lemma caret_pass_term (t : Term) (rest : string) :
  plainTerm t = true -> quiet caret rest = true ->
  replaceAll caret (written t ++ rest) =
  (afterCaret t ++ replaceAll caret rest)%string.
Proof.
  intros Ht Hq. destruct t as [w | b e | b e]; cbn [written afterCaret plainTerm] in *.
  - apply replaceAll_run; [|exact Hq]. apply alnumRun_runChar; auto.
  - apply andb_true_iff in Ht as [Hb He].
    apply replaceAll_pattern; auto.
  - apply andb_true_iff in Ht as [Hb He].
    apply replaceAll_run; [|exact Hq].
    rewrite allChars_append. cbn [allChars].
    unfold wholeIndex in He. apply andb_true_iff in He as [He _].
    rewrite (alnumRun_runChar caret b), (alnumRun_runChar caret e); auto.
Qed.

(** The subscript substitution on what the first one left. *)
Lemma underscore_pass_term (t : Term) (rest : string) :
  plainTerm t = true -> quiet underscore rest = true ->
  replaceAll underscore (afterCaret t ++ rest) =
  (braced t ++ replaceAll underscore rest)%string.
Proof.
  intros Ht Hq. destruct t as [w | b e | b e]; cbn [braced afterCaret written plainTerm] in *.
  - apply replaceAll_run; [|exact Hq]. apply alnumRun_runChar; auto.
  - apply andb_true_iff in Ht as [Hb He].
    unfold wholeIndex in He. apply andb_true_iff in He as [He _].
    unfold braces. rewrite !append_assoc. cbn [append].
    rewrite replaceAll_run; [|apply alnumRun_runChar; auto|reflexivity].
    rewrite !replaceAll_other by reflexivity.
    rewrite !append_assoc.
    rewrite replaceAll_run; [|apply alnumRun_runChar; auto|reflexivity].
    cbn [append]. rewrite replaceAll_other by reflexivity. reflexivity.
  - apply andb_true_iff in Ht as [Hb He].
    apply replaceAll_pattern; auto.
Qed.

Lemma separator_quiet (op : ascii) (sep rest : string) :
  op = caret \/ op = underscore ->
  isSeparator sep = true -> quiet op (sep ++ rest) = true.
Proof.
  intros Hop Hsep. unfold isSeparator in Hsep.
  apply andb_true_iff in Hsep as [Hne Hall].
  destruct sep as [|c sep]; [discriminate|]. cbn in *.
  apply andb_true_iff in Hall as [Hc _]. unfold isSeparatorChar in Hc.
  apply andb_true_iff in Hc as [Hw Hcaret].
  rewrite Hw. cbn. destruct Hop as [-> | ->]; [exact Hcaret|].
  rewrite negb_true_iff in Hw. now rewrite (other_not_underscore c Hw).
Qed.

(** One substitution over the separators and terms that follow the first
    term. *)
Lemma pass_joinWith (op : ascii) (f g : Term -> string)
      (rest : list (string * Term)) :
  op = caret \/ op = underscore ->
  (forall t tail, plainTerm t = true -> quiet op tail = true ->
                  replaceAll op (f t ++ tail) = (g t ++ replaceAll op tail)%string) ->
  forallb (fun st => isSeparator (fst st) && plainTerm (snd st)) rest = true ->
  replaceAll op (joinWith f rest) = joinWith g rest
  /\ quiet op (joinWith f rest) = true.
Proof.
  intros Hop Hterm. induction rest as [|[sep t] rest IH]; cbn [joinWith forallb fst snd].
  - intros _. split; reflexivity.
  - intros H. apply andb_true_iff in H as [Hst Hrest].
    apply andb_true_iff in Hst as [Hsep Ht].
    destruct (IH Hrest) as [IHeq IHq]. split.
    + rewrite replaceAll_separator.
      * now rewrite (Hterm t _ Ht IHq), IHeq.
      * unfold isSeparator in Hsep. now apply andb_true_iff in Hsep.
    + now apply separator_quiet.
Qed.

Lemma pass_render (op : ascii) (f g : Term -> string) (i : Input) :
  op = caret \/ op = underscore ->
  (forall t tail, plainTerm t = true -> quiet op tail = true ->
                  replaceAll op (f t ++ tail) = (g t ++ replaceAll op tail)%string) ->
  wellFormed i = true ->
  replaceAll op (render f i) = render g i.
Proof.
  intros Hop Hterm Hwf. unfold wellFormed, wellFormedWith in Hwf.
  apply andb_true_iff in Hwf as [Hfirst Hrest].
  destruct (pass_joinWith op f g (snd i) Hop Hterm Hrest) as [Heq Hq].
  unfold render. now rewrite (Hterm _ _ Hfirst Hq), Heq.
Qed.

(** The two substitutions turn the shorthand into the braced form. *)
Lemma substitute_shorthand (i : Input) :
  wellFormed i = true -> substitute (shorthand i) = bracedForm i.
Proof.
  intros Hwf. unfold substitute, shorthand, bracedForm.
  rewrite (pass_render caret written afterCaret i); auto using caret_pass_term.
  apply pass_render; auto using underscore_pass_term.
Qed.

End RoundTripFacts.

Section ConverterFacts.
Import JsString MathParser.

Lemma alnumRun_head (s : string) :
  alnumRun s = true -> exists c, headChar s = Some c /\ isAlnum c = true.
Proof.
  intros H. apply alnumRun_parts in H as [Hne Hall].
  destruct s as [|c s]; [discriminate|]. cbn in Hall.
  apply andb_true_iff in Hall as [Hc _]. exists c. now split.
Qed.

Lemma allChars_last (p : ascii -> bool) (s : string) (c : ascii) :
  allChars p s = true -> lastChar s = Some c -> p c = true.
Proof.
  induction s as [|d s IH]; cbn; [discriminate|].
  intros H Hl. apply andb_true_iff in H as [Hd Hs].
  destruct s as [|d' s]; [inversion Hl; now subst | now apply IH].
Qed.

Lemma alnumRun_last (s : string) : alnumRun s = true -> notWhite (lastChar s).
Proof.
  intros H c Hc. apply alnumRun_parts in H as [_ Hall].
  apply alnum_notWhite. exact (allChars_last isAlnum s c Hall Hc).
Qed.

Lemma nonEmpty_neq (s : string) : nonEmpty s = true -> s <> "".
Proof.
  destruct s; [discriminate | discriminate].
Qed.

Lemma solid_append (a b : string) :
  (exists c, headChar a = Some c /\ isAlnum c = true) ->
  b <> "" -> notWhite (lastChar b) -> solid (a ++ b).
Proof.
  intros [c [Hc Hal]] Hb Hl. split.
  - exists c. split; [|exact Hal].
    rewrite headChar_append; [exact Hc|]. destruct a; [discriminate | discriminate].
  - now rewrite lastChar_append.
Qed.

Lemma solid_nonEmpty (s : string) : solid s -> s <> "".
Proof.
  intros [[c [Hc _]] _]. destruct s; [discriminate | discriminate].
Qed.

Lemma wholeIndex_alnumRun (e : string) : wholeIndex e = true -> alnumRun e = true.
Proof.
  unfold wholeIndex. intros H. now apply andb_true_iff in H.
Qed.

Lemma solid_written (t : Term) : plainTerm t = true -> solid (written t).
Proof.
  destruct t as [w | b e | b e]; cbn [plainTerm written]; intros H.
  - split; [now apply alnumRun_head | now apply alnumRun_last].
  - apply andb_true_iff in H as [Hb He]. apply wholeIndex_alnumRun in He.
    apply solid_append; [now apply alnumRun_head | discriminate |].
    change (String caret e) with (String caret "" ++ e)%string.
    rewrite lastChar_append; [now apply alnumRun_last|].
    apply nonEmpty_neq. now apply alnumRun_parts in He.
  - apply andb_true_iff in H as [Hb He]. apply wholeIndex_alnumRun in He.
    apply solid_append; [now apply alnumRun_head | discriminate |].
    change (String underscore e) with (String underscore "" ++ e)%string.
    rewrite lastChar_append; [now apply alnumRun_last|].
    apply nonEmpty_neq. now apply alnumRun_parts in He.
Qed.

Lemma braces_last (op : ascii) (b e : string) :
  notWhite (lastChar (String op ("{" ++ e ++ "}"))).
Proof.
  change (String op ("{" ++ e ++ "}"))%string
    with ((String op "{" ++ e) ++ "}")%string at 1.
  rewrite lastChar_append by discriminate. intros c Hc. inversion Hc. reflexivity.
Qed.

Lemma solid_braced (t : Term) : plainTerm t = true -> solid (braced t).
Proof.
  destruct t as [w | b e | b e]; cbn [plainTerm braced]; intros H.
  - split; [now apply alnumRun_head | now apply alnumRun_last].
  - apply andb_true_iff in H as [Hb _]. unfold braces.
    apply solid_append; [now apply alnumRun_head | discriminate |].
    now apply braces_last.
  - apply andb_true_iff in H as [Hb _]. unfold braces.
    apply solid_append; [now apply alnumRun_head | discriminate |].
    now apply braces_last.
Qed.

Lemma joinWith_last (f : Term -> string) (rest : list (string * Term)) :
  (forall t, plainTerm t = true -> solid (f t)) ->
  forallb (fun st => isSeparator (fst st) && plainTerm (snd st)) rest = true ->
  rest <> [] ->
  joinWith f rest <> "" /\ notWhite (lastChar (joinWith f rest)).
Proof.
  intros Hf. induction rest as [|[sep t] rest IH]; [congruence|].
  cbn [forallb joinWith fst snd]. intros H _.
  apply andb_true_iff in H as [Hst Hrest].
  apply andb_true_iff in Hst as [_ Ht].
  destruct (Hf t Ht) as [Hhead Hlast].
  pose proof (solid_nonEmpty (f t) (Hf t Ht)) as Hne.
  destruct rest as [|st rest].
  - cbn [joinWith]. rewrite append_nil_r. split.
    + destruct sep; cbn; [exact Hne | discriminate].
    + now rewrite lastChar_append.
  - destruct (IH Hrest ltac:(discriminate)) as [IHne IHl].
    assert (Hne' : (f t ++ joinWith f (st :: rest))%string <> "").
    { destruct (f t); [congruence | discriminate]. }
    split.
    + destruct sep; cbn [append]; [exact Hne' | discriminate].
    + rewrite lastChar_append by exact Hne'. now rewrite lastChar_append.
Qed.

Lemma solid_render (f : Term -> string) (i : Input) :
  (forall t, plainTerm t = true -> solid (f t)) ->
  wellFormed i = true -> solid (render f i).
Proof.
  intros Hf Hwf. unfold wellFormed, wellFormedWith in Hwf.
  apply andb_true_iff in Hwf as [Hfirst Hrest].
  destruct (Hf _ Hfirst) as [Hhead Hlast]. unfold render.
  destruct (snd i) as [|st rest] eqn:Hsnd.
  - cbn [joinWith]. rewrite append_nil_r. now split.
  - destruct (joinWith_last f (st :: rest) Hf Hrest ltac:(discriminate)) as [Hne Hl].
    now apply solid_append.
Qed.

Lemma solid_trim (s : string) : solid s -> trim s = s.
Proof.
  intros [[c [Hc Hal]] Hl]. apply trim_fixed; [|exact Hl].
  intros d Hd. rewrite Hc in Hd. inversion Hd; subst. now apply alnum_notWhite.
Qed.

(** What [convertToLaTeX] returns on an input that begins with a letter or
    a digit and does not end in white space: the two substitutions,
    wrapped in dollar signs. *)
Lemma convertToLaTeX_solid (s : string) :
  solid s -> convertToLaTeX s = ("$" ++ substitute s ++ "$")%string.
Proof.
  intros Hs. unfold convertToLaTeX. rewrite (solid_trim s Hs).
  destruct Hs as [[c [Hc Hal]] _].
  destruct s as [|d s]; [discriminate|]. cbn in Hc. inversion Hc; subst d.
  cbn [nonEmpty negb]. now rewrite (alnum_not_delimiter c s Hal).
Qed.

(** [stripLatexDelimiters] undoes the wrapping of a body that has no white
    space at its ends. *)
Lemma stripLatexDelimiters_wrapped (body : string) :
  notWhite (headChar body) -> notWhite (lastChar body) ->
  stripLatexDelimiters ("$" ++ body ++ "$") = body.
Proof.
  intros Hh Hl.
  rewrite (stripLatexDelimiters_dollar ("$" ++ body ++ "$") body).
  - now apply trim_fixed.
  - apply trim_fixed.
    + intros c Hc. inversion Hc. reflexivity.
    + change ("$" ++ body ++ "$")%string with (("$" ++ body) ++ "$")%string.
      rewrite lastChar_append by discriminate. intros c Hc. inversion Hc. reflexivity.
Qed.

End ConverterFacts.

Section EnclosureFacts.
Import JsString MathParser.

Lemma prefix_split (p s : string) :
  String.prefix p s = true -> exists r, s = (p ++ r)%string.
Proof.
  revert s. induction p as [|c p IH]; intros s; cbn.
  - intros _. now exists s.
  - destruct s as [|d s]; [discriminate|]. cbn [prefix].
    destruct (Ascii.ascii_dec c d) as [->|Hne]; [|discriminate].
    intros H. destruct (IH s H) as [r ->]. now exists r.
Qed.

Lemma endsWith_split (s p : string) :
  endsWith s p = true -> exists r, s = (r ++ p)%string.
Proof.
  unfold endsWith. intros H. destruct (prefix_split _ _ H) as [r Hr].
  exists (rev r). rewrite <- (rev_involutive s), Hr, rev_append.
  now rewrite rev_involutive.
Qed.

(** What passes the test for a dollar pair: the lone dollar sign, or a
    body between two dollar signs. *)
Lemma wrappedIn_dollar (s : string) :
  wrappedIn "$" "$" s = true -> s = "$" \/ enclosed "$" "$" s.
Proof.
  unfold wrappedIn, startsWith. intros H. apply andb_true_iff in H as [Hs He].
  destruct (prefix_split _ _ Hs) as [r Hr].
  destruct (endsWith_split _ _ He) as [r' Hr']. subst s.
  destruct r' as [|c r'']; cbn in Hr'.
  - left. exact Hr'.
  - right. injection Hr' as _ Hr'. exists r''. now rewrite Hr'.
Qed.

(** With two different delimiters of two characters each, what passes the
    test is a body between the two. *)
Lemma wrappedIn_two (a b c d : ascii) (s : string) :
  b <> c -> b <> d ->
  wrappedIn (String a (String b "")) (String c (String d "")) s = true ->
  enclosed (String a (String b "")) (String c (String d "")) s.
Proof.
  unfold wrappedIn, startsWith. intros Hbc Hbd H.
  apply andb_true_iff in H as [Hs He].
  destruct (prefix_split _ _ Hs) as [r Hr].
  destruct (endsWith_split _ _ He) as [r' Hr']. subst s.
  destruct r' as [|c1 [|c2 r'']]; cbn in Hr'.
  - injection Hr' as _ Hb _. contradiction.
  - injection Hr' as _ Hb _. contradiction.
  - injection Hr' as _ _ Hr'. exists r''. now rewrite Hr'.
Qed.

Lemma hasDelimiterPair_cases (s : string) :
  hasDelimiterPair s = true -> s = "$" \/ delimited s.
Proof.
  unfold hasDelimiterPair, delimited. intros H.
  apply orb_true_iff in H as [H | H]; [apply orb_true_iff in H as [H | H]|].
  - destruct (wrappedIn_dollar s H) as [Hl | He]; auto.
  - right. right. left. apply wrappedIn_two in H; [exact H | discriminate..].
  - right. right. right. apply wrappedIn_two in H; [exact H | discriminate..].
Qed.

End EnclosureFacts.

Section MathParserClaims.
Import JsString MathParser.

(** C7, as the specification words it, fails: ["x^2y"] is one exponent
    pattern whose base ["x"] and exponent ["2y"] are the alphanumeric runs
    around the caret, yet the round trip gives ["x^{2}y"], not the braced
    form ["x^{2y}"]: the digit alternative of [(\d+|\w+)] stops after
    ["2"]. *)
Lemma roundtrip_digit_led_exponent :
  alnumWellFormed (Sup "x" "2y", []) = true
  /\ shorthand (Sup "x" "2y", []) = "x^2y"
  /\ bracedForm (Sup "x" "2y", []) = "x^{2y}"
  /\ stripLatexDelimiters (convertToLaTeX "x^2y") = "x^{2}y"
  /\ stripLatexDelimiters (convertToLaTeX (shorthand (Sup "x" "2y", [])))
     <> bracedForm (Sup "x" "2y", []).
Proof.
  repeat split; try reflexivity. vm_compute. discriminate.
Qed.

(** C7 (amended).  Take an input made of alphanumeric words and single
    patterns [base^exponent] or [base_subscript], separated by non-empty
    runs of characters that are neither word characters nor carets, in
    which every base is a non-empty alphanumeric run and every exponent
    or subscript is a non-empty alphanumeric run that is all digits or
    does not begin with a digit.  Then [convertToLaTeX] returns the
    braced form between two dollar signs, and [stripLatexDelimiters]
    applied to that removes exactly those two delimiters: the round trip
    yields the braced form. *)
Theorem roundtrip_yields_braced_form (i : Input) :
  wellFormed i = true ->
  convertToLaTeX (shorthand i) = ("$" ++ bracedForm i ++ "$")%string
  /\ stripLatexDelimiters (convertToLaTeX (shorthand i)) = bracedForm i.
Proof.
  intros Hwf.
  assert (Hconv : convertToLaTeX (shorthand i) = ("$" ++ bracedForm i ++ "$")%string).
  { rewrite convertToLaTeX_solid.
    - now rewrite substitute_shorthand.
    - apply solid_render; [exact solid_written | exact Hwf]. }
  split; [exact Hconv|]. rewrite Hconv.
  destruct (solid_render braced i solid_braced Hwf) as [[c [Hc Hal]] Hlast].
  apply stripLatexDelimiters_wrapped; [|exact Hlast].
  intros d Hd. unfold bracedForm in Hd. rewrite Hc in Hd.
  inversion Hd; subst. now apply alnum_notWhite.
Qed.

Lemma roundtrip_yields_braced_form_witness :
  wellFormed (Sup "x" "2", [(" + ", Sub "y" "ab"); (" = ", Word "r2")]) = true
  /\ shorthand (Sup "x" "2", [(" + ", Sub "y" "ab"); (" = ", Word "r2")])
     = "x^2 + y_ab = r2"
  /\ stripLatexDelimiters (convertToLaTeX "x^2 + y_ab = r2") = "x^{2} + y_{ab} = r2".
Proof.
  destruct (roundtrip_yields_braced_form
              (Sup "x" "2", [(" + ", Sub "y" "ab"); (" = ", Word "r2")]) eq_refl)
    as [_ H].
  split; [reflexivity|]. split; [reflexivity|]. exact H.
Defined.

(** C8, as the specification words it, fails: [" x "] holds no delimiter
    pair, yet [stripLatexDelimiters] does not return it unchanged; it
    returns the trimmed ["x"]. *)
Lemma stripLatexDelimiters_trims_bare_input :
  ~ delimited " x "
  /\ hasDelimiterPair " x " = false
  /\ stripLatexDelimiters " x " = "x"
  /\ stripLatexDelimiters " x " <> " x ".
Proof.
  split; [|repeat split; try reflexivity; vm_compute; discriminate].
  intros [[body H] | [[body H] | [body H]]]; discriminate H.
Qed.

(** C8 (amended).  When the trimmed input is not the single character
    ["$"] and is not an opening delimiter, a body and the matching
    closing delimiter, [stripLatexDelimiters] returns the trimmed input,
    which is the input itself when it has no white space at its ends.
    When the trimmed input is an opening delimiter, a body and the
    matching closing delimiter, exactly that one layer is removed and the
    body is returned trimmed. *)
Theorem stripLatexDelimiters_one_layer (s : string) :
  (~ delimited (trim s) -> trim s <> "$" -> stripLatexDelimiters s = trim s)
  /\ (~ delimited s -> s <> "$" -> trim s = s -> stripLatexDelimiters s = s)
  /\ (forall body, trim s = ("$" ++ body ++ "$")%string ->
                   stripLatexDelimiters s = trim body)
  /\ (forall body, trim s = ("\(" ++ body ++ "\)")%string ->
                   stripLatexDelimiters s = trim body)
  /\ (forall body, trim s = ("\[" ++ body ++ "\]")%string ->
                   stripLatexDelimiters s = trim body).
Proof.
  split; [|split; [|split; [|split]]].
  - intros Hbare Hlone. apply stripLatexDelimiters_bare.
    destruct (hasDelimiterPair (trim s)) eqn:Hpair; [|reflexivity].
    destruct (hasDelimiterPair_cases _ Hpair) as [H | H]; contradiction.
  - intros Hbare Hlone Hfixed. rewrite <- Hfixed at 2.
    apply stripLatexDelimiters_bare. rewrite Hfixed.
    destruct (hasDelimiterPair s) eqn:Hpair; [|reflexivity].
    destruct (hasDelimiterPair_cases _ Hpair) as [H | H]; contradiction.
  - intros body. apply stripLatexDelimiters_dollar.
  - intros body. apply stripLatexDelimiters_paren.
  - intros body. apply stripLatexDelimiters_bracket.
Qed.

Lemma not_delimited_x : ~ delimited "x".
Proof.
  intros [[body H] | [[body H] | [body H]]]; discriminate H.
Qed.

Lemma not_delimited_braced : ~ delimited "x^{2}".
Proof.
  intros [[body H] | [[body H] | [body H]]]; discriminate H.
Qed.

Lemma stripLatexDelimiters_one_layer_witness :
  stripLatexDelimiters " x " = "x"
  /\ stripLatexDelimiters "x^{2}" = "x^{2}"
  /\ stripLatexDelimiters " $$ x $$ " = "$ x $"
  /\ stripLatexDelimiters "\( x^{2}\)" = "x^{2}"
  /\ stripLatexDelimiters "\[x\]" = "x".
Proof.
  split; [|split; [|split; [|split]]].
  - destruct (stripLatexDelimiters_one_layer " x ") as [H _].
    apply H.
    + exact not_delimited_x.
    + discriminate.
  - destruct (stripLatexDelimiters_one_layer "x^{2}") as [_ [H _]].
    apply H.
    + exact not_delimited_braced.
    + discriminate.
    + reflexivity.
  - destruct (stripLatexDelimiters_one_layer " $$ x $$ ") as [_ [_ [H _]]].
    exact (H "$ x $" eq_refl).
  - destruct (stripLatexDelimiters_one_layer "\( x^{2}\)") as [_ [_ [_ [H _]]]].
    exact (H " x^{2}" eq_refl).
  - destruct (stripLatexDelimiters_one_layer "\[x\]") as [_ [_ [_ [_ H]]]].
    exact (H "x" eq_refl).
Defined.

(** The single character ["$"] passes the test for a dollar pair, opening
    and closing delimiter being the same character, and comes back as the
    empty string. *)
Lemma stripLatexDelimiters_lone_dollar :
  hasDelimiterPair "$" = true /\ ~ delimited "$" /\ stripLatexDelimiters "$" = "".
Proof.
  split; [reflexivity|]. split; [|reflexivity].
  intros [[body H] | [[body H] | [body H]]]; try discriminate H.
  destruct body; discriminate H.
Qed.

End MathParserClaims.


(** ** More on strings *)

Section TrimFacts.
Import JsString MathParser Notation.

Lemma rev_empty (s : string) : rev s = "" -> s = "".
Proof.
  intros H. rewrite <- (rev_involutive s), H. reflexivity.
Qed.

Lemma lastChar_rev (s : string) : lastChar (rev s) = headChar s.
Proof.
  rewrite <- (rev_involutive s) at 2. symmetry. apply headChar_rev.
Qed.

Lemma trimStart_head (s : string) : notWhite (headChar (trimStart s)).
Proof.
  induction s as [|c s IH]; cbn.
  - intros d Hd. discriminate.
  - destruct (isWhiteSpace c) eqn:Hc; [exact IH|].
    intros d Hd. cbn in Hd. inversion Hd; subst. exact Hc.
Qed.

Lemma trimStart_last (s : string) :
  trimStart s <> "" -> lastChar (trimStart s) = lastChar s.
Proof.
  induction s as [|c s IH]; cbn; [congruence|].
  destruct (isWhiteSpace c); [|reflexivity].
  intros H. rewrite (IH H).
  destruct s as [|d s]; [cbn in H; congruence | reflexivity].
Qed.

Lemma trimStart_blank (s : string) :
  trimStart s = "" <-> allChars isWhiteSpace s = true.
Proof.
  induction s as [|c s IH]; cbn; [tauto|].
  destruct (isWhiteSpace c); cbn; [exact IH|]. split; discriminate.
Qed.

Lemma allChars_rev (p : ascii -> bool) (s : string) :
  allChars p (rev s) = allChars p s.
Proof.
  induction s as [|c s IH]; cbn; [reflexivity|].
  rewrite allChars_append, IH. cbn. rewrite andb_true_r. apply andb_comm.
Qed.

(** What [trim] returns has no white space at either end. *)
Lemma trim_ends (s : string) :
  notWhite (headChar (trim s)) /\ notWhite (lastChar (trim s)).
Proof.
  unfold trim, trimEnd. split.
  - rewrite <- lastChar_rev, rev_involutive.
    destruct (trimStart (rev (trimStart s))) eqn:Ht.
    + intros d Hd. discriminate.
    + rewrite <- Ht, trimStart_last by (rewrite Ht; discriminate).
      rewrite lastChar_rev. apply trimStart_head.
  - rewrite lastChar_rev. apply trimStart_head.
Qed.

Lemma trim_idempotent (s : string) : trim (trim s) = trim s.
Proof.
  destruct (trim_ends s) as [Hh Hl]. now apply trim_fixed.
Qed.

Lemma trim_blank (s : string) : trim s = "" <-> blank s = true.
Proof.
  unfold blank. rewrite <- trimStart_blank. unfold trim, trimEnd. split.
  - intros H. apply rev_empty in H. apply trimStart_blank in H.
    rewrite allChars_rev in H.
    pose proof (trimStart_head s) as Hhead.
    destruct (trimStart s) as [|c t]; [reflexivity|].
    cbn in H. rewrite (Hhead c eq_refl) in H. discriminate.
  - intros H. rewrite H. reflexivity.
Qed.

Lemma nonEmpty_false (s : string) : nonEmpty s = false <-> s = "".
Proof.
  destruct s; cbn; split; congruence.
Qed.

End TrimFacts.

(** ** More on the two substitutions *)

Section SubstitutionFacts.
Import JsString MathParser Notation.

Lemma group2_sound (s e r : string) :
  group2 s = Some (e, r) -> s = (e ++ r)%string /\ e <> "".
Proof.
  unfold group2.
  destruct (span isDigit s) as [d rd] eqn:Hd.
  destruct (nonEmpty d) eqn:Hnd.
  - intros H. inversion H; subst. split.
    + exact (span_split _ _ _ _ Hd).
    + now apply nonEmpty_neq.
  - destruct (span isWordChar s) as [w rw] eqn:Hw.
    destruct (nonEmpty w) eqn:Hnw; [|discriminate].
    intros H. inversion H; subst. split.
    + exact (span_split _ _ _ _ Hw).
    + now apply nonEmpty_neq.
Qed.

(** A match is a non-empty base, the operator, a non-empty exponent and
    the rest, in this order. *)
Lemma matchAt_sound (op : ascii) (s b e r : string) :
  matchAt op s = Some (b, e, r) ->
  s = (b ++ String op (e ++ r))%string /\ b <> "" /\ e <> "".
Proof.
  revert b. induction s as [|c s IH]; intros b; [discriminate|].
  rewrite matchAt_cons. destruct (isWordChar c); [|discriminate].
  destruct (matchAt op s) as [[[b' e'] r']|].
  - intros H. inversion H; subst.
    destruct (IH b' eq_refl) as [Hs [_ He]].
    split; [cbn; now rewrite <- Hs | split; [discriminate | exact He]].
  - destruct s as [|o t]; [discriminate|].
    destruct (Ascii.eqb o op) eqn:Ho; [|discriminate].
    destruct (group2 t) as [[e' r']|] eqn:Hg; [|discriminate].
    intros H. inversion H; subst.
    apply Ascii.eqb_eq in Ho. subst o.
    destruct (group2_sound _ _ _ Hg) as [Ht He].
    split; [cbn; now rewrite <- Ht | split; [discriminate | exact He]].
Qed.

(** Reasoning on [replaceAll] by the three cases of its scan. *)
Lemma replaceAll_cases (op : ascii) (P : string -> string -> Prop) :
  P "" "" ->
  (forall s b e r out,
      matchAt op s = Some (b, e, r) -> P r out ->
      P s (braces op b e ++ out)%string) ->
  (forall c t out,
      matchAt op (String c t) = None -> P t out ->
      P (String c t) (String c out)) ->
  forall s, P s (replaceAll op s).
Proof.
  intros Hnil Hmatch Hstep s.
  remember (String.length s) as n eqn:Hn.
  revert s Hn. induction n as [n IH] using lt_wf_ind. intros s Hn.
  destruct (matchAt op s) as [[[b e] r]|] eqn:Hm.
  - rewrite (replaceAll_match op s b e r Hm).
    apply (Hmatch s b e r _ Hm).
    apply (IH (String.length r)); [|reflexivity].
    pose proof (matchAt_consumes _ _ _ _ _ Hm). lia.
  - destruct s as [|c t]; [exact Hnil|].
    rewrite (replaceAll_step op c t Hm).
    apply (Hstep c t _ Hm).
    apply (IH (String.length t)); [|reflexivity]. cbn in Hn. lia.
Qed.

Lemma anyChar_append (p : ascii -> bool) (a b : string) :
  anyChar p (a ++ b) = anyChar p a || anyChar p b.
Proof.
  induction a as [|x a IH]; cbn; [reflexivity|].
  now rewrite IH, orb_assoc.
Qed.

Lemma anyChar_rev (p : ascii -> bool) (s : string) :
  anyChar p (rev s) = anyChar p s.
Proof.
  induction s as [|c s IH]; cbn; [reflexivity|].
  rewrite anyChar_append, IH. cbn. rewrite orb_false_r. apply orb_comm.
Qed.

Lemma anyChar_trimStart (p : ascii -> bool) (s : string) :
  anyChar p s = false -> anyChar p (trimStart s) = false.
Proof.
  induction s as [|c s IH]; cbn; [reflexivity|].
  intros H. apply orb_false_iff in H as [Hc Hs].
  destruct (isWhiteSpace c); [now apply IH|]. cbn. now rewrite Hc, Hs.
Qed.

Lemma anyChar_trim (p : ascii -> bool) (s : string) :
  anyChar p s = false -> anyChar p (trim s) = false.
Proof.
  intros H. unfold trim, trimEnd.
  rewrite anyChar_rev. apply anyChar_trimStart.
  rewrite anyChar_rev. now apply anyChar_trimStart.
Qed.

(** Without the operator in the string there is nothing to replace. *)
Lemma replaceAll_without_operator (op : ascii) (s : string) :
  anyChar (fun c => Ascii.eqb c op) s = false -> replaceAll op s = s.
Proof.
  apply (replaceAll_cases op
           (fun s out => anyChar (fun c => Ascii.eqb c op) s = false -> out = s)).
  - reflexivity.
  - intros s0 b e r out Hm _ Hno.
    destruct (matchAt_sound _ _ _ _ _ Hm) as [Hs _]. rewrite Hs in Hno.
    rewrite anyChar_append in Hno. cbn in Hno.
    rewrite Ascii.eqb_refl, orb_true_r in Hno. discriminate.
  - intros c t out _ IH Hno. cbn in Hno.
    apply orb_false_iff in Hno as [_ Hno]. now rewrite (IH Hno).
Qed.

Lemma anyChar_weaken (p q : ascii -> bool) (s : string) :
  (forall c, q c = true -> p c = true) ->
  anyChar p s = false -> anyChar q s = false.
Proof.
  intros Hqp. induction s as [|c s IH]; cbn; [reflexivity|].
  intros H. apply orb_false_iff in H as [Hc Hs]. rewrite (IH Hs).
  destruct (q c) eqn:Hq; [|reflexivity].
  rewrite (Hqp c Hq) in Hc. discriminate.
Qed.

Lemma substitute_without_notation (s : string) :
  containsMathNotation s = false -> substitute s = s.
Proof.
  unfold containsMathNotation, substitute. intros H.
  rewrite (replaceAll_without_operator caret s).
  - apply replaceAll_without_operator.
    revert H. apply anyChar_weaken. intros c Hc.
    unfold isOperator. now rewrite Hc, orb_true_r.
  - revert H. apply anyChar_weaken. intros c Hc.
    unfold isOperator. now rewrite Hc.
Qed.

(** A substitution keeps the first character. *)
Lemma replaceAll_head (op : ascii) (s : string) :
  headChar (replaceAll op s) = headChar s.
Proof.
  destruct (matchAt op s) as [[[b e] r]|] eqn:Hm.
  - rewrite (replaceAll_match op s b e r Hm).
    destruct (matchAt_sound _ _ _ _ _ Hm) as [Hs [Hb _]].
    rewrite Hs. unfold braces. rewrite append_assoc.
    now rewrite !headChar_append.
  - destruct s as [|c t]; [reflexivity|].
    now rewrite (replaceAll_step op c t Hm).
Qed.

(** A substitution keeps the last character or ends with the closing
    brace it added, and maps only the empty string to the empty string. *)
Lemma replaceAll_last (op : ascii) (s : string) :
  (s = "" -> replaceAll op s = "")
  /\ (s <> "" ->
      replaceAll op s <> ""
      /\ (lastChar (replaceAll op s) = lastChar s
          \/ lastChar (replaceAll op s) = Some "}"%char)).
Proof.
  apply (replaceAll_cases op
           (fun s out =>
              (s = "" -> out = "")
              /\ (s <> "" ->
                  out <> "" /\ (lastChar out = lastChar s
                                \/ lastChar out = Some "}"%char)))).
  - split; [reflexivity | congruence].
  - intros s0 b e r out Hm [IHe IHn].
    destruct (matchAt_sound _ _ _ _ _ Hm) as [Hs [Hb He]].
    split; [intros ->; discriminate|]. intros _.
    assert (Hbr : braces op b e <> "").
    { unfold braces. destruct b; discriminate. }
    split; [destruct (braces op b e); [congruence | discriminate]|].
    destruct r as [|d r].
    + rewrite (IHe eq_refl), append_nil_r. right.
      unfold braces.
      change (b ++ String op ("{" ++ e ++ "}"))%string
        with (b ++ (String op "{" ++ e) ++ "}")%string.
      rewrite <- !append_assoc. now rewrite lastChar_append by discriminate.
    + destruct (IHn ltac:(discriminate)) as [Hout Hlast].
      rewrite lastChar_append by exact Hout.
      destruct Hlast as [Hlast | Hlast]; [left | now right].
      rewrite Hlast, Hs.
      change (b ++ String op (e ++ String d r))%string
        with (b ++ (String op e ++ String d r))%string.
      now rewrite <- !append_assoc, lastChar_append by discriminate.
  - intros c t out _ [IHe IHn].
    split; [discriminate|]. intros _. split; [discriminate|].
    destruct t as [|d t].
    + rewrite (IHe eq_refl). now left.
    + destruct (IHn ltac:(discriminate)) as [Hout Hlast].
      destruct out as [|o out]; [congruence|].
      change (lastChar (String c (String o out))) with (lastChar (String o out)).
      change (lastChar (String c (String d t))) with (lastChar (String d t)).
      exact Hlast.
Qed.

Lemma replaceAll_notWhite (op : ascii) (s : string) :
  notWhite (headChar s) -> notWhite (lastChar s) ->
  notWhite (headChar (replaceAll op s)) /\ notWhite (lastChar (replaceAll op s)).
Proof.
  intros Hh Hl. split; [now rewrite replaceAll_head|].
  destruct (replaceAll_last op s) as [He Hn].
  destruct s as [|c t].
  - rewrite (He eq_refl). intros d Hd. discriminate.
  - destruct (Hn ltac:(discriminate)) as [_ [Hlast | Hlast]]; rewrite Hlast.
    + exact Hl.
    + intros d Hd. inversion Hd. reflexivity.
Qed.

Lemma substitute_notWhite (s : string) :
  notWhite (headChar s) -> notWhite (lastChar s) ->
  notWhite (headChar (substitute s)) /\ notWhite (lastChar (substitute s)).
Proof.
  intros Hh Hl. unfold substitute.
  destruct (replaceAll_notWhite caret s Hh Hl) as [Hh' Hl'].
  now apply replaceAll_notWhite.
Qed.

Lemma eraseBraces_append (a b : string) :
  eraseBraces (a ++ b) = (eraseBraces a ++ eraseBraces b)%string.
Proof.
  induction a as [|x a IH]; cbn; [reflexivity|].
  destruct (isBrace x); cbn; now rewrite IH.
Qed.

(** A substitution inserts braces and nothing else. *)
Lemma replaceAll_eraseBraces (op : ascii) (s : string) :
  isBrace op = false -> eraseBraces (replaceAll op s) = eraseBraces s.
Proof.
  intros Hop.
  apply (replaceAll_cases op (fun s out => eraseBraces out = eraseBraces s)).
  - reflexivity.
  - intros s0 b e r out Hm IH.
    destruct (matchAt_sound _ _ _ _ _ Hm) as [Hs _]. rewrite Hs.
    unfold braces. rewrite !eraseBraces_append. cbn.
    rewrite Hop, !eraseBraces_append, IH. cbn.
    rewrite append_nil_r, append_assoc. cbn. reflexivity.
  - intros c t out _ IH. cbn. destruct (isBrace c); now rewrite IH.
Qed.

End SubstitutionFacts.

(** ** The converter on arbitrary input *)

Section ConverterExtras.
Import JsString MathParser Notation.

Lemma blank_trim (s : string) : blank s = false -> nonEmpty (trim s) = true.
Proof.
  intros Hb. destruct (trim s) eqn:Ht; [|reflexivity].
  apply trim_blank in Ht. congruence.
Qed.

(** [convertToLaTeX] on input that is not blank and does not begin with a
    delimiter. *)
Lemma convertToLaTeX_undelimited (input : string) :
  blank input = false -> hasLaTeXDelimiters (trim input) = false ->
  convertToLaTeX input = ("$" ++ substitute (trim input) ++ "$")%string.
Proof.
  intros Hb Hd. unfold convertToLaTeX.
  now rewrite (blank_trim input Hb), Hd.
Qed.

(** X1.  On input that holds neither [^] nor [_], is not blank and does
    not begin with a delimiter, [convertToLaTeX] only trims and wraps:
    the result is the trimmed input between two dollar signs. *)
Theorem convertToLaTeX_without_notation (input : string) :
  containsMathNotation input = false ->
  blank input = false ->
  hasLaTeXDelimiters (trim input) = false ->
  convertToLaTeX input = ("$" ++ trim input ++ "$")%string.
Proof.
  intros Hn Hb Hd. rewrite (convertToLaTeX_undelimited input Hb Hd).
  rewrite substitute_without_notation; [reflexivity|].
  unfold containsMathNotation in *. now apply anyChar_trim.
Qed.

Lemma convertToLaTeX_without_notation_witness :
  convertToLaTeX " \frac{a}{b} " = "$\frac{a}{b}$".
Proof.
  exact (convertToLaTeX_without_notation " \frac{a}{b} " eq_refl eq_refl eq_refl).
Defined.

(** X2.  For every input that is not blank and does not begin with a
    delimiter, whatever else it holds, [stripLatexDelimiters] undoes the
    wrapping of [convertToLaTeX] exactly: the round trip returns the
    trimmed input after the two substitutions. *)
Theorem roundtrip_undelimited (input : string) :
  blank input = false ->
  hasLaTeXDelimiters (trim input) = false ->
  stripLatexDelimiters (convertToLaTeX input) = substitute (trim input).
Proof.
  intros Hb Hd. rewrite (convertToLaTeX_undelimited input Hb Hd).
  destruct (trim_ends input) as [Hh Hl].
  destruct (substitute_notWhite (trim input) Hh Hl) as [Hh' Hl'].
  now apply stripLatexDelimiters_wrapped.
Qed.

Lemma roundtrip_undelimited_witness :
  stripLatexDelimiters (convertToLaTeX "  (a_1^2 + b__c) ^ 2y ")
  = substitute "(a_1^2 + b__c) ^ 2y".
Proof.
  exact (roundtrip_undelimited "  (a_1^2 + b__c) ^ 2y " eq_refl eq_refl).
Defined.

Lemma convertToLaTeX_wrapped (input : string) :
  blank input = false ->
  exists body, convertToLaTeX input = ("$" ++ body ++ "$")%string.
Proof.
  intros Hb. unfold convertToLaTeX. rewrite (blank_trim input Hb). cbn [negb].
  eexists. reflexivity.
Qed.

(** X3.  [convertToLaTeX] returns the empty string exactly on blank input
    (empty, or white space only); on any other input the result begins
    and ends with a dollar sign. *)
Theorem convertToLaTeX_empty_iff_blank (input : string) :
  (convertToLaTeX input = "" <-> blank input = true)
  /\ (blank input = false ->
      exists body, convertToLaTeX input = ("$" ++ body ++ "$")%string).
Proof.
  pose proof (convertToLaTeX_wrapped input) as Hwrapped.
  split; [|exact Hwrapped]. split.
  - intros Hc. destruct (blank input) eqn:Hb; [reflexivity|].
    destruct (Hwrapped eq_refl) as [body Hbody]. rewrite Hbody in Hc. discriminate.
  - intros Hb. apply trim_blank in Hb. unfold convertToLaTeX. now rewrite Hb.
Qed.

Lemma convertToLaTeX_empty_iff_blank_witness :
  convertToLaTeX "   " = ""
  /\ exists body, convertToLaTeX " $ " = ("$" ++ body ++ "$")%string.
Proof.
  split.
  - apply (convertToLaTeX_empty_iff_blank "   "). reflexivity.
  - apply (convertToLaTeX_empty_iff_blank " $ "). reflexivity.
Defined.

Lemma substitute_eraseBraces (s : string) :
  eraseBraces (substitute s) = eraseBraces s.
Proof.
  unfold substitute. now rewrite !replaceAll_eraseBraces by reflexivity.
Qed.

Lemma bracesInserted_refl (s : string) : bracesInserted s s.
Proof.
  induction s as [|c s IH]; [apply inserted_nil | now apply inserted_keep].
Qed.

Lemma bracesInserted_append (a b c d : string) :
  bracesInserted a b -> bracesInserted c d ->
  bracesInserted (a ++ c) (b ++ d).
Proof.
  intros Hab Hcd. induction Hab as [|x a b _ IH | x a b Hx _ IH]; cbn.
  - exact Hcd.
  - now apply inserted_keep.
  - now apply inserted_brace.
Qed.

Lemma bracesInserted_trans (a b c : string) :
  bracesInserted a b -> bracesInserted b c -> bracesInserted a c.
Proof.
  intros Hab Hbc. revert a Hab.
  induction Hbc as [|x b c _ IH | x b c Hx _ IH]; intros a Hab.
  - exact Hab.
  - inversion Hab as [|y a' b' Ha' | y a' b' Hy Ha']; subst.
    + apply inserted_keep. now apply IH.
    + apply inserted_brace; [exact Hy | now apply IH].
  - apply inserted_brace; [exact Hx | now apply IH].
Qed.

(** One pass of the substitution keeps every character and adds braces
    only. *)
Lemma replaceAll_bracesInserted (op : ascii) (s : string) :
  bracesInserted s (replaceAll op s).
Proof.
  apply (replaceAll_cases op bracesInserted).
  - apply inserted_nil.
  - intros s0 b e r out Hm IH.
    destruct (matchAt_sound _ _ _ _ _ Hm) as [Hs _]. rewrite Hs.
    unfold braces. rewrite append_assoc.
    apply bracesInserted_append; [apply bracesInserted_refl|].
    cbn [append]. apply inserted_keep.
    apply inserted_brace; [reflexivity|].
    rewrite append_assoc.
    apply bracesInserted_append; [apply bracesInserted_refl|].
    cbn [append]. apply inserted_brace; [reflexivity | exact IH].
  - intros c t out _ IH. now apply inserted_keep.
Qed.

Lemma substitute_bracesInserted (s : string) : bracesInserted s (substitute s).
Proof.
  unfold substitute.
  apply (bracesInserted_trans s (replaceAll caret s));
    apply replaceAll_bracesInserted.
Qed.

(** X4.  The conversion changes the text by inserting braces and nothing
    else: for input that is not blank and does not begin with a delimiter,
    the result is a body between two dollar signs, and the body is the
    trimmed input with curly braces inserted.  No character of the
    trimmed input is dropped, changed or moved, the braces the user typed
    included, and nothing but braces is added. *)
Theorem convertToLaTeX_only_adds_braces (input : string) :
  blank input = false ->
  hasLaTeXDelimiters (trim input) = false ->
  exists body,
    convertToLaTeX input = ("$" ++ body ++ "$")%string
    /\ bracesInserted (trim input) body.
Proof.
  intros Hb Hd. exists (substitute (trim input)). split.
  - exact (convertToLaTeX_undelimited input Hb Hd).
  - apply substitute_bracesInserted.
Qed.

Lemma convertToLaTeX_only_adds_braces_witness :
  exists body,
    convertToLaTeX " x^2y + {a}_b_c " = ("$" ++ body ++ "$")%string
    /\ bracesInserted "x^2y + {a}_b_c" body.
Proof.
  exact (convertToLaTeX_only_adds_braces " x^2y + {a}_b_c " eq_refl eq_refl).
Defined.

(** X5.  Whatever [stripLatexDelimiters] returns has no white space at
    either end: trimming it again changes nothing. *)
Theorem stripLatexDelimiters_is_trimmed (latex : string) :
  trim (stripLatexDelimiters latex) = stripLatexDelimiters latex.
Proof.
  unfold stripLatexDelimiters.
  repeat match goal with
         | |- context [if ?b then _ else _] => destruct b
         end; apply trim_idempotent.
Qed.

End ConverterExtras.

(** ** Converting what is already converted *)

Section ReconversionFacts.
Import JsString MathParser Notation.

Lemma group2_stuck (c : ascii) (rest : string) :
  isWordChar c = false -> group2 (String c rest) = None.
Proof.
  intros Hc. unfold group2. cbn.
  now rewrite (digit_wordChar c Hc), Hc.
Qed.

(** No match starts in a word that is followed by the operator and then a
    character that cannot begin an exponent. *)
Lemma matchAt_blocked (op : ascii) (w : string) (c : ascii) (rest : string) :
  allChars (runChar op) w = true ->
  isWordChar c = false -> Ascii.eqb c op = false ->
  matchAt op (w ++ String op (String c rest)) = None.
Proof.
  intros Hw Hc Hne. induction w as [|d w IH].
  - cbn [append]. rewrite matchAt_cons.
    destruct (isWordChar op); [|reflexivity].
    rewrite (matchAt_cons op c rest), Hc, Hne. reflexivity.
  - cbn in Hw. apply andb_true_iff in Hw as [Hd Hw].
    unfold runChar in Hd. apply andb_true_iff in Hd as [Hd _].
    cbn [append]. rewrite matchAt_cons, Hd, (IH Hw).
    destruct w as [|d' w].
    + cbn [append]. now rewrite Ascii.eqb_refl, (group2_stuck c rest Hc).
    + cbn [append]. cbn in Hw. apply andb_true_iff in Hw as [Hd' _].
      unfold runChar in Hd'. apply andb_true_iff in Hd' as [_ Hd'].
      rewrite negb_true_iff in Hd'. now rewrite Hd'.
Qed.

Lemma replaceAll_blocked (op : ascii) (w : string) (c : ascii) (rest : string) :
  allChars (runChar op) w = true ->
  isWordChar c = false -> Ascii.eqb c op = false ->
  replaceAll op (w ++ String op (String c rest)) =
  (w ++ String op (String c (replaceAll op rest)))%string.
Proof.
  intros Hw Hc Hne. induction w as [|d w IH].
  - cbn [append].
    rewrite (replaceAll_step op op (String c rest)
               (matchAt_blocked op "" c rest eq_refl Hc Hne)).
    now rewrite (replaceAll_other op c rest Hc).
  - pose proof (matchAt_blocked op (String d w) c rest Hw Hc Hne) as Hnone.
    cbn [append] in *. rewrite (replaceAll_step _ _ _ Hnone).
    cbn in Hw. apply andb_true_iff in Hw as [_ Hw]. now rewrite (IH Hw).
Qed.

(** Either substitution leaves a braced term as it is. *)
Lemma braced_pass_term (op : ascii) (t : Term) (rest : string) :
  op = caret \/ op = underscore ->
  plainTerm t = true -> quiet op rest = true ->
  replaceAll op (braced t ++ rest) = (braced t ++ replaceAll op rest)%string.
Proof.
  intros Hop Ht Hq. destruct t as [w | b e | b e]; cbn [braced plainTerm] in *.
  - apply replaceAll_run; [|exact Hq]. now apply alnumRun_runChar.
  - apply andb_true_iff in Ht as [Hb He]. apply wholeIndex_alnumRun in He.
    unfold braces. rewrite !append_assoc. cbn [append].
    destruct Hop as [-> | ->].
    + rewrite replaceAll_blocked;
        [|apply alnumRun_runChar; auto|reflexivity|reflexivity].
      rewrite !append_assoc.
      rewrite replaceAll_run; [|apply alnumRun_runChar; auto|reflexivity].
      cbn [append]. now rewrite replaceAll_other by reflexivity.
    + rewrite replaceAll_run; [|apply alnumRun_runChar; auto|reflexivity].
      rewrite !replaceAll_other by reflexivity.
      rewrite !append_assoc.
      rewrite replaceAll_run; [|apply alnumRun_runChar; auto|reflexivity].
      cbn [append]. now rewrite replaceAll_other by reflexivity.
  - apply andb_true_iff in Ht as [Hb He]. apply wholeIndex_alnumRun in He.
    unfold braces. rewrite !append_assoc. cbn [append].
    destruct Hop as [-> | ->].
    + change (b ++ String underscore (String "{" ((e ++ "}") ++ rest)))%string
        with (b ++ String underscore "" ++ String "{" ((e ++ "}") ++ rest))%string.
      rewrite <- append_assoc.
      rewrite replaceAll_run.
      * rewrite replaceAll_other by reflexivity.
        rewrite !append_assoc.
        rewrite replaceAll_run; [|apply alnumRun_runChar; auto|reflexivity].
        cbn [append]. rewrite replaceAll_other by reflexivity.
        now rewrite ?append_assoc.
      * rewrite allChars_append, (alnumRun_runChar caret b); auto.
      * reflexivity.
    + rewrite replaceAll_blocked;
        [|apply alnumRun_runChar; auto|reflexivity|reflexivity].
      rewrite !append_assoc.
      rewrite replaceAll_run; [|apply alnumRun_runChar; auto|reflexivity].
      cbn [append]. now rewrite replaceAll_other by reflexivity.
Qed.

(** The two substitutions leave a braced form as it is. *)
Lemma substitute_bracedForm (i : Input) :
  wellFormed i = true -> substitute (bracedForm i) = bracedForm i.
Proof.
  intros Hwf. unfold substitute, bracedForm.
  rewrite (pass_render caret braced braced i); auto using braced_pass_term.
  apply pass_render; auto using braced_pass_term.
Qed.

End ReconversionFacts.

Section EditorFacts.
Import JsString MathParser Notation Katex.

Lemma joinWith_ends (f : Term -> string) (rest : list (string * Term)) :
  (forall t, plainTerm t = true -> f t <> "") ->
  forallb (fun st => isSeparator (fst st) && plainTerm (snd st)) rest = true ->
  rest <> [] ->
  joinWith f rest <> ""
  /\ exists t, plainTerm t = true /\ lastChar (joinWith f rest) = lastChar (f t).
Proof.
  intros Hf. induction rest as [|[sep t] rest IH]; [congruence|].
  cbn [forallb joinWith fst snd]. intros H _.
  apply andb_true_iff in H as [Hst Hrest].
  apply andb_true_iff in Hst as [_ Ht].
  pose proof (Hf t Ht) as Hne.
  destruct rest as [|st rest].
  - cbn [joinWith]. rewrite append_nil_r. split.
    + destruct sep; cbn; [exact Hne | discriminate].
    + exists t. split; [exact Ht|]. now rewrite lastChar_append.
  - destruct (IH Hrest ltac:(discriminate)) as [IHne [t' [Ht' IHl]]].
    assert (Hne' : (f t ++ joinWith f (st :: rest))%string <> "").
    { destruct (f t); [congruence | discriminate]. }
    split.
    + destruct sep; cbn [append]; [exact Hne' | discriminate].
    + exists t'. split; [exact Ht'|].
      rewrite lastChar_append by exact Hne'. now rewrite lastChar_append.
Qed.

Lemma braced_last (t : Term) :
  plainTerm t = true ->
  exists c, lastChar (braced t) = Some c /\ (isAlnum c = true \/ c = "}"%char).
Proof.
  destruct t as [w | b e | b e]; cbn [plainTerm braced]; intros H.
  - apply alnumRun_parts in H as [Hne Hall].
    destruct (lastChar w) as [c|] eqn:Hl.
    + exists c. split; [reflexivity|]. left.
      exact (allChars_last isAlnum w c Hall Hl).
    + destruct w as [|d w]; [discriminate|]. exfalso.
      clear Hne Hall. revert d Hl. induction w as [|d' w IH]; intros d Hl.
      * discriminate.
      * exact (IH d' Hl).
  - exists "}"%char. split; [|now right]. unfold braces.
    change (b ++ String caret ("{" ++ e ++ "}"))%string
      with (b ++ (String caret "{" ++ e) ++ "}")%string.
    rewrite <- !append_assoc. now rewrite lastChar_append by discriminate.
  - exists "}"%char. split; [|now right]. unfold braces.
    change (b ++ String underscore ("{" ++ e ++ "}"))%string
      with (b ++ (String underscore "{" ++ e) ++ "}")%string.
    rewrite <- !append_assoc. now rewrite lastChar_append by discriminate.
Qed.

(** The braced form of a well-formed input begins with a letter or a digit
    and ends with a letter, a digit or a closing brace. *)
Lemma tidy_bracedForm (i : Input) : wellFormed i = true -> tidy (bracedForm i).
Proof.
  intros Hwf. split.
  - now destruct (solid_render braced i solid_braced Hwf).
  - unfold wellFormed, wellFormedWith in Hwf.
    apply andb_true_iff in Hwf as [Hfirst Hrest].
    unfold bracedForm, render.
    assert (Hne : forall t, plainTerm t = true -> braced t <> "").
    { intros t Ht. apply solid_nonEmpty. now apply solid_braced. }
    destruct (snd i) as [|st rest] eqn:Hsnd.
    + cbn [joinWith]. rewrite append_nil_r. now apply braced_last.
    + destruct (joinWith_ends braced (st :: rest) Hne Hrest ltac:(discriminate))
        as [Hjoin [t [Ht Hl]]].
      rewrite lastChar_append by exact Hjoin. rewrite Hl. now apply braced_last.
Qed.

Lemma tidy_solid (s : string) : tidy s -> solid s.
Proof.
  intros [Hh [c [Hc Hkind]]]. split; [exact Hh|].
  intros d Hd. rewrite Hc in Hd. inversion Hd; subst d.
  destruct Hkind as [Hal | ->]; [now apply alnum_notWhite | reflexivity].
Qed.

Lemma startsWith_other (s p : string) (c d : ascii) :
  headChar s = Some c -> headChar p = Some d -> c <> d -> startsWith s p = false.
Proof.
  unfold startsWith. destruct s as [|c' s]; [discriminate|].
  destruct p as [|d' p]; [discriminate|].
  cbn. intros Hc Hd Hne. inversion Hc; inversion Hd; subst.
  destruct (ascii_dec d c); [congruence | reflexivity].
Qed.

Lemma endsWith_other (s p : string) (c d : ascii) :
  lastChar s = Some c -> lastChar p = Some d -> c <> d -> endsWith s p = false.
Proof.
  unfold endsWith. rewrite <- !headChar_rev. apply startsWith_other.
Qed.

Lemma removeEnds_untouched (opening closing s : string) :
  startsWith s opening = false -> endsWith s closing = false ->
  removeEnds opening closing s = s.
Proof.
  intros Ho Hc. unfold removeEnds. now rewrite Ho, Hc.
Qed.

Lemma drop_append (a s : string) : drop (String.length a) (a ++ s) = s.
Proof.
  induction a as [|x a IH]; cbn; [now destruct s | exact IH].
Qed.

(** The pattern [/^\$|\$$/g] removes the dollar signs around a body. *)
Lemma removeEnds_dollars (body : string) :
  removeEnds "$" "$" ("$" ++ body ++ "$") = body.
Proof.
  unfold removeEnds.
  rewrite (startsWith_append "$" (body ++ "$")).
  change (drop (String.length "$") ("$" ++ body ++ "$")) with (body ++ "$")%string.
  rewrite endsWith_append. unfold dropEnd.
  rewrite rev_append.
  change (drop (String.length "$") (rev "$" ++ rev body)) with (rev body).
  apply rev_involutive.
Qed.

Lemma alnum_or_brace_not_closer (c : ascii) :
  isAlnum c = true \/ c = "}"%char -> c <> ")"%char /\ c <> "]"%char.
Proof.
  intros [H | ->]; [|split; discriminate].
  split; intros ->; discriminate.
Qed.

(** Neither of the two other delimiter patterns touches a tidy string. *)
Lemma removeEnds_tidy (s : string) :
  tidy s ->
  removeEnds "\(" "\)" s = s /\ removeEnds "\[" "\]" s = s.
Proof.
  intros [[c [Hc Hal]] [d [Hd Hkind]]].
  destruct (alnum_or_brace_not_closer d Hkind) as [Hparen Hbracket].
  assert (Hhead : c <> "\"%char) by (intros ->; discriminate).
  split; apply removeEnds_untouched.
  - exact (startsWith_other s "\(" c "\"%char Hc eq_refl Hhead).
  - exact (endsWith_other s "\)" d ")"%char Hd eq_refl Hparen).
  - exact (startsWith_other s "\[" c "\"%char Hc eq_refl Hhead).
  - exact (endsWith_other s "\]" d "]"%char Hd eq_refl Hbracket).
Qed.

Lemma convertToLaTeX_shorthand (i : Input) :
  wellFormed i = true ->
  convertToLaTeX (shorthand i) = ("$" ++ bracedForm i ++ "$")%string.
Proof.
  intros Hwf. rewrite convertToLaTeX_solid.
  - now rewrite substitute_shorthand.
  - apply solid_render; [exact solid_written | exact Hwf].
Qed.

Lemma convertToLaTeX_bracedForm (i : Input) :
  wellFormed i = true ->
  convertToLaTeX (bracedForm i) = ("$" ++ bracedForm i ++ "$")%string.
Proof.
  intros Hwf. rewrite convertToLaTeX_solid.
  - now rewrite substitute_bracedForm.
  - apply tidy_solid. now apply tidy_bracedForm.
Qed.

Lemma trim_wrapped (body : string) :
  trim ("$" ++ body ++ "$") = ("$" ++ body ++ "$")%string.
Proof.
  apply trim_fixed.
  - intros c Hc. inversion Hc. reflexivity.
  - change ("$" ++ body ++ "$")%string with (("$" ++ body) ++ "$")%string.
    rewrite lastChar_append by discriminate. intros c Hc. inversion Hc. reflexivity.
Qed.

(** X6.  Converting twice is converting once on well-formed shorthand:
    [convertToLaTeX] applied to its own result returns that result. *)
Theorem convertToLaTeX_idempotent_on_shorthand (i : Input) :
  wellFormed i = true ->
  convertToLaTeX (convertToLaTeX (shorthand i)) = convertToLaTeX (shorthand i).
Proof.
  intros Hwf. rewrite (convertToLaTeX_shorthand i Hwf).
  unfold convertToLaTeX at 1. rewrite trim_wrapped.
  change (nonEmpty ("$" ++ bracedForm i ++ "$")) with true.
  unfold hasLaTeXDelimiters.
  rewrite (startsWith_append "$" (bracedForm i ++ "$")).
  cbn [negb orb]. rewrite removeEnds_dollars.
  destruct (removeEnds_tidy (bracedForm i) (tidy_bracedForm i Hwf)) as [Hp Hb].
  now rewrite Hp, Hb, substitute_bracedForm.
Qed.

Lemma convertToLaTeX_idempotent_on_shorthand_witness :
  convertToLaTeX (convertToLaTeX "x^2 + y_ab") = convertToLaTeX "x^2 + y_ab".
Proof.
  exact (convertToLaTeX_idempotent_on_shorthand
           (Sup "x" "2", [(" + ", Sub "y" "ab")]) eq_refl).
Defined.

(** Outside that class a second conversion can change the result. *)
Lemma convertToLaTeX_not_idempotent :
  convertToLaTeX "a\)" = "$a\)$"
  /\ convertToLaTeX (convertToLaTeX "a\)") = "$a$".
Proof.
  split; reflexivity.
Qed.

(** X7.  [handleSave] never hands a blank expression to [onSave].  On
    blank input it calls nothing and sets the error
    ['Math expression cannot be empty']; on any other input it clears the
    error and calls [onSave] once, with the converted input, and the block
    updated with it is rendered as math by [component], never as the
    placeholder, whatever the renderer does. *)
Theorem handleSave_never_saves_blank
        (renderToString : string -> bool -> Rendering)
        (st : MathEditor.State) (p : MathBlockShape.Props) :
  (blank (MathEditor.input st) = true ->
   MathEditor.handleSave st =
   (MathEditor.mkState (MathEditor.input st) (MathEditor.displayMode st)
                       (Some "Math expression cannot be empty"), []))
  /\ (blank (MathEditor.input st) = false ->
      MathEditor.handleSave st =
      (MathEditor.mkState (MathEditor.input st) (MathEditor.displayMode st) None,
       [MathEditor.OnSave (convertToLaTeX (MathEditor.input st))
                          (MathEditor.displayMode st)])
      /\ blank (convertToLaTeX (MathEditor.input st)) = false
      /\ exists html justify width height,
          MathBlockShape.component renderToString
            (Some (MathBlockShape.applyCalls p (snd (MathEditor.handleSave st))))
          = MathBlockShape.MathView html justify width height).
Proof.
  split.
  - intros Hb. unfold MathEditor.handleSave.
    apply trim_blank in Hb. now rewrite Hb.
  - intros Hb.
    assert (Hsave : MathEditor.handleSave st =
                    (MathEditor.mkState (MathEditor.input st)
                                        (MathEditor.displayMode st) None,
                     [MathEditor.OnSave (convertToLaTeX (MathEditor.input st))
                                        (MathEditor.displayMode st)])).
    { unfold MathEditor.handleSave. now rewrite (blank_trim _ Hb). }
    destruct (convertToLaTeX_wrapped (MathEditor.input st) Hb) as [body Hbody].
    assert (Hnb : blank (convertToLaTeX (MathEditor.input st)) = false).
    { rewrite Hbody. reflexivity. }
    split; [exact Hsave|]. split; [exact Hnb|].
    rewrite Hsave. cbn [snd MathBlockShape.applyCalls fold_left MathBlockShape.applyCall].
    unfold MathBlockShape.component. cbn [MathBlockShape.latex].
    rewrite (blank_trim _ Hnb). cbn [negb]. do 4 eexists. reflexivity.
Qed.

End EditorFacts.

Section BoardFacts.
Import JsString MathParser Notation Katex.

Lemma handleSave_never_saves_blank_witness :
  snd (MathEditor.handleSave (MathEditor.mkState "   " true None)) = []
  /\ snd (MathEditor.handleSave (MathEditor.mkState " x^2 " true None))
     = [MathEditor.OnSave "$x^{2}$" true].
Proof.
  destruct (handleSave_never_saves_blank
              (fun _ _ => Throws None) (MathEditor.mkState "   " true None)
              MathBlockShape.getDefaultProps) as [Hblank _].
  destruct (handleSave_never_saves_blank
              (fun _ _ => Throws None) (MathEditor.mkState " x^2 " true None)
              MathBlockShape.getDefaultProps) as [_ Hsave].
  rewrite (Hblank eq_refl). destruct (Hsave eq_refl) as [-> _].
  split; reflexivity.
Defined.

Lemma handleSave_saves (st : MathEditor.State) :
  blank (MathEditor.input st) = false ->
  snd (MathEditor.handleSave st)
  = [MathEditor.OnSave (convertToLaTeX (MathEditor.input st))
                       (MathEditor.displayMode st)].
Proof.
  intros Hb. unfold MathEditor.handleSave. now rewrite (blank_trim _ Hb).
Qed.

Lemma solid_not_blank (s : string) : solid s -> blank s = false.
Proof.
  intros [[c [Hc Hal]] _]. destruct s as [|d s]; [discriminate|].
  cbn in Hc. inversion Hc; subst d. unfold blank. cbn.
  now rewrite (alnum_notWhite c Hal).
Qed.

Lemma applyCalls_save (p : MathBlockShape.Props) (st : MathEditor.State) :
  blank (MathEditor.input st) = false ->
  MathBlockShape.applyCalls p (snd (MathEditor.handleSave st))
  = MathBlockShape.mkProps (convertToLaTeX (MathEditor.input st))
                           (MathEditor.displayMode st)
                           (MathBlockShape.w p) (MathBlockShape.h p).
Proof.
  intros Hb. now rewrite (handleSave_saves st Hb).
Qed.

(** X8.  A math block saved from well-formed shorthand is stable under
    editing: the block then holds the braced form between dollar signs,
    and opening the editor on it and saving without a change gives back the
    very same block. *)
Theorem reopen_and_save_keeps_block (p : MathBlockShape.Props) (i : Input) :
  wellFormed i = true ->
  let saved :=
    MathBlockShape.applyCalls p
      (snd (MathEditor.handleSave
              (MathEditor.setInput (shorthand i) (MathBlockShape.openEditor p)))) in
  MathBlockShape.latex saved = ("$" ++ bracedForm i ++ "$")%string
  /\ MathBlockShape.applyCalls saved
       (snd (MathEditor.handleSave (MathBlockShape.openEditor saved)))
     = saved.
Proof.
  intros Hwf saved.
  assert (Hsaved : saved = MathBlockShape.mkProps ("$" ++ bracedForm i ++ "$")
                                                  (MathBlockShape.displayMode p)
                                                  (MathBlockShape.w p)
                                                  (MathBlockShape.h p)).
  { unfold saved. rewrite applyCalls_save.
    - cbn. now rewrite (convertToLaTeX_shorthand i Hwf).
    - cbn. apply solid_not_blank. exact (solid_render written i solid_written Hwf). }
  rewrite Hsaved. split; [reflexivity|].
  assert (Hinput : MathEditor.input
                     (MathBlockShape.openEditor
                        (MathBlockShape.mkProps ("$" ++ bracedForm i ++ "$")
                                                (MathBlockShape.displayMode p)
                                                (MathBlockShape.w p)
                                                (MathBlockShape.h p)))
                   = bracedForm i).
  { exact (removeEnds_dollars (bracedForm i)). }
  rewrite applyCalls_save; rewrite Hinput.
  - now rewrite (convertToLaTeX_bracedForm i Hwf).
  - apply solid_not_blank, tidy_solid. now apply tidy_bracedForm.
Qed.

Lemma reopen_and_save_keeps_block_witness :
  MathBlockShape.applyCalls
    (MathBlockShape.mkProps "$x^{2} + y_{ab}$" false (Some 200) (Some 50))
    (snd (MathEditor.handleSave
            (MathBlockShape.openEditor
               (MathBlockShape.mkProps "$x^{2} + y_{ab}$" false (Some 200) (Some 50)))))
  = MathBlockShape.mkProps "$x^{2} + y_{ab}$" false (Some 200) (Some 50).
Proof.
  destruct (reopen_and_save_keeps_block
              MathBlockShape.getDefaultProps
              (Sup "x" "2", [(" + ", Sub "y" "ab")]) eq_refl) as [_ H].
  exact H.
Defined.

(** X9.  What the editor previews is what the board shows: when the
    input is not blank, the source left by [stripLatexDelimiters] is not
    empty and the renderer returns markup for it, the preview is that
    markup, with no error, and the block updated by [handleSave] is
    rendered with the same markup. *)
Theorem preview_is_what_the_block_shows
        (renderToString : string -> bool -> Rendering)
        (st : MathEditor.State) (p : MathBlockShape.Props) (html : string) :
  blank (MathEditor.input st) = false ->
  stripLatexDelimiters (MathEditor.latex st) <> "" ->
  renderToString (stripLatexDelimiters (MathEditor.latex st))
                 (MathEditor.displayMode st) = Html html ->
  MathEditor.preview renderToString st = (html, None)
  /\ MathBlockShape.component renderToString
       (Some (MathBlockShape.applyCalls p (snd (MathEditor.handleSave st))))
     = MathBlockShape.MathView
         html
         (if MathEditor.displayMode st then "center" else "flex-start")
         (match MathBlockShape.w p with Some n => n | None => 200 end)
         (match MathBlockShape.h p with Some n => n | None => 50 end).
Proof.
  intros Hb Hraw Hrender. split.
  - unfold MathEditor.preview.
    destruct (stripLatexDelimiters (MathEditor.latex st)) eqn:Hs; [congruence|].
    cbn [nonEmpty]. now rewrite Hrender.
  - rewrite (applyCalls_save p st Hb).
    destruct (convertToLaTeX_wrapped (MathEditor.input st) Hb) as [body Hbody].
    unfold MathBlockShape.component.
    cbn [MathBlockShape.latex MathBlockShape.displayMode
         MathBlockShape.w MathBlockShape.h].
    assert (Hnb : nonEmpty (trim (convertToLaTeX (MathEditor.input st))) = true).
    { apply blank_trim. rewrite Hbody. reflexivity. }
    rewrite Hnb. cbn [negb]. unfold MathEditor.latex in Hrender.
    now rewrite Hrender.
Qed.

Lemma preview_is_what_the_block_shows_witness :
  MathEditor.preview (fun src _ => Html ("<" ++ src ++ ">"))
                     (MathEditor.mkState "x^2" false None)
  = ("<x^{2}>", None).
Proof.
  destruct (preview_is_what_the_block_shows
              (fun src _ => Html ("<" ++ src ++ ">"))
              (MathEditor.mkState "x^2" false None)
              MathBlockShape.getDefaultProps "<x^{2}>"
              eq_refl ltac:(discriminate) eq_refl) as [H _].
  exact H.
Defined.

End BoardFacts.

(** ** Runs of the session hook *)

Section SessionRunFacts.
Import Json RealtimeTutor Session.

Lemma trace_emit (e : Effect) (h : Hook) : trace (emit e h) = trace h ++ [e].
Proof.
  reflexivity.
Qed.

(** What one server event does to the trace: nothing, or one call of
    [onError], and that for an [error] event only. *)
Lemma handleServerEvent_trace (ev : ServerEvent) (h : Hook) :
  trace (handleServerEvent ev h) = trace h
  \/ (type ev = "error"
      /\ exists m, trace (handleServerEvent ev h) = trace h ++ [OnError m]).
Proof.
  unfold handleServerEvent, callOnError.
  repeat match goal with
         | |- context [if String.eqb ?a ?b then _ else _] =>
             destruct (String.eqb_spec a b)
         | |- context [if ?b then _ else _] => destruct b eqn:?
         end; cbn; try (left; reflexivity).
  right. split; [assumption|]. eexists. reflexivity.
Qed.

Lemma filter_onWire_snoc_error (l : list Effect) (m : string) :
  filter onWire (l ++ [OnError m]) = filter onWire l.
Proof.
  rewrite filter_app. cbn. apply app_nil_r.
Qed.

Lemma handleServerEvent_wire (ev : ServerEvent) (h : Hook) :
  filter onWire (trace (handleServerEvent ev h)) = filter onWire (trace h).
Proof.
  destruct (handleServerEvent_trace ev h) as [-> | [_ [m ->]]];
    [reflexivity | apply filter_onWire_snoc_error].
Qed.

(** X10.  No server event, of any kind and with any payload, makes the
    hook send a frame or close the channel or the peer connection; the
    only call an event can cause is [onError], and only an [error] event
    causes it. *)
Theorem events_never_reach_the_wire (ev : ServerEvent) (h : Hook) :
  filter onWire (trace (handleServerEvent ev h)) = filter onWire (trace h)
  /\ (type ev <> "error" -> trace (handleServerEvent ev h) = trace h).
Proof.
  split; [apply handleServerEvent_wire|].
  intros Hne. destruct (handleServerEvent_trace ev h) as [H | [Hty _]];
    [exact H | congruence].
Qed.

Lemma events_never_reach_the_wire_witness :
  trace (handleServerEvent (mkEvent "response.done" (Some "x") None) liveHook)
  = trace liveHook.
Proof.
  apply (events_never_reach_the_wire (mkEvent "response.done" (Some "x") None) liveHook).
  discriminate.
Defined.

(** X11.  An event whose [type] is none of the ten [case] labels is
    ignored: the hook is left exactly as it was. *)
Theorem unknown_event_is_ignored (ev : ServerEvent) (h : Hook) :
  ~ In (type ev) knownTypes -> handleServerEvent ev h = h.
Proof.
  intros Hnot. unfold handleServerEvent.
  repeat match goal with
         | |- context [String.eqb ?a ?b] =>
             destruct (String.eqb_spec a b) as [Heq | _];
             [exfalso; apply Hnot; rewrite Heq; unfold knownTypes; cbn; tauto|]
         end.
  reflexivity.
Qed.

Lemma unknown_event_is_ignored_witness :
  handleServerEvent (mkEvent "rate_limits.updated" (Some "x") None) liveHook = liveHook.
Proof.
  apply unknown_event_is_ignored. unfold knownTypes. cbn.
  intros H. repeat (destruct H as [H | H]; [discriminate|]). exact H.
Defined.

Lemma receiveAll_app (a b : list ServerEvent) (h : Hook) :
  receiveAll (a ++ b) h = receiveAll b (receiveAll a h).
Proof.
  unfold receiveAll. apply fold_left_app.
Qed.

(** What one event other than [response.created] does to the
    transcript. *)
Lemma handleServerEvent_transcript (ev : ServerEvent) (h : Hook) :
  isResponseCreated ev = false ->
  transcript (handleServerEvent ev h) =
  (if isDelta ev then transcript h ++ orElse (delta ev) "" else transcript h)%string.
Proof.
  unfold isResponseCreated, isDelta. intros Hc.
  destruct (type ev =? "response.output_audio_transcript.delta")%string eqn:Hd.
  - apply String.eqb_eq in Hd. unfold handleServerEvent. rewrite Hd. reflexivity.
  - unfold handleServerEvent, callOnError. rewrite Hc, Hd.
    repeat match goal with
           | |- context [if ?b then _ else _] => destruct b
           end; reflexivity.
Qed.

Lemma receiveAll_transcript (events : list ServerEvent) (h : Hook) :
  forallb (fun ev => negb (isResponseCreated ev)) events = true ->
  transcript (receiveAll events h) = (transcript h ++ fragments events)%string.
Proof.
  revert h. induction events as [|ev events IH]; intros h; cbn [forallb fragments].
  - intros _. cbn. now rewrite append_nil_r.
  - intros H. apply andb_true_iff in H as [Hev Hrest].
    rewrite negb_true_iff in Hev.
    change (receiveAll (ev :: events) h)
      with (receiveAll events (handleServerEvent ev h)).
    rewrite (IH _ Hrest), (handleServerEvent_transcript ev h Hev).
    destruct (isDelta ev); [now rewrite append_assoc | reflexivity].
Qed.

(** X12.  Whatever events came before, and whatever other events are
    mixed in, the transcript is the concatenation, in order of arrival, of
    the [delta]s received since the last [response.created]. *)
Theorem transcript_is_fragments_since_last_response
        (before after : list ServerEvent) (created : ServerEvent) (h : Hook) :
  isResponseCreated created = true ->
  forallb (fun ev => negb (isResponseCreated ev)) after = true ->
  transcript (receiveAll (before ++ created :: after) h) = fragments after.
Proof.
  intros Hc Hafter. rewrite receiveAll_app.
  change (receiveAll (created :: after) (receiveAll before h))
    with (receiveAll after (handleServerEvent created (receiveAll before h))).
  rewrite (receiveAll_transcript after _ Hafter).
  unfold isResponseCreated in Hc. apply String.eqb_eq in Hc.
  unfold handleServerEvent at 1. rewrite Hc. reflexivity.
Qed.

Lemma transcript_is_fragments_since_last_response_witness :
  transcript
    (receiveAll
       ([mkEvent "response.output_audio_transcript.delta" (Some "old") None]
        ++ mkEvent "response.created" None None
        :: [mkEvent "response.output_audio_transcript.delta" (Some "The") None;
            mkEvent "response.output_audio.delta" None None;
            mkEvent "response.output_audio_transcript.delta" (Some " answer") None;
            mkEvent "response.output_audio_transcript.delta" None None;
            mkEvent "response.done" None None])
       liveHook)
  = "The answer".
Proof.
  exact (transcript_is_fragments_since_last_response
           [mkEvent "response.output_audio_transcript.delta" (Some "old") None]
           [mkEvent "response.output_audio_transcript.delta" (Some "The") None;
            mkEvent "response.output_audio.delta" None None;
            mkEvent "response.output_audio_transcript.delta" (Some " answer") None;
            mkEvent "response.output_audio_transcript.delta" None None;
            mkEvent "response.done" None None]
           (mkEvent "response.created" None None) liveHook eq_refl eq_refl).
Defined.

End SessionRunFacts.

Section SessionWireFacts.
Import Json RealtimeTutor Session.

Lemma released_channelOpen (h : Hook) : released h -> channelOpen h = false.
Proof.
  intros [Hdc _]. unfold channelOpen. now rewrite Hdc.
Qed.

Lemma disconnect_released_trace (h : Hook) :
  released h -> trace (disconnect h) = trace h.
Proof.
  intros [Hdc Hpc]. unfold disconnect. rewrite Hdc, Hpc.
  destruct (audioRef h); reflexivity.
Qed.

(** With both refs empty, no operation fills them or reaches the wire. *)
Lemma perform_released (op : Operation) (h : Hook) :
  released h ->
  released (perform op h)
  /\ filter onWire (trace (perform op h)) = filter onWire (trace h).
Proof.
  intros Hrel. pose proof (released_channelOpen h Hrel) as Hclosed.
  destruct op as [ev | text | b m | text b m | |]; cbn [perform].
  - destruct (handleServerEvent_frame ev h) as [Hpc [Hdc _]].
    destruct Hrel as [Hd Hp]. split; [split; congruence|].
    apply handleServerEvent_wire.
  - unfold sendText. now rewrite (sendContent_closed _ h Hclosed).
  - unfold sendImage. now rewrite (sendContent_closed _ h Hclosed).
  - unfold sendTextWithImage. now rewrite (sendContent_closed _ h Hclosed).
  - split; [exact Hrel | reflexivity].
  - destruct (disconnect_releases h) as [Hdc [Hpc _]].
    split; [split; assumption|]. now rewrite (disconnect_released_trace h Hrel).
Qed.

Lemma performAll_released (ops : list Operation) (h : Hook) :
  released h ->
  released (performAll ops h)
  /\ filter onWire (trace (performAll ops h)) = filter onWire (trace h).
Proof.
  revert h. induction ops as [|op ops IH]; intros h Hrel.
  - split; [exact Hrel | reflexivity].
  - change (performAll (op :: ops) h) with (performAll ops (perform op h)).
    destruct (perform_released op h Hrel) as [Hrel' Hwire].
    destruct (IH _ Hrel') as [Hfinal Hwire'].
    split; [exact Hfinal | congruence].
Qed.

(** X13.  After [disconnect] nothing reaches the wire any more: whatever
    server events, send operations, [open] events and further
    [disconnect]s follow, in any number and order, no frame is sent and
    nothing is closed again, and the three send operations stay without
    effect. *)
Theorem nothing_on_the_wire_after_disconnect (ops : list Operation) (h : Hook) :
  let after := performAll ops (disconnect h) in
  filter onWire (trace after) = filter onWire (trace (disconnect h))
  /\ dcRef after = None /\ pcRef after = None
  /\ (forall text, sendText text after = after)
  /\ (forall base64Data mimeType, sendImage base64Data mimeType after = after)
  /\ (forall text base64Data mimeType,
         sendTextWithImage text base64Data mimeType after = after).
Proof.
  intros after.
  assert (Hrel : released (disconnect h)).
  { destruct (disconnect_releases h) as [Hdc [Hpc _]]. now split. }
  destruct (performAll_released ops _ Hrel) as [Hafter Hwire].
  pose proof (released_channelOpen _ Hafter) as Hclosed.
  destruct Hafter as [Hdc Hpc].
  unfold sendText, sendImage, sendTextWithImage.
  repeat split; try assumption; intros; now apply sendContent_closed.
Qed.

(** What [disconnect] itself puts on the wire: [close] on the channel if
    one is held, then [close] on the peer connection if one is held. *)
Lemma disconnect_trace (h : Hook) :
  trace (disconnect h) =
  trace h
  ++ (match dcRef h with Some _ => [ChannelClose] | None => [] end)
  ++ (match pcRef h with Some _ => [PeerClose] | None => [] end).
Proof.
  destruct h as [st con tr [pc|] [dc|] [au|] cb tc]; cbn;
    rewrite <- ?app_assoc, ?app_nil_r; reflexivity.
Qed.

Lemma sendAll_cons (content : list JSON) (contents : list (list JSON)) (h : Hook) :
  sendAll (content :: contents) h = sendAll contents (sendContent content h).
Proof.
  reflexivity.
Qed.

Lemma sendContent_stays_open (content : list JSON) (h : Hook) :
  channelOpen h = true -> channelOpen (sendContent content h) = true.
Proof.
  intros Hopen. unfold channelOpen.
  destruct (sendContent_frame content h) as [_ [Hdc _]]. now rewrite Hdc.
Qed.

(** X14.  Messages sent one after the other on an open channel put their
    frames on the channel in program order: for each message its
    [conversation.item.create] frame and then its [response.create]
    frame, with nothing dropped, merged or reordered; the channel stays
    open throughout. *)
Theorem frames_keep_program_order (contents : list (list JSON)) (h : Hook) :
  channelOpen h = true ->
  trace (sendAll contents h) = trace h ++ flat_map framesOf contents
  /\ channelOpen (sendAll contents h) = true.
Proof.
  revert h. induction contents as [|content contents IH]; intros h Hopen.
  - cbn. now rewrite app_nil_r.
  - rewrite sendAll_cons.
    assert (Hopen' : channelOpen (sendContent content h) = true).
    { unfold channelOpen.
      destruct (sendContent_frame content h) as [_ [Hdc _]]. now rewrite Hdc. }
    destruct (IH _ Hopen') as [Htrace Hfinal]. split; [|exact Hfinal].
    rewrite Htrace, (sendContent_open content h Hopen). cbn [trace flat_map].
    unfold framesOf at 2. now rewrite <- app_assoc.
Qed.

Lemma frames_keep_program_order_witness :
  trace (sendAll [[inputText "a"]; [inputText "b"]] liveHook)
  = framesOf [inputText "a"] ++ framesOf [inputText "b"].
Proof.
  destruct (frames_keep_program_order [[inputText "a"]; [inputText "b"]] liveHook eq_refl)
    as [H _].
  rewrite H. reflexivity.
Defined.

Lemma replace_at_start (pattern replacement s : string) :
  JsString.replace pattern replacement (pattern ++ s) = (replacement ++ s)%string.
Proof.
  destruct (pattern ++ s)%string eqn:Hs.
  - destruct pattern; [|discriminate]. cbn in Hs. subst. reflexivity.
  - cbn [JsString.replace]. rewrite <- Hs, prefix_append.
    now rewrite drop_append.
Qed.

(** X15.  For a media type of the form [image/...], the image part a
    send operation builds carries the data URL of that very media type:
    [data:] followed by the media type, [;base64,] and the payload. *)
Theorem inputImage_data_url (base64Data format : string) :
  inputImage base64Data ("image/" ++ format) =
  JObject [("type", JString "input_image");
           ("image_url",
            JString (FileUpload.dataUrl ("image/" ++ format) base64Data))].
Proof.
  unfold inputImage, FileUpload.dataUrl.
  rewrite (replace_at_start "image/" "" format). reflexivity.
Qed.

End SessionWireFacts.

(** ** The text field, the file picker and the tutor page *)

Section PageFacts.
Import JsString MathParser Notation Json RealtimeTutor Session.

(** X16.  [handleSubmit] hands [onSend] at most one text, and only a
    trimmed, non-empty one, and only when the field is not disabled; when
    it does, it empties the field, and otherwise it leaves the field as it
    is. *)
Theorem handleSubmit_sends_trimmed_text (disabled : bool) (value : string) :
  (blank value = false -> disabled = false ->
   TextInput.handleSubmit disabled value = ([trim value], "")
   /\ trim value <> "" /\ trim (trim value) = trim value)
  /\ (blank value = true \/ disabled = true ->
      TextInput.handleSubmit disabled value = ([], value)).
Proof.
  unfold TextInput.handleSubmit. split.
  - intros Hb ->. rewrite (blank_trim value Hb). cbn.
    split; [reflexivity|]. split; [|apply trim_idempotent].
    apply nonEmpty_neq. now apply blank_trim.
  - intros [Hb | ->].
    + apply trim_blank in Hb. now rewrite Hb.
    + now rewrite andb_false_r.
Qed.

Lemma handleSubmit_sends_trimmed_text_witness :
  TextInput.handleSubmit false "  2x = 4 " = (["2x = 4"], "")
  /\ TextInput.handleSubmit true "  2x = 4 " = ([], "  2x = 4 ")
  /\ TextInput.handleSubmit false "   " = ([], "   ").
Proof.
  destruct (handleSubmit_sends_trimmed_text false "  2x = 4 ") as [H1 _].
  destruct (handleSubmit_sends_trimmed_text true "  2x = 4 ") as [_ H2].
  destruct (handleSubmit_sends_trimmed_text false "   ") as [_ H3].
  destruct (H1 eq_refl eq_refl) as [H1' _].
  split; [exact H1'|]. split; [exact (H2 (or_intror eq_refl)) | exact (H3 (or_introl eq_refl))].
Defined.

Lemma untilComma_commaFree (s : string) :
  FileUpload.commaFree (FileUpload.untilComma s) = true.
Proof.
  unfold FileUpload.commaFree.
  induction s as [|c s IH]; cbn; [reflexivity|].
  destruct (Ascii.eqb c FileUpload.comma) eqn:Hc; cbn; [reflexivity|].
  now rewrite Hc, IH.
Qed.

Lemma secondField_commaFree (s b : string) :
  FileUpload.secondField s = Some b -> FileUpload.commaFree b = true.
Proof.
  unfold FileUpload.secondField.
  destruct (FileUpload.afterComma s) as [t|]; cbn; [|discriminate].
  intros H. inversion H. apply untilComma_commaFree.
Qed.

Lemma isAcceptedImage_In (t : string) :
  FileUpload.isAcceptedImage t = true -> In t FileUpload.ACCEPTED_IMAGE_TYPES.
Proof.
  unfold FileUpload.isAcceptedImage. intros H.
  apply existsb_exists in H as [x [Hin Heq]].
  apply String.eqb_eq in Heq. now subst.
Qed.

(** X17.  Whatever [handleFile] uploads is an image of one of the three
    accepted types (a PDF arrives as [image/png]) with a non-empty payload
    that holds no comma; and a file that is neither an accepted image nor
    a PDF causes no call at all and leaves [isConverting] alone. *)
Theorem handleFile_uploads_only_images
        (fileType : string) (readerResult : option string)
        (pdf : FileUpload.PdfRun) (onError isConverting : bool) :
  (forall base64 mimeType,
      In (FileUpload.OnUpload base64 mimeType)
         (fst (FileUpload.handleFile fileType readerResult pdf onError isConverting)) ->
      In mimeType FileUpload.ACCEPTED_IMAGE_TYPES
      /\ base64 <> "" /\ FileUpload.commaFree base64 = true)
  /\ (FileUpload.isAcceptedImage fileType = false ->
      fileType <> FileUpload.ACCEPTED_PDF_TYPE ->
      FileUpload.handleFile fileType readerResult pdf onError isConverting
      = ([], isConverting)).
Proof.
  unfold FileUpload.handleFile. split.
  - intros base64 mimeType.
    destruct (FileUpload.isAcceptedImage fileType) eqn:Hacc.
    + destruct readerResult as [result|]; [|intros []].
      destruct (FileUpload.secondField result) as [[|c t]|] eqn:Hf.
      * intros [].
      * cbn. intros [Heq | []]. inversion Heq; subst.
        split; [now apply isAcceptedImage_In|]. split; [discriminate|].
        exact (secondField_commaFree _ _ Hf).
      * intros [].
    + destruct (fileType =? FileUpload.ACCEPTED_PDF_TYPE)%string; [|intros []].
      unfold FileUpload.convertPdfFirstPageToImage.
      destruct pdf as [thrown | | url].
      * destruct onError; cbn; intros Hin;
          [destruct Hin as [Heq | []]; discriminate Heq | destruct Hin].
      * destruct onError; cbn; intros Hin;
          [destruct Hin as [Heq | []]; discriminate Heq | destruct Hin].
      * destruct (FileUpload.secondField url) as [[|c t]|] eqn:Hf.
        -- destruct onError; cbn; intros Hin;
             [destruct Hin as [Heq | []]; discriminate Heq | destruct Hin].
        -- cbn. intros [Heq | []]. inversion Heq; subst.
           split; [cbn; tauto|]. split; [discriminate|].
           exact (secondField_commaFree _ _ Hf).
        -- destruct onError; cbn; intros Hin;
             [destruct Hin as [Heq | []]; discriminate Heq | destruct Hin].
  - intros Hacc Hpdf. rewrite Hacc.
    apply String.eqb_neq in Hpdf. now rewrite Hpdf.
Qed.

End PageFacts.

Section TutorPageFacts.
Import JsString MathParser Notation Json RealtimeTutor Session.

Lemma handleFile_uploads_only_images_witness :
  FileUpload.handleFile "text/plain" (Some "data:text/plain;base64,QQ==")
                        (FileUpload.Drawn "data:image/png;base64,AAAA") true false
  = ([], false)
  /\ In "image/png" FileUpload.ACCEPTED_IMAGE_TYPES.
Proof.
  destruct (handleFile_uploads_only_images
              "text/plain" (Some "data:text/plain;base64,QQ==")
              (FileUpload.Drawn "data:image/png;base64,AAAA") true false) as [_ Hother].
  destruct (handleFile_uploads_only_images
              "application/pdf" None
              (FileUpload.Drawn "data:image/png;base64,AAAA") true false) as [Hup _].
  split.
  - apply Hother; [reflexivity | discriminate].
  - apply (Hup "AAAA" "image/png"). cbn. left. reflexivity.
Defined.

Lemma untilComma_fixed (s : string) :
  FileUpload.commaFree s = true -> FileUpload.untilComma s = s.
Proof.
  unfold FileUpload.commaFree.
  induction s as [|c s IH]; cbn; [reflexivity|].
  intros H. apply andb_true_iff in H as [Hc Hs].
  rewrite negb_true_iff in Hc. now rewrite Hc, (IH Hs).
Qed.

Lemma secondField_dataUrl (fileType payload : string) :
  In fileType FileUpload.ACCEPTED_IMAGE_TYPES ->
  FileUpload.commaFree payload = true ->
  FileUpload.secondField (FileUpload.dataUrl fileType payload) = Some payload.
Proof.
  intros Hin Hfree. unfold FileUpload.secondField, FileUpload.dataUrl.
  cbn in Hin. destruct Hin as [<- | [<- | [<- | []]]]; cbn;
    now rewrite (untilComma_fixed payload Hfree).
Qed.

Lemma inputImage_accepted (fileType payload : string) :
  In fileType FileUpload.ACCEPTED_IMAGE_TYPES ->
  inputImage payload fileType =
  JObject [("type", JString "input_image");
           ("image_url", JString (FileUpload.dataUrl fileType payload))].
Proof.
  intros Hin. cbn in Hin. destruct Hin as [<- | [<- | [<- | []]]]; reflexivity.
Qed.

(** X18.  An accepted image travels unchanged from the file to the
    tutor: when the [FileReader] loads the data URL of the file's type
    and payload, the page previews that very URL, and "Get help with this
    problem" on an open channel sends one message whose only part is an
    [input_image] with that very URL as [image_url], then clears the
    pending image. *)
Theorem uploaded_image_is_sent_as_read
        (fileType payload : string) (pdf : FileUpload.PdfRun)
        (onError isConverting : bool) (p : TutorPage.Page) :
  FileUpload.isAcceptedImage fileType = true ->
  payload <> "" -> FileUpload.commaFree payload = true ->
  channelOpen (TutorPage.tutor p) = true ->
  let read := FileUpload.dataUrl fileType payload in
  let picked :=
    fold_left (fun acc c => TutorPage.onFileCall c acc)
              (fst (FileUpload.handleFile fileType (Some read) pdf onError isConverting))
              p in
  let sent := TutorPage.handleSendImageOnly picked in
  TutorPage.previewSrc picked = Some read
  /\ TutorPage.uploadedImage sent = None
  /\ trace (TutorPage.tutor sent) =
     trace (TutorPage.tutor p)
     ++ framesOf [JObject [("type", JString "input_image");
                           ("image_url", JString read)]].
Proof.
  intros Hacc Hne Hfree Hopen read picked sent.
  pose proof (isAcceptedImage_In fileType Hacc) as Hin.
  assert (Hpicked : picked = TutorPage.mkPage (TutorPage.error p)
                                              (Some (payload, fileType))
                                              (TutorPage.tutor p)).
  { unfold picked, FileUpload.handleFile, read. rewrite Hacc.
    rewrite (secondField_dataUrl fileType payload Hin Hfree).
    destruct payload as [|c t]; [congruence|]. reflexivity. }
  unfold sent. rewrite Hpicked. split; [reflexivity|]. split; [reflexivity|].
  unfold TutorPage.handleSendImageOnly.
  cbn [TutorPage.uploadedImage TutorPage.tutor TutorPage.error].
  unfold sendImage. rewrite (sendContent_open _ _ Hopen). cbn [trace].
  now rewrite (inputImage_accepted fileType payload Hin).
Qed.

Lemma uploaded_image_is_sent_as_read_witness :
  trace (TutorPage.tutor
           (TutorPage.handleSendImageOnly
              (TutorPage.handleUpload "AAAA" "image/webp"
                 (TutorPage.mkPage None None liveHook))))
  = framesOf [JObject [("type", JString "input_image");
                       ("image_url", JString "data:image/webp;base64,AAAA")]].
Proof.
  destruct (uploaded_image_is_sent_as_read
              "image/webp" "AAAA" FileUpload.NoContext true false
              (TutorPage.mkPage None None liveHook)
              eq_refl ltac:(discriminate) eq_refl eq_refl) as [_ [_ H]].
  exact H.
Defined.

(** X19.  A pending image goes with exactly the next message: on an open
    channel, the text sent after an upload carries the image in the same
    [conversation.item.create] frame, the pending image is cleared, and
    the text sent after that is sent alone. *)
Theorem pending_image_goes_with_next_message
        (base64 mimeType first second : string) (p : TutorPage.Page) :
  channelOpen (TutorPage.tutor p) = true ->
  let p1 := TutorPage.handleTextSend first (TutorPage.handleUpload base64 mimeType p) in
  let p2 := TutorPage.handleTextSend second p1 in
  TutorPage.uploadedImage p1 = None
  /\ TutorPage.uploadedImage p2 = None
  /\ trace (TutorPage.tutor p2) =
     trace (TutorPage.tutor p)
     ++ framesOf [inputText first; inputImage base64 mimeType]
     ++ framesOf [inputText second].
Proof.
  intros Hopen p1 p2.
  assert (Hp1 : p1 = TutorPage.mkPage
                       (TutorPage.error p) None
                       (sendContent [inputText first; inputImage base64 mimeType]
                                    (TutorPage.tutor p))) by reflexivity.
  assert (Hp2 : p2 = TutorPage.mkPage
                       (TutorPage.error p) None
                       (sendAll [[inputText first; inputImage base64 mimeType];
                                 [inputText second]]
                                (TutorPage.tutor p))).
  { unfold p2. rewrite Hp1. reflexivity. }
  rewrite Hp1, Hp2. split; [reflexivity|]. split; [reflexivity|].
  cbn [TutorPage.tutor]. unfold sendAll. cbn [fold_left].
  rewrite (sendContent_open [inputText second] _
             (sendContent_stays_open _ _ Hopen)).
  cbn [trace]. rewrite (sendContent_open _ _ Hopen). cbn [trace].
  unfold framesOf. now rewrite <- app_assoc.
Qed.

End TutorPageFacts.

Section TutorPageMore.
Import JsString MathParser Notation Json RealtimeTutor Session.

Lemma pending_image_goes_with_next_message_witness :
  trace (TutorPage.tutor
           (TutorPage.handleTextSend "and then?"
              (TutorPage.handleTextSend "step 2"
                 (TutorPage.handleUpload "AAAA" "image/png"
                    (TutorPage.mkPage None None liveHook)))))
  = framesOf [inputText "step 2"; inputImage "AAAA" "image/png"]
    ++ framesOf [inputText "and then?"].
Proof.
  destruct (pending_image_goes_with_next_message
              "AAAA" "image/png" "step 2" "and then?"
              (TutorPage.mkPage None None liveHook) eq_refl) as [_ [_ H]].
  exact H.
Defined.

(** X20.  On a channel that is absent or not open the page still clears
    the pending image: [handleTextSend] and [handleSendImageOnly] send
    nothing, leave the hook as it was, and the image is gone. *)
Theorem pending_image_is_dropped_without_channel
        (base64 mimeType text : string) (p : TutorPage.Page) :
  channelOpen (TutorPage.tutor p) = false ->
  TutorPage.uploadedImage p = Some (base64, mimeType) ->
  TutorPage.handleTextSend text p
  = TutorPage.mkPage (TutorPage.error p) None (TutorPage.tutor p)
  /\ TutorPage.handleSendImageOnly p
     = TutorPage.mkPage (TutorPage.error p) None (TutorPage.tutor p).
Proof.
  intros Hclosed Himg.
  unfold TutorPage.handleTextSend, TutorPage.handleSendImageOnly.
  rewrite Himg. unfold sendTextWithImage, sendImage.
  now rewrite !(sendContent_closed _ _ Hclosed).
Qed.

Lemma pending_image_is_dropped_without_channel_witness :
  TutorPage.handleSendImageOnly
    (TutorPage.mkPage None (Some ("AAAA", "image/png")) (disconnect liveHook))
  = TutorPage.mkPage None None (disconnect liveHook).
Proof.
  destruct (pending_image_is_dropped_without_channel
              "AAAA" "image/png" "x"
              (TutorPage.mkPage None (Some ("AAAA", "image/png")) (disconnect liveHook))
              eq_refl eq_refl) as [_ H].
  exact H.
Defined.

Lemma handleTextSend_open (text : string) (p : TutorPage.Page) :
  channelOpen (TutorPage.tutor p) = true ->
  exists content,
    TutorPage.handleTextSend text p =
    TutorPage.mkPage (TutorPage.error p) None
                     (sendContent (inputText text :: content) (TutorPage.tutor p))
    /\ (TutorPage.uploadedImage p = None -> content = []).
Proof.
  intros Hopen. unfold TutorPage.handleTextSend.
  destruct (TutorPage.uploadedImage p) as [[b m]|] eqn:Himg.
  - exists [inputImage b m]. split; [reflexivity | discriminate].
  - exists []. split; [reflexivity | reflexivity].
Qed.

(** X21.  A text cannot be sent twice in a row: once a non-blank text
    has been submitted on an open channel, its two frames are on the
    channel with the trimmed text first in the message, the field is
    empty, the state is [thinking], and submitting again, whatever the
    field then holds, sends nothing and changes nothing until an event
    moves the state on. *)
Theorem no_second_submit_while_thinking (value : string) (p : TutorPage.Page) :
  channelOpen (TutorPage.tutor p) = true ->
  TutorPage.inputsDisabled p = false ->
  blank value = false ->
  let p1 := fst (TutorPage.submitText value p) in
  snd (TutorPage.submitText value p) = ""
  /\ state (TutorPage.tutor p1) = thinking
  /\ (exists rest,
         trace (TutorPage.tutor p1) =
         trace (TutorPage.tutor p) ++ framesOf (inputText (trim value) :: rest))
  /\ (forall again, TutorPage.submitText again p1 = (p1, again)).
Proof.
  intros Hopen Hen Hb p1.
  assert (Hsub : TutorPage.submitText value p =
                 (TutorPage.handleTextSend (trim value) p, "")).
  { unfold TutorPage.submitText, TextInput.handleSubmit.
    now rewrite Hen, (blank_trim value Hb). }
  unfold p1. rewrite Hsub. cbn [fst snd].
  destruct (handleTextSend_open (trim value) p Hopen) as [rest [Hsend _]].
  rewrite Hsend. cbn [TutorPage.tutor].
  rewrite (sendContent_open _ _ Hopen). cbn [state trace].
  split; [reflexivity|]. split; [reflexivity|].
  split; [exists rest; reflexivity|].
  intros again. unfold TutorPage.submitText, TextInput.handleSubmit,
                  TutorPage.inputsDisabled.
  cbn [TutorPage.tutor state negb]. now rewrite andb_false_r.
Qed.

Lemma no_second_submit_while_thinking_witness :
  TutorPage.submitText "again"
    (fst (TutorPage.submitText " 2x = 4 " (TutorPage.mkPage None None liveHook)))
  = (fst (TutorPage.submitText " 2x = 4 " (TutorPage.mkPage None None liveHook)),
     "again").
Proof.
  destruct (no_second_submit_while_thinking
              " 2x = 4 " (TutorPage.mkPage None None liveHook)
              eq_refl eq_refl eq_refl) as [_ [_ [_ H]]].
  exact (H "again").
Defined.

End TutorPageMore.

(** ** More on the token route, and the pieces of [connect] *)

Section TokenRouteMore.
Import Json TokenRoute.

Variable fetch : Request -> option UpstreamResponse.
Variable json : string -> option ClientSecret.
Variable instructions : string.

(** The five replies the handler can give. *)
Lemma POST_cases (env : Env) :
  (exists v, v <> "" /\ POST fetch json instructions env = mkResponse 200 (valueBody v))
  \/ POST fetch json instructions env
     = mkResponse 500 (errorBody "OPENAI_API_KEY is not configured")
  \/ POST fetch json instructions env = mkResponse 500 (errorBody "Failed to create token")
  \/ POST fetch json instructions env = mkResponse 500 (errorBody "No token in response")
  \/ (exists r err,
         ok r = false /\ upstreamText r = Some err
         /\ 300 <= upstreamStatus r <= 599 /\ upstreamStatus r <> 304
         /\ POST fetch json instructions env =
            mkResponse (upstreamStatus r)
                       (errorBodyWithDetails "Failed to create token" err)).
Proof.
  unfold POST, caught.
  destruct (truthy (OPENAI_API_KEY env)); cbn [negb]; [|tauto].
  destruct (fetch _) as [r|]; [|tauto].
  destruct (ok r) eqn:Hok; cbn [negb].
  - destruct (upstreamText r) as [text|]; [|tauto].
    destruct (json _) as [d|]; [|tauto].
    destruct (truthy (value d)) eqn:Hv; cbn [negb]; [|tauto].
    left. destruct (truthy_some _ Hv) as [v [-> Hne]]. eauto.
  - destruct (upstreamText r) as [err|] eqn:Ht; [|tauto].
    destruct (NextResponse_json _ (upstreamStatus r)) as [built|] eqn:Hb;
      cbn [orCaught]; [|tauto].
    apply NextResponse_json_some in Hb as [-> [Hrange [_ [_ H304]]]].
    pose proof (proj1 (not_ok_iff r) Hok) as Hnot.
    right; right; right; right. exists r, err.
    split; [exact Hok|]. split; [exact Ht|]. split; [lia|].
    split; [exact H304 | reflexivity].
Qed.

(** X22.  The status tells the client what it got, whatever the upstream
    does: a reply with a status from 200 to 299 is always status 200 with
    the body [{ value }], the token not empty; any other reply has a
    status from 300 to 599 other than 304 and the body [{ error }] or
    [{ error, details }], the [error] message not empty. *)
Theorem POST_ok_only_with_token (env : Env) :
  (200 <= status (POST fetch json instructions env) <= 299 ->
   exists v, v <> ""
             /\ POST fetch json instructions env
                = mkResponse 200 (JObject [("value", JString v)]))
  /\ (~ (200 <= status (POST fetch json instructions env) <= 299) ->
      300 <= status (POST fetch json instructions env) <= 599
      /\ status (POST fetch json instructions env) <> 304
      /\ exists msg,
          msg <> ""
          /\ (body (POST fetch json instructions env)
              = JObject [("error", JString msg)]
              \/ exists details,
                  body (POST fetch json instructions env)
                  = JObject [("error", JString msg); ("details", JString details)])).
Proof.
  destruct (POST_cases env)
    as [[v [Hv H]] | [H | [H | [H | [r [err [Hok [Ht [Hr [H304 H]]]]]]]]]];
    rewrite H; cbn [status body]; split.
  - intros _. exists v. now split.
  - intros Hn. exfalso. apply Hn. lia.
  - intros [_ Hhi]. lia.
  - intros _. split; [lia|]. split; [lia|].
    eexists. split; [|left; reflexivity]. discriminate.
  - intros [_ Hhi]. lia.
  - intros _. split; [lia|]. split; [lia|].
    eexists. split; [|left; reflexivity]. discriminate.
  - intros [_ Hhi]. lia.
  - intros _. split; [lia|]. split; [lia|].
    eexists. split; [|left; reflexivity]. discriminate.
  - intros H2xx. lia.
  - intros _. split; [exact Hr|]. split; [exact H304|].
    eexists. split; [|right; eexists; reflexivity]. discriminate.
Qed.

(** X23.  The configuration error is the reply exactly when the key is
    missing or empty, and then the upstream plays no part; with a key the
    handler never gives that reply, whatever the upstream answers. *)
Theorem POST_configuration_error_iff_no_key (env : Env) :
  POST fetch json instructions env
  = mkResponse 500 (errorBody "OPENAI_API_KEY is not configured")
  <-> (OPENAI_API_KEY env = None \/ OPENAI_API_KEY env = Some "").
Proof.
  split.
  - unfold POST, caught.
    destruct (OPENAI_API_KEY env) as [[|c k]|]; [tauto | | tauto].
    cbn [truthy negb].
    destruct (fetch _) as [r|]; [|discriminate].
    destruct (negb (ok r)).
    + destruct (upstreamText r) as [err|]; [|discriminate].
      destruct (NextResponse_json _ (upstreamStatus r)) as [built|] eqn:Hb;
        cbn [orCaught]; [|discriminate].
      apply NextResponse_json_some in Hb as [-> _]. discriminate.
    + destruct (upstreamText r) as [text|]; [|discriminate].
      destruct (json _) as [d|]; [|discriminate].
      destruct (negb (truthy (value d))); discriminate.
  - unfold POST. intros [-> | ->]; reflexivity.
Qed.

End TokenRouteMore.

Section ConnectFacts.
Import Json RealtimeTutor TokenRoute Connect.

(** X24.  However far [connect] got when it failed, its [catch] block
    leaves the hook torn down: no channel, no peer connection, not
    connected, state [idle].  Before that it calls [onError] once, when
    the prop is there, with the error's message, or ['Connection failed']
    for a thrown value that is not an [Error]; then it closes the channel
    if one is held, then the peer connection if one is held. *)
Theorem connectCatch_tears_down (err : Thrown) (h : Hook) :
  let after := connectCatch err h in
  dcRef after = None /\ pcRef after = None
  /\ isConnected after = false /\ state after = idle
  /\ trace after =
     trace h
     ++ (if onError h
         then [OnError (match err with
                        | ErrorOf m => m
                        | Other => "Connection failed"
                        end)]
         else [])
     ++ (match dcRef h with Some _ => [ChannelClose] | None => [] end)
     ++ (match pcRef h with Some _ => [PeerClose] | None => [] end).
Proof.
  intros after. unfold after, connectCatch.
  destruct (disconnect_releases
              (setState idle
                 (callOnError (match err with
                               | ErrorOf m => m
                               | Other => "Connection failed"
                               end) h))) as [Hdc [Hpc [Hcon Hst]]].
  repeat split; try assumption.
  rewrite disconnect_trace. unfold callOnError.
  destruct (onError h); cbn; rewrite <- ?app_assoc; reflexivity.
Qed.

(** X25.  Against this repository's token route the token step of
    [connect] yields a key exactly when the route answered 200, and the
    key is the route's non-empty token; on every other reply it throws an
    [Error] whose message is the route's own [error] text, so the
    client-side fall-backs ['Failed to get token'] and
    ['No token received'] are never what the user is shown. *)
Theorem token_step_against_the_route
        (fetch : Request -> option UpstreamResponse)
        (json : string -> option ClientSecret)
        (instructions : string) (env : Env) :
  let reply := POST fetch json instructions env in
  (exists token, token <> ""
                 /\ reply = mkResponse 200 (valueBody token)
                 /\ tokenStepOn reply = inl token)
  \/ (exists msg,
         tokenStepOn reply = inr (ErrorOf msg)
         /\ field "error" (body reply) = Some (JString msg)
         /\ In msg ["OPENAI_API_KEY is not configured"; "Failed to create token";
                    "No token in response"]).
Proof.
  intros reply. unfold reply.
  destruct (POST_cases fetch json instructions env)
    as [[v [Hv H]] | [H | [H | [H | [r [err [Hok [Ht [Hr [H304 H]]]]]]]]]];
    rewrite H.
  - left. exists v. split; [exact Hv|]. split; [reflexivity|].
    unfold tokenStepOn, tokenStep. cbn.
    destruct v; [congruence | reflexivity].
  - right. eexists. split; [reflexivity|]. split; [reflexivity|]. cbn. tauto.
  - right. eexists. split; [reflexivity|]. split; [reflexivity|]. cbn. tauto.
  - right. eexists. split; [reflexivity|]. split; [reflexivity|]. cbn. tauto.
  - right. exists "Failed to create token".
    split; [|split; [reflexivity | cbn; tauto]].
    unfold tokenStepOn, tokenStep, replyOk. cbn [status body].
    unfold ok in Hok. rewrite Hok. reflexivity.
Qed.

End ConnectFacts.

Section TokenWitnesses.
Import Json TokenRoute.

Lemma POST_ok_only_with_token_witness :
  exists v, v <> ""
            /\ POST (replies 200 "ok") (parsesTo (Some "ek_123")) "Be Socratic."
                    (mkEnv (Some "sk-live"))
               = mkResponse 200 (JObject [("value", JString v)]).
Proof.
  destruct (POST_ok_only_with_token
              (replies 200 "ok") (parsesTo (Some "ek_123")) "Be Socratic."
              (mkEnv (Some "sk-live"))) as [H _].
  apply H. cbn. lia.
Defined.

End TokenWitnesses.

(** ** The waitlist route *)

Section WaitlistFacts.
Import JsString MathParser Waitlist.

(** [class+] then [k]: a non-empty run of the class, and what is left is
    accepted by [k]. *)
Lemma plus_spec (p : ascii -> bool) (k : string -> bool) (s : string) :
  plus p k s = true <->
  exists a b, s = (a ++ b)%string /\ a <> "" /\ allChars p a = true /\ k b = true.
Proof.
  induction s as [|d t IH]; cbn [plus].
  - split; [discriminate|].
    intros [a [b [Hs [Ha _]]]]. destruct a; [congruence | discriminate].
  - split.
    + intros H. apply andb_true_iff in H as [Hd H].
      apply orb_true_iff in H as [H | H].
      * apply IH in H as [a [b [-> [Ha [Hall Hk]]]]].
        exists (String d a), b. cbn. rewrite Hd, Hall.
        repeat split; [discriminate | exact Hk].
      * exists (String d ""), t. cbn. rewrite Hd.
        repeat split; [discriminate | exact H].
    + intros [a [b [Hs [Ha [Hall Hk]]]]].
      destruct a as [|d' a]; [congruence|].
      cbn in Hs. inversion Hs; subst d' t. cbn in Hall.
      apply andb_true_iff in Hall as [Hd Hall]. rewrite Hd. cbn.
      destruct a as [|e a].
      * cbn. rewrite Hk. apply orb_true_r.
      * apply orb_true_iff. left. apply IH.
        exists (String e a), b. repeat split; [discriminate | exact Hall | exact Hk].
Qed.

Lemma test_lit (c : ascii) (rest : list Atom) (s : string) :
  test (Lit c :: rest) s = true <-> exists t, s = String c t /\ test rest t = true.
Proof.
  cbn [test]. destruct s as [|d t].
  - split; [discriminate | intros [t [H _]]; discriminate].
  - split.
    + intros H. apply andb_true_iff in H as [Hd Ht].
      apply Ascii.eqb_eq in Hd. subst. eauto.
    + intros [t' [Hs Ht]]. inversion Hs; subst. now rewrite Ascii.eqb_refl.
Qed.

Lemma test_end (s : string) : test [] s = true <-> s = "".
Proof.
  cbn. destruct s; cbn; split; congruence.
Qed.

Lemma test_many (p : ascii -> bool) (rest : list Atom) (s : string) :
  test (Many p :: rest) s = true <->
  exists a b, s = (a ++ b)%string /\ a <> "" /\ allChars p a = true
              /\ test rest b = true.
Proof.
  change (test (Many p :: rest) s) with (plus p (test rest) s). apply plus_spec.
Qed.

(** X26.  The address pattern accepts exactly the strings made of a local
    part, an [@], and a domain with a dot inside it: three non-empty runs
    of characters that are neither white space nor [@], joined by [@] and
    by [.]. *)
Theorem emailRegex_accepts_exactly (s : string) :
  test emailRegex s = true <->
  exists localPart domain suffix,
    s = (localPart ++ "@" ++ domain ++ "." ++ suffix)%string
    /\ localPart <> "" /\ domain <> "" /\ suffix <> ""
    /\ allChars emailChar localPart = true
    /\ allChars emailChar domain = true
    /\ allChars emailChar suffix = true.
Proof.
  unfold emailRegex. split.
  - intros H. apply test_many in H as [l [b [Hs [Hl [Hall Hb]]]]].
    apply test_lit in Hb as [b' [-> Hb']].
    apply test_many in Hb' as [d [c [-> [Hd [Halld Hc]]]]].
    apply test_lit in Hc as [c' [-> Hc']].
    apply test_many in Hc' as [t [e [-> [Ht [Hallt He]]]]].
    apply test_end in He. subst e.
    exists l, d, t. rewrite append_nil_r in Hs.
    repeat split; assumption.
  - intros [l [d [t [Hs [Hl [Hd [Ht [Hall [Halld Hallt]]]]]]]]].
    apply test_many. exists l, ("@" ++ d ++ "." ++ t)%string.
    repeat split; try assumption.
    apply test_lit. exists (d ++ "." ++ t)%string. split; [reflexivity|].
    apply test_many. exists d, ("." ++ t)%string.
    repeat split; try assumption.
    apply test_lit. exists t. split; [reflexivity|].
    apply test_many. exists t, "". rewrite append_nil_r.
    repeat split; try assumption.
Qed.

Lemma emailRegex_accepts_exactly_witness :
  test emailRegex "ada@mail.example.org" = true.
Proof.
  apply emailRegex_accepts_exactly.
  exists "ada", "mail.example", "org". repeat split; discriminate.
Defined.

End WaitlistFacts.

Section WaitlistHandlerFacts.
Import JsString MathParser Waitlist.

Variable connectionString : option string.
Variable database : string -> Database.

Ltac split_ifs :=
  repeat match goal with
         | |- context [if ?b then _ else _] => destruct b eqn:?
         end.

(** X27.  Only a validated, normalised address ever reaches the
    [INSERT]: whenever the handler hands the database an address, the
    request carried a string [email], the address is that string trimmed
    and lower-cased, it matches the address pattern, and it is at most 255
    characters long; and the connection string is configured. *)
Theorem only_validated_addresses_are_inserted
        (request : RequestBody) (reply : Reply) (stored : string) :
  POST connectionString database request = (reply, Some stored) ->
  (exists email,
      request = Parsed (Some email)
      /\ stored = normalize email
      /\ test emailRegex stored = true
      /\ String.length stored <= 255)
  /\ (exists url, connectionString = Some url /\ url <> "").
Proof.
  unfold POST.
  destruct connectionString as [[|c url]|]; try discriminate.
  destruct request as [| | [email|]]; try discriminate.
  destruct (negb (nonEmpty (trim email))); [discriminate|].
  destruct (test emailRegex (normalize email)) eqn:Hre; [|discriminate].
  destruct (255 <? String.length (normalize email))%nat eqn:Hlen; [discriminate|].
  apply Nat.ltb_ge in Hlen. cbn [negb].
  intros H.
  assert (Hs : stored = normalize email).
  { destruct (database (normalize email)) as [| | [code|]];
      [discriminate | now inversion H | | now inversion H].
    revert H. split_ifs; intros H; now inversion H. }
  subst stored. split.
  - exists email. repeat split; assumption.
  - eexists. split; [reflexivity | discriminate].
Qed.

(** X28.  The route reports success only for an address that is on the
    list: a reply has [ok: true] exactly when its status is 200, and then
    an address was handed to the database and was either inserted or
    refused as a duplicate (code [23505]). *)
Theorem success_means_on_the_list (request : RequestBody) :
  let reply := fst (POST connectionString database request) in
  let attempted := snd (POST connectionString database request) in
  (ok reply = true <-> status reply = 200)
  /\ (ok reply = true ->
      exists stored,
        attempted = Some stored
        /\ (database stored = Inserted
            \/ database stored = Rejected (Some "23505"))).
Proof.
  cbn zeta. unfold POST.
  destruct connectionString as [[|c url]|];
    try (cbn; split; [split; discriminate | discriminate]).
  destruct request as [| | [email|]];
    try (cbn; split; [split; discriminate | discriminate]).
  destruct (negb (nonEmpty (trim email)));
    [cbn; split; [split; discriminate | discriminate]|].
  destruct (negb (test emailRegex (normalize email)));
    [cbn; split; [split; discriminate | discriminate]|].
  destruct (255 <? String.length (normalize email))%nat;
    [cbn; split; [split; discriminate | discriminate]|].
  destruct (database (normalize email)) as [| | [code|]] eqn:Hdb.
  - cbn; split; [split; discriminate | discriminate].
  - cbn. split; [tauto|]. intros _. exists (normalize email). tauto.
  - destruct (code =? "23505")%string eqn:Hdup.
    + apply String.eqb_eq in Hdup. subst code.
      cbn. split; [tauto|]. intros _. exists (normalize email). tauto.
    + split_ifs; cbn; (split; [split; discriminate | discriminate]).
  - cbn; split; [split; discriminate | discriminate].
Qed.

End WaitlistHandlerFacts.

Lemma only_validated_addresses_are_inserted_witness :
  exists email,
    Waitlist.Parsed (Some "  Ada@Example.ORG ") = Waitlist.Parsed (Some email)
    /\ "ada@example.org" = Waitlist.normalize email.
Proof.
  destruct (only_validated_addresses_are_inserted
              (Some "postgres://db") (fun _ => Waitlist.Inserted)
              (Waitlist.Parsed (Some "  Ada@Example.ORG "))
              (Waitlist.mkReply 200
                 (Waitlist.Success "You're on the waitlist. We'll be in touch soon."))
              "ada@example.org" eq_refl) as [[email [Hreq [Hstored _]]] _].
  exists email. split; assumption.
Defined.

Lemma success_means_on_the_list_witness :
  Waitlist.ok
    (fst (Waitlist.POST (Some "postgres://db")
                        (fun _ => Waitlist.Rejected (Some "23505"))
                        (Waitlist.Parsed (Some "ada@example.org")))) = true.
Proof.
  apply (success_means_on_the_list
           (Some "postgres://db") (fun _ => Waitlist.Rejected (Some "23505"))
           (Waitlist.Parsed (Some "ada@example.org"))).
  reflexivity.
Defined.

(** ** Delimited input, and one full turn of the session *)

Section DelimitedFacts.
Import JsString MathParser Notation.

(** A pattern [/^O|C$/g] removes the pair around a body. *)
Lemma removeEnds_pair (opening closing body : string) :
  removeEnds opening closing (opening ++ body ++ closing) = body.
Proof.
  unfold removeEnds.
  rewrite (startsWith_append opening (body ++ closing)), drop_append.
  rewrite endsWith_append. unfold dropEnd.
  rewrite rev_append, <- (length_rev closing), drop_append.
  apply rev_involutive.
Qed.

Lemma written_last (t : Term) :
  plainTerm t = true ->
  exists c, lastChar (written t) = Some c /\ (isAlnum c = true \/ c = "}"%char).
Proof.
  assert (Hrun : forall w, alnumRun w = true ->
                           exists c, lastChar w = Some c /\ isAlnum c = true).
  { intros w Hw. apply alnumRun_parts in Hw as [Hne Hall].
    destruct (lastChar w) as [c|] eqn:Hl.
    - exists c. split; [reflexivity|]. exact (allChars_last isAlnum w c Hall Hl).
    - destruct w as [|d w]; [discriminate|]. exfalso.
      clear Hne Hall. revert d Hl. induction w as [|d' w IH]; intros d Hl.
      + discriminate.
      + exact (IH d' Hl). }
  destruct t as [w | b e | b e]; cbn [plainTerm written]; intros H.
  - destruct (Hrun w H) as [c [Hc Hal]]. exists c. auto.
  - apply andb_true_iff in H as [_ He]. apply wholeIndex_alnumRun in He.
    destruct (Hrun e He) as [c [Hc Hal]]. exists c. split; [|auto].
    change (b ++ String caret e)%string with (b ++ String caret "" ++ e)%string.
    rewrite <- append_assoc, lastChar_append; [exact Hc|].
    apply nonEmpty_neq. now apply alnumRun_parts in He.
  - apply andb_true_iff in H as [_ He]. apply wholeIndex_alnumRun in He.
    destruct (Hrun e He) as [c [Hc Hal]]. exists c. split; [|auto].
    change (b ++ String underscore e)%string
      with (b ++ String underscore "" ++ e)%string.
    rewrite <- append_assoc, lastChar_append; [exact Hc|].
    apply nonEmpty_neq. now apply alnumRun_parts in He.
Qed.

Lemma tidy_shorthand (i : Input) : wellFormed i = true -> tidy (shorthand i).
Proof.
  intros Hwf. split.
  - now destruct (solid_render written i solid_written Hwf).
  - unfold wellFormed, wellFormedWith in Hwf.
    apply andb_true_iff in Hwf as [Hfirst Hrest].
    unfold shorthand, render.
    assert (Hne : forall t, plainTerm t = true -> written t <> "").
    { intros t Ht. apply solid_nonEmpty. now apply solid_written. }
    destruct (snd i) as [|st rest] eqn:Hsnd.
    + cbn [joinWith]. rewrite append_nil_r. now apply written_last.
    + destruct (joinWith_ends written (st :: rest) Hne Hrest ltac:(discriminate))
        as [Hjoin [t [Ht Hl]]].
      rewrite lastChar_append by exact Hjoin. rewrite Hl. now apply written_last.
Qed.

Lemma removeEnds_dollar_tidy (s : string) :
  tidy s -> removeEnds "$" "$" s = s.
Proof.
  intros [[c [Hc Hal]] [d [Hd Hkind]]].
  apply removeEnds_untouched.
  - apply (startsWith_other s "$" c "$"%char Hc eq_refl). intros ->. discriminate.
  - apply (endsWith_other s "$" d "$"%char Hd eq_refl).
    destruct Hkind as [H | ->]; [intros ->|]; discriminate.
Qed.

Lemma lastChar_closing (a b : string) (c d : ascii) :
  lastChar (a ++ b ++ String c (String d "")) = Some d.
Proof.
  change (String c (String d "")) with (String c "" ++ String d "")%string.
  rewrite <- !append_assoc. now rewrite lastChar_append by discriminate.
Qed.

(** [convertToLaTeX] on a tidy body inside one of the three delimiter
    pairs. *)
Lemma convertToLaTeX_delimited (body : string) :
  tidy body ->
  convertToLaTeX ("$" ++ body ++ "$") = ("$" ++ substitute body ++ "$")%string
  /\ convertToLaTeX ("\(" ++ body ++ "\)") = ("$" ++ substitute body ++ "$")%string
  /\ convertToLaTeX ("\[" ++ body ++ "\]") = ("$" ++ substitute body ++ "$")%string.
Proof.
  intros Htidy.
  destruct (removeEnds_tidy body Htidy) as [Hparen Hbracket].
  pose proof (removeEnds_dollar_tidy body Htidy) as Hdollar.
  split; [|split].
  - unfold convertToLaTeX. rewrite trim_wrapped.
    change (nonEmpty ("$" ++ body ++ "$")) with true. unfold hasLaTeXDelimiters.
    rewrite (startsWith_append "$" (body ++ "$")). cbn [negb orb].
    now rewrite removeEnds_pair, Hparen, Hbracket.
  - assert (Htrim : trim ("\(" ++ body ++ "\)") = ("\(" ++ body ++ "\)")%string).
    { apply trim_fixed.
      - intros c Hc. inversion Hc. reflexivity.
      - rewrite lastChar_closing. intros c Hc. inversion Hc. reflexivity. }
    unfold convertToLaTeX. rewrite Htrim.
    change (nonEmpty ("\(" ++ body ++ "\)")) with true. unfold hasLaTeXDelimiters.
    rewrite (startsWith_append "\(" (body ++ "\)")), orb_true_r. cbn [negb orb].
    rewrite (removeEnds_untouched "$" "$" ("\(" ++ body ++ "\)")).
    + now rewrite removeEnds_pair, Hbracket.
    + reflexivity.
    + apply (endsWith_other _ "$" ")"%char "$"%char); [|reflexivity|discriminate].
      apply lastChar_closing.
  - assert (Htrim : trim ("\[" ++ body ++ "\]") = ("\[" ++ body ++ "\]")%string).
    { apply trim_fixed.
      - intros c Hc. inversion Hc. reflexivity.
      - rewrite lastChar_closing. intros c Hc. inversion Hc. reflexivity. }
    unfold convertToLaTeX. rewrite Htrim.
    change (nonEmpty ("\[" ++ body ++ "\]")) with true. unfold hasLaTeXDelimiters.
    rewrite (startsWith_append "\[" (body ++ "\]")), !orb_true_r. cbn [negb].
    rewrite (removeEnds_untouched "$" "$" ("\[" ++ body ++ "\]")).
    + rewrite (removeEnds_untouched "\(" "\)" ("\[" ++ body ++ "\]")).
      * now rewrite removeEnds_pair.
      * reflexivity.
      * apply (endsWith_other _ "\)" "]"%char ")"%char); [|reflexivity|discriminate].
        apply lastChar_closing.
    + reflexivity.
    + apply (endsWith_other _ "$" "]"%char "$"%char); [|reflexivity|discriminate].
      apply lastChar_closing.
Qed.

(** X29.  Delimiters around well-formed shorthand make no difference:
    written bare, between dollar signs, between [\(] and [\)] or between
    [\[] and [\]], the shorthand converts to the same result, its braced
    form between two dollar signs. *)
Theorem delimiters_make_no_difference (i : Input) :
  wellFormed i = true ->
  convertToLaTeX (shorthand i) = ("$" ++ bracedForm i ++ "$")%string
  /\ convertToLaTeX ("$" ++ shorthand i ++ "$") = convertToLaTeX (shorthand i)
  /\ convertToLaTeX ("\(" ++ shorthand i ++ "\)") = convertToLaTeX (shorthand i)
  /\ convertToLaTeX ("\[" ++ shorthand i ++ "\]") = convertToLaTeX (shorthand i).
Proof.
  intros Hwf.
  destruct (convertToLaTeX_delimited (shorthand i) (tidy_shorthand i Hwf))
    as [Hd [Hp Hb]].
  rewrite Hd, Hp, Hb, (convertToLaTeX_shorthand i Hwf), (substitute_shorthand i Hwf).
  repeat split; reflexivity.
Qed.

Lemma delimiters_make_no_difference_witness :
  convertToLaTeX "\[x^2 + y_ab\]" = convertToLaTeX "x^2 + y_ab".
Proof.
  destruct (delimiters_make_no_difference
              (Sup "x" "2", [(" + ", Sub "y" "ab")]) eq_refl) as [_ [_ [_ H]]].
  exact H.
Defined.

End DelimitedFacts.


Section TurnFacts.
Import Json RealtimeTutor Session.

(** Events other than [error] leave the trace, the references and the
    connection flag alone. *)
Lemma receiveAll_quiet (events : list ServerEvent) (h : Hook) :
  forallb (fun ev => negb (isError ev)) events = true ->
  trace (receiveAll events h) = trace h
  /\ dcRef (receiveAll events h) = dcRef h
  /\ isConnected (receiveAll events h) = isConnected h.
Proof.
  revert h. induction events as [|ev events IH]; intros h; cbn [forallb].
  - intros _. repeat split; reflexivity.
  - intros H. apply andb_true_iff in H as [Hev Hrest].
    change (receiveAll (ev :: events) h)
      with (receiveAll events (handleServerEvent ev h)).
    destruct (IH (handleServerEvent ev h) Hrest) as [-> [-> ->]].
    destruct (handleServerEvent_frame ev h) as [_ [Hdc [_ [Hconn _]]]].
    repeat split; [|exact Hdc|exact Hconn].
    destruct (handleServerEvent_trace ev h) as [Ht | [Hty _]]; [exact Ht|].
    unfold isError in Hev. rewrite Hty in Hev. discriminate.
Qed.

Lemma endsResponse_listening (ev : ServerEvent) (h : Hook) :
  endsResponse ev = true -> state (handleServerEvent ev h) = listening.
Proof.
  unfold endsResponse. intros H.
  apply orb_true_iff in H as [H | H]; [apply orb_true_iff in H as [H | H]|];
    apply String.eqb_eq in H; unfold handleServerEvent; rewrite H; reflexivity.
Qed.

(** X30.  One full turn.  A message sent on an open channel, followed by
    any stream of server events free of [error] events that ends with
    [response.done], [response.output_audio.done] or
    [response.cancelled], leaves the session ready for the next turn: the
    state is [listening], the channel is still open and the connection
    flag unchanged, and the only calls made are the two frames of the
    message. *)
Theorem turn_ends_listening
        (content : list JSON) (events : list ServerEvent) (closing : ServerEvent)
        (h : Hook) :
  channelOpen h = true ->
  forallb (fun ev => negb (isError ev)) events = true ->
  endsResponse closing = true ->
  state (receiveAll (events ++ [closing]) (sendContent content h)) = listening
  /\ trace (receiveAll (events ++ [closing]) (sendContent content h))
     = trace h ++ framesOf content
  /\ channelOpen (receiveAll (events ++ [closing]) (sendContent content h)) = true
  /\ isConnected (receiveAll (events ++ [closing]) (sendContent content h))
     = isConnected h.
Proof.
  intros Hopen Hquiet Hend.
  assert (Hall : forallb (fun ev => negb (isError ev)) (events ++ [closing]) = true).
  { rewrite forallb_app, Hquiet. cbn. rewrite andb_true_r.
    unfold isError. unfold endsResponse in Hend.
    destruct (String.eqb_spec (type closing) "error") as [Heq|]; [|reflexivity].
    rewrite Heq in Hend. discriminate Hend. }
  destruct (receiveAll_quiet _ (sendContent content h) Hall) as [Ht [Hdc Hconn]].
  destruct (sendContent_frame content h) as [_ [Hdc' [_ [Hconn' _]]]].
  split; [|split; [|split]].
  - rewrite receiveAll_app. apply endsResponse_listening, Hend.
  - rewrite Ht, (sendContent_open content h Hopen). reflexivity.
  - unfold channelOpen. rewrite Hdc, Hdc'. exact Hopen.
  - now rewrite Hconn, Hconn'.
Qed.

Lemma turn_ends_listening_witness :
  state
    (receiveAll
       ([mkEvent "response.created" None None;
         mkEvent "response.output_audio.delta" None None;
         mkEvent "response.output_audio_transcript.delta" (Some "Hi") None]
        ++ [mkEvent "response.done" None None])
       (sendContent [inputText "2+2?"] liveHook))
  = listening.
Proof.
  destruct (turn_ends_listening
              [inputText "2+2?"]
              [mkEvent "response.created" None None;
               mkEvent "response.output_audio.delta" None None;
               mkEvent "response.output_audio_transcript.delta" (Some "Hi") None]
              (mkEvent "response.done" None None) liveHook
              eq_refl eq_refl eq_refl) as [H _].
  exact H.
Defined.

End TurnFacts.
